(** * canvas-sms-web: formatting, sorting, scheduling and the SMS worker

    A shallow embedding of the TypeScript services of canvas-sms-web
    (FormattingService, CanvasService, TwilioService, SchedulerService,
    MessageService and the Bull worker) together with the properties the
    specification states about them.

    Conventions.
    - A JavaScript string is the sequence of its UTF-16 code units:
      [jsstring := list N].  [String.length] is [length], and the regular
      expression class [[^\x00-\x7F]] is "some code unit above 127".
    - JavaScript numbers that hold lengths, counts and instants are
      integers and are modelled in [Z].
    - A thrown [Error] is modelled by its message; a function that may
      throw returns [Error + A].
    - The database (Prisma) and the job queue (Bull) are explicit state.
      The queue is modelled as Bull keeps it: the jobs by id and the set
      of repeat keys of the repeatable jobs; the MD5 digest and the cron
      parser that Bull calls are parameters.
    - A plain object used as a map is the finite map of its own
      properties; a key it does not hold is answered by what every
      object inherits. *)

From Stdlib Require Import ZArith NArith Ascii String Lia.
From Stdlib Require Import Sorting.Sorted Sorting.Permutation.
From stdpp Require Import base option list gmap.

Local Open Scope Z_scope.

(* ===================================================================== *)
(** * JavaScript strings and the few built-ins the services use          *)
(* ===================================================================== *)

Module Js.

Definition jsstring : Type := list N.

(** A string literal of the source, one code unit per ASCII character. *)
Definition lit (s : string) : jsstring :=
  List.map N_of_ascii (list_ascii_of_string s).

(** The escape [\n]. *)
Definition nl : jsstring := [10%N].

Definition str_length (s : jsstring) : Z := Z.of_nat (length s).

Definition eqb (a b : jsstring) : bool := bool_decide (a = b).

(** [ToBoolean] on a string: the empty string is falsy. *)
Definition truthy (s : jsstring) : bool :=
  match s with [] => false | _ => true end.

(** [ToBoolean] on a nullable string. *)
Definition truthy_opt (o : option jsstring) : bool :=
  match o with Some s => truthy s | None => false end.

(** Decimal rendering of an integer, as [String(n)], [n.toString()]
    and template literals give it for the integral numbers a double
    holds exactly, those of magnitude up to 2^53: lengths, counts,
    calendar fields and Canvas ids. *)
Fixpoint uint_codes (d : Decimal.uint) : jsstring :=
  match d with
  | Decimal.Nil => []
  | Decimal.D0 d => 48%N :: uint_codes d
  | Decimal.D1 d => 49%N :: uint_codes d
  | Decimal.D2 d => 50%N :: uint_codes d
  | Decimal.D3 d => 51%N :: uint_codes d
  | Decimal.D4 d => 52%N :: uint_codes d
  | Decimal.D5 d => 53%N :: uint_codes d
  | Decimal.D6 d => 54%N :: uint_codes d
  | Decimal.D7 d => 55%N :: uint_codes d
  | Decimal.D8 d => 56%N :: uint_codes d
  | Decimal.D9 d => 57%N :: uint_codes d
  end.

Definition of_N (n : N) : jsstring := uint_codes (N.to_uint n).

Definition of_Z (z : Z) : jsstring :=
  match z with
  | Z0 => [48%N]
  | Zpos p => of_N (Npos p)
  | Zneg p => 45%N :: of_N (Npos p)
  end.

(** [s.padStart(n, '0')]. *)
Definition padStart0 (n : nat) (s : jsstring) : jsstring :=
  repeat 48%N (n - length s)%nat ++ s.

(** [s.substring(from, to)]: both indices are clamped to [0, length]
    and swapped when out of order. *)
Definition clamp (len i : Z) : Z := Z.max 0 (Z.min i len).

Definition substring (s : jsstring) (from to : Z) : jsstring :=
  let a := clamp (str_length s) from in
  let b := clamp (str_length s) to in
  let lo := Z.min a b in
  let hi := Z.max a b in
  take (Z.to_nat (hi - lo)) (drop (Z.to_nat lo) s).

(** White space and line terminators removed by [String.prototype.trim]. *)
Definition is_whitespace (c : N) : bool :=
  ((9 <=? c) && (c <=? 13) || (c =? 32) || (c =? 160) || (c =? 5760)
   || (8192 <=? c) && (c <=? 8202)
   || (c =? 8232) || (c =? 8233) || (c =? 8239) || (c =? 8287)
   || (c =? 12288) || (c =? 65279))%N.

Fixpoint trimStart (s : jsstring) : jsstring :=
  match s with
  | c :: s' => if is_whitespace c then trimStart s' else s
  | [] => []
  end.

Definition trimEnd (s : jsstring) : jsstring := rev (trimStart (rev s)).

Definition trim (s : jsstring) : jsstring := trimEnd (trimStart s).

(** [s.split(sep)] for a one-character separator: never empty. *)
Fixpoint split (sep : N) (s : jsstring) : list jsstring :=
  match s with
  | [] => [[]]
  | c :: s' =>
      if (c =? sep)%N then [] :: split sep s'
      else match split sep s' with
           | w :: ws => (c :: w) :: ws
           | [] => [[c]]
           end
  end.

(** [parts.join(sep)]. *)
Fixpoint join (sep : jsstring) (parts : list jsstring) : jsstring :=
  match parts with
  | [] => []
  | [p] => p
  | p :: ps => p ++ sep ++ join sep ps
  end.

(** [Math.ceil(a / b)] for a non-negative integer [a] and a positive
    integer [b].  For string lengths the quotient computed in double
    precision is either exact or at least [1/b] away from an integer, so
    the rounded-up result is the integer ceiling of the exact quotient. *)
Definition ceil_div (a b : Z) : Z :=
  if a mod b =? 0 then a / b else a / b + 1.

(** Lexicographic comparison of code units, the [<] of JavaScript on
    strings. *)
Fixpoint ltb (a b : jsstring) : bool :=
  match a, b with
  | [], [] => false
  | [], _ :: _ => true
  | _ :: _, [] => false
  | x :: a', y :: b' =>
      if (x <? y)%N then true
      else if (y <? x)%N then false
      else ltb a' b'
  end.

Definition leb (a b : jsstring) : bool := negb (ltb b a).

(** [Array.prototype.sort(comparefn)].  The comparator returns a
    number, [None] standing for [NaN], which the sort reads as [+0].
    The sort is stable: elements that compare equal keep their input
    order.  With a consistent comparator every stable sort returns the
    same array, so a stable insertion sort stands for the engine's.
    A comparator that returns [NaN] for some pairs only, as the
    difference of due instants does when one of them is an invalid date,
    is not consistent, and there the engine may return another order;
    what is proved about the order of the result is proved for valid
    dates. *)
Section Sort.
Context {A : Type} (comparefn : A -> A -> option Z).

Definition sortCompare (x y : A) : Z :=
  match comparefn x y with Some v => v | None => 0 end.

Fixpoint sort_insert (x : A) (l : list A) : list A :=
  match l with
  | [] => [x]
  | y :: l' =>
      if sortCompare x y <=? 0 then x :: l else y :: sort_insert x l'
  end.

Definition sort (l : list A) : list A := foldr sort_insert [] l.
End Sort.

(** ** Plain objects used as maps

    An object created by [{}] or an object literal answers a key it
    does not hold itself with what [Object.prototype] has under it: a
    built-in function, or [Object.prototype] itself under [__proto__].
    [inherited k] is the text such a value gives when it is
    interpolated or joined, [None] when the key is not inherited. *)
Definition nativeFunction (name : string) : jsstring :=
  lit "function " ++ lit name ++ lit "() { [native code] }".

Definition inherited (k : jsstring) : option jsstring :=
  if eqb k (lit "constructor") then Some (nativeFunction "Object")
  else if eqb k (lit "__proto__") then Some (lit "[object Object]")
  else if eqb k (lit "toString") then Some (nativeFunction "toString")
  else if eqb k (lit "valueOf") then Some (nativeFunction "valueOf")
  else if eqb k (lit "toLocaleString") then Some (nativeFunction "toLocaleString")
  else if eqb k (lit "hasOwnProperty") then Some (nativeFunction "hasOwnProperty")
  else if eqb k (lit "isPrototypeOf") then Some (nativeFunction "isPrototypeOf")
  else if eqb k (lit "propertyIsEnumerable")
       then Some (nativeFunction "propertyIsEnumerable")
  else if eqb k (lit "__defineGetter__") then Some (nativeFunction "__defineGetter__")
  else if eqb k (lit "__defineSetter__") then Some (nativeFunction "__defineSetter__")
  else if eqb k (lit "__lookupGetter__") then Some (nativeFunction "__lookupGetter__")
  else if eqb k (lit "__lookupSetter__") then Some (nativeFunction "__lookupSetter__")
  else None.

(** [obj[k] = v] for a string [v], on the own properties of the object:
    under [__proto__] the assignment reaches the inherited setter, which
    ignores a value that is not an object. *)
Definition obj_set (k v : jsstring) (own : gmap jsstring jsstring)
  : gmap jsstring jsstring :=
  if eqb k (lit "__proto__") then own else <[k := v]> own.

(** A [Date] as the local calendar fields its getters return:
    [getFullYear()], [getMonth()] (0 to 11) and [getDate()]. *)
Record Date : Type := mkDate {
  getFullYear : Z;
  getMonth : Z;
  getDate : Z
}.

End Js.

Import Js.

(* ===================================================================== *)
(** * The database tables the services read and write                    *)
(* ===================================================================== *)

(** The Prisma tables, with the columns the services use.  A query or a
    write against the database itself is taken to succeed. *)

Module Db.

Record Parent : Type := mkParent {
  parent_id : jsstring;
  parent_phoneNumber : option jsstring;
  timezone : jsstring
}.

Record Preference : Type := mkPreference {
  pref_parentId : jsstring;
  sendTime : jsstring;
  sendDays : jsstring;
  includeChildInSms : bool
}.

Record Child : Type := mkChild {
  child_id : jsstring;
  child_phoneNumber : option jsstring;
  canvasDomain : jsstring
}.

Record CanvasToken : Type := mkCanvasToken {
  token_childId : jsstring;
  encryptedToken : jsstring;
  encryptionIv : jsstring;
  authTag : jsstring;
  isValid : bool
}.

Record Course : Type := mkCourse {
  course_childId : jsstring;
  canvasCourseId : jsstring;
  courseName : jsstring;
  course_isActive : bool
}.

Record ParentChild : Type := mkParentChild {
  rel_parentId : jsstring;
  rel_childId : jsstring;
  rel_isActive : bool
}.

Inductive RecipientType : Type := RParent | RChild.

Inductive Status : Type := Pending | Sent | Failed | Delivered.

Record Message : Type := mkMessage {
  msg_childId : jsstring;
  msg_parentId : option jsstring;
  messageBody : jsstring;
  recipientPhone : jsstring;
  recipientType : RecipientType;
  twilioSid : option jsstring;
  status : Status;
  assignmentCount : Z;
  sentAt : Date
}.

(** The tables, each in the order the database returns its rows.
    [messages] is the Occurrence Store: [create] appends a row. *)
Record t : Type := mkDb {
  parents : list Parent;
  preferences : list Preference;
  children : list Child;
  relationships : list ParentChild;
  canvasTokens : list CanvasToken;
  courses : list Course;
  messages : list Message
}.

#[global] Instance RecipientType_eq_dec : EqDecision RecipientType.
Proof. solve_decision. Defined.

#[global] Instance Status_eq_dec : EqDecision Status.
Proof. solve_decision. Defined.

(** [prisma.parent.findUnique({ where: { id } })]. *)
Definition findParent (db : t) (id : jsstring) : option Parent :=
  List.find (fun p => Js.eqb (parent_id p) id) (parents db).

(** [prisma.child.findUnique({ where: { id } })]. *)
Definition findChild (db : t) (id : jsstring) : option Child :=
  List.find (fun c => Js.eqb (child_id c) id) (children db).

(** [prisma.preference.findUnique({ where: { parentId } })]. *)
Definition findPreference (db : t) (parentId : jsstring) : option Preference :=
  List.find (fun p => Js.eqb (pref_parentId p) parentId) (preferences db).

(** The [canvasToken] relation included with a child. *)
Definition findCanvasToken (db : t) (childId : jsstring) : option CanvasToken :=
  List.find (fun k => Js.eqb (token_childId k) childId) (canvasTokens db).

(** [prisma.course.findMany({ where: { childId, isActive: true } })]. *)
Definition findActiveCourses (db : t) (childId : jsstring) : list Course :=
  List.filter (fun c => Js.eqb (course_childId c) childId && course_isActive c)
              (courses db).

(** [prisma.parentChild.findMany({ where: { isActive: true } })]. *)
Definition findActiveRelationships (db : t) : list ParentChild :=
  List.filter rel_isActive (relationships db).

(** [prisma.message.create({ data })]. *)
Definition createMessage (m : Message) (db : t) : t :=
  {| parents := parents db; preferences := preferences db;
     children := children db; relationships := relationships db;
     canvasTokens := canvasTokens db;
     courses := courses db; messages := messages db ++ [m] |}.

(** [prisma.canvasToken.update({ where: { childId }, data: { isValid: false } })]. *)
Definition invalidateToken (childId : jsstring) (db : t) : t :=
  {| parents := parents db; preferences := preferences db;
     children := children db; relationships := relationships db;
     canvasTokens :=
       List.map (fun k =>
                   if Js.eqb (token_childId k) childId
                   then {| token_childId := token_childId k;
                           encryptedToken := encryptedToken k;
                           encryptionIv := encryptionIv k;
                           authTag := authTag k;
                           isValid := false |}
                   else k) (canvasTokens db);
     courses := courses db; messages := messages db |}.

End Db.

(* ===================================================================== *)
(** * types/canvas.types.ts                                               *)
(* ===================================================================== *)

Module CanvasTypes.

Inductive TodoType : Type := grading | submitting.

Definition TodoType_str (t : TodoType) : jsstring :=
  match t with
  | grading => lit "grading"
  | submitting => lit "submitting"
  end.

Record Assignment : Type := mkAssignment {
  assignment_id : Z;
  name : jsstring;
  due_at : option jsstring;
  assignment_course_id : Z
}.

(** Raw item of [/api/v1/users/self/todo]; the filter of
    [parseTodoItems] allows for a missing [assignment]. *)
Record CanvasTodoItem : Type := mkCanvasTodoItem {
  todo_type : TodoType;
  assignment : option Assignment;
  course_id : Z;
  context_type : jsstring
}.

Record ParsedTodoItem : Type := mkParsedTodoItem {
  type : jsstring;
  assignmentName : jsstring;
  dueAt : jsstring;
  dueDate : jsstring;
  courseId : jsstring
}.

End CanvasTypes.

Import CanvasTypes.

(* ===================================================================== *)
(** * services/formatting.service.ts                                      *)
(* ===================================================================== *)

Module FormattingService.

(** [getCourseMap]: the active courses of the child, written one by one
    into a plain object used as a map; the result holds the own
    properties of that object. *)
Definition getCourseMap (db : Db.t) (childId : jsstring) : gmap jsstring jsstring :=
  foldl (fun m c => obj_set (Db.canvasCourseId c) (Db.courseName c) m) ∅
        (Db.findActiveCourses db childId).

Definition formatDateYYYYMMDD (date : Date) : jsstring :=
  let year := getFullYear date in
  let month := padStart0 2 (of_Z (getMonth date + 1)) in
  let day := padStart0 2 (of_Z (getDate date)) in
  of_Z year ++ lit "-" ++ month ++ lit "-" ++ day.

(** [courseMap[todo.courseId] || `Course ${todo.courseId}`], as the
    text the template literal of the course line shows: an own property
    when the object has one, else what the object inherits under the
    key, which is truthy, else the fallback. *)
Definition courseNameOf (courseMap : gmap jsstring jsstring) (todo : ParsedTodoItem)
  : jsstring :=
  match courseMap !! courseId todo with
  | Some n => if truthy n then n else lit "Course " ++ courseId todo
  | None =>
      match inherited (courseId todo) with
      | Some text => text
      | None => lit "Course " ++ courseId todo
      end
  end.

(** The body of the [for ... of] loop: the block appended for one item. *)
Definition formatBlock (courseMap : gmap jsstring jsstring) (todo : ParsedTodoItem)
  : jsstring :=
  lit "Course: " ++ courseNameOf courseMap todo ++ nl
  ++ lit "Assignment: " ++ assignmentName todo ++ nl
  ++ lit "Type: " ++ type todo ++ nl
  ++ lit "Due: " ++ dueDate todo ++ nl
  ++ nl.

(** [formatMessage(childId, todos, currentDate?)].  [now] is what
    [new Date()] returns when [currentDate] is omitted; [db] is the
    database [getCourseMap] queries. *)
Definition formatMessage (db : Db.t) (now : Date)
           (childId : jsstring) (todos : list ParsedTodoItem)
           (currentDate : option Date) : jsstring :=
  let date := match currentDate with Some d => d | None => now end in
  let formattedDate := formatDateYYYYMMDD date in
  let message := lit "Assignments for " ++ formattedDate ++ lit ":" ++ nl ++ nl in
  match todos with
  | [] => message ++ lit "No assignments due." ++ nl
  | _ =>
      let courseMap := getCourseMap db childId in
      foldl (fun message todo => message ++ formatBlock courseMap todo) message todos
  end.

(** [formatPreview(message, maxLength = 160)]. *)
Definition formatPreview (message : jsstring) (maxLength : Z) : jsstring :=
  if str_length message <=? maxLength then message
  else substring message 0 (maxLength - 3) ++ lit "...".

(** [/[^\x00-\x7F]/.test(message)]. *)
Definition hasUnicode (message : jsstring) : bool :=
  existsb (fun c => (127 <? c)%N) message.

(** [countSmsSegments(message)]. *)
Definition countSmsSegments (message : jsstring) : Z :=
  let segmentLength := if hasUnicode message then 70 else 160 in
  if str_length message <=? segmentLength then 1
  else
    let multiPartSegmentLength := if hasUnicode message then 67 else 153 in
    ceil_div (str_length message) multiPartSegmentLength.

Record Validation : Type := mkValidation {
  valid : bool;
  segments : Z;
  errors : list jsstring
}.

(** [validateMessage(message, maxSegments = 5)]. *)
Definition validateMessage (message : jsstring) (maxSegments : Z) : Validation :=
  let segments := countSmsSegments message in
  let errors := [] in
  let errors :=
    if str_length (trim message) =? 0
    then errors ++ [lit "Message cannot be empty"] else errors in
  let errors :=
    if maxSegments <? segments
    then errors ++ [lit "Message exceeds maximum of " ++ of_Z maxSegments
                    ++ lit " SMS segments (currently " ++ of_Z segments ++ lit ")"]
    else errors in
  {| valid := Nat.eqb (length errors) 0; segments := segments; errors := errors |}.

End FormattingService.

Import FormattingService.

(* ===================================================================== *)
(** * Errors, the outside world and the effect monad                      *)
(* ===================================================================== *)

(** A thrown [Error], by its message. *)
Definition Error : Type := jsstring.

(** What [axios.get] gives: the response data, or an axios error with
    its message and, when the server answered, the response status. *)
Inductive AxiosOutcome (A : Type) : Type :=
| AxiosOk (data : A)
| AxiosError (responseStatus : option Z) (message : jsstring).
Arguments AxiosOk {A} data.
Arguments AxiosError {A} responseStatus message.

(** Everything outside the process that one run of a job observes. *)
Record World : Type := mkWorld {
  (** [new Date()] *)
  now : Date;
  (** [new Date(s).getTime()]; [None] is [NaN] *)
  getTime : jsstring -> option Z;
  (** [encryptionService.decrypt(encrypted, iv, authTag)]; [None] when it throws *)
  decrypt : jsstring -> jsstring -> jsstring -> option jsstring;
  (** [axios.get(url, { headers: { Authorization: `Bearer ${token}` } })] *)
  canvasGet : jsstring -> jsstring -> AxiosOutcome (list CanvasTodoItem);
  (** [initializeTwilioClient()]: throws, or leaves the client and the
      sender number set or not *)
  twilioInit : Error + bool;
  (** [twilioClient.messages.create({ body, from, to })], by recipient and
      body: throws, or returns a message whose [sid] may be missing *)
  twilioCreate : jsstring -> jsstring -> Error + option jsstring
}.

(** Computations that read and write the database and may throw. *)
Definition M (A : Type) : Type := Db.t -> (Error + A) * Db.t.

Definition ret {A} (a : A) : M A := fun db => (inr a, db).

Definition throw {A} (e : Error) : M A := fun db => (inl e, db).

Definition bind {A B} (m : M A) (k : A -> M B) : M B :=
  fun db =>
    match m db with
    | (inr a, db') => k a db'
    | (inl e, db') => (inl e, db')
    end.

(** [try { body } catch (error) { handler(error) }]. *)
Definition try_catch {A} (body : M A) (handler : Error -> M A) : M A :=
  fun db =>
    match body db with
    | (inr a, db') => (inr a, db')
    | (inl e, db') => handler e db'
    end.

Definition gets {A} (f : Db.t -> A) : M A := fun db => (inr (f db), db).

Definition modify (f : Db.t -> Db.t) : M unit := fun db => (inr tt, f db).

#[global] Instance M_ret : MRet M := @ret.
#[global] Instance M_bind : MBind M := fun A B k m => bind m k.

(* ===================================================================== *)
(** * services/canvas.service.ts                                          *)
(* ===================================================================== *)

Module CanvasService.

(** [formatDueDate]: the text before the first [T]. *)
Definition formatDueDate (isoDateString : jsstring) : jsstring :=
  if negb (truthy isoDateString) then []
  else match split 84%N isoDateString with
       | d :: _ => d
       | [] => []
       end.

Definition due_at_or_empty (a : Assignment) : jsstring :=
  match due_at a with Some d => d | None => [] end.

(** [parseTodoItems]: only items with an assignment and a due date. *)
Definition parseTodoItems (items : list CanvasTodoItem) : list ParsedTodoItem :=
  omap (fun item =>
          match assignment item with
          | Some a =>
              if truthy_opt (due_at a)
              then Some {| type := TodoType_str (todo_type item);
                           assignmentName := name a;
                           dueAt := due_at_or_empty a;
                           dueDate := formatDueDate (due_at_or_empty a);
                           courseId := of_Z (assignment_course_id a) |}
              else None
          | None => None
          end) items.

(** The comparator of [sortByDueDate]:
    [new Date(a.dueAt).getTime() - new Date(b.dueAt).getTime()]. *)
Definition compareDue (getTime : jsstring -> option Z) (a b : ParsedTodoItem)
  : option Z :=
  match getTime (dueAt a), getTime (dueAt b) with
  | Some dateA, Some dateB => Some (dateA - dateB)
  | _, _ => None
  end.

(** [sortByDueDate(items)]. *)
Definition sortByDueDate (getTime : jsstring -> option Z)
           (items : list ParsedTodoItem) : list ParsedTodoItem :=
  Js.sort (compareDue getTime) items.

(** [markTokenInvalid(childId)]. *)
Definition markTokenInvalid (childId : jsstring) : M unit :=
  modify (Db.invalidateToken childId).

(** [fetchTodoItems(childId)]. *)
Definition fetchTodoItems (w : World) (childId : jsstring) : M (list ParsedTodoItem) :=
  child ← gets (fun db => Db.findChild db childId);
  match child with
  | None => throw (lit "Child not found")
  | Some child =>
      canvasToken ← gets (fun db => Db.findCanvasToken db childId);
      match canvasToken with
      | None => throw (lit "Canvas token not found for child")
      | Some tok =>
          match decrypt w (Db.encryptedToken tok) (Db.encryptionIv tok)
                        (Db.authTag tok) with
          | None =>
              throw (lit "Failed to decrypt data - data may be corrupted or tampered with")
          | Some token =>
              let apiUrl := lit "https://" ++ Db.canvasDomain child
                            ++ lit "/api/v1/users/self/todo" in
              match canvasGet w apiUrl token with
              | AxiosOk data =>
                  let parsed := parseTodoItems data in
                  let sorted := sortByDueDate (getTime w) parsed in
                  ret sorted
              | AxiosError responseStatus message =>
                  if bool_decide (responseStatus = Some 401)
                  then markTokenInvalid childId;;
                       throw (lit "Canvas token is invalid or expired")
                  else throw (lit "Canvas API error: " ++ message)
              end
          end
      end
  end.

End CanvasService.

(* ===================================================================== *)
(** * services/twilio.service.ts                                          *)
(* ===================================================================== *)

Module TwilioService.

Definition is_digit (c : N) : bool := ((48 <=? c) && (c <=? 57))%N.

(** [/^\+[1-9]\d{1,14}$/.test(phoneNumber)]. *)
Definition validatePhoneNumber (phoneNumber : jsstring) : bool :=
  match phoneNumber with
  | plus :: d :: rest =>
      (plus =? 43)%N && ((49 <=? d) && (d <=? 57))%N
      && forallb is_digit rest
      && (1 <=? length rest)%nat && (length rest <=? 14)%nat
  | _ => false
  end.

(** [sendSms(toPhoneNumber, messageBody)]: every failure inside is
    re-thrown as [Failed to send SMS: ...]. *)
Definition sendSms (w : World) (toPhoneNumber messageBody : jsstring) : M jsstring :=
  try_catch
    (match twilioInit w with
     | inl e => throw e
     | inr initialized =>
         if negb initialized
         then throw (lit "Twilio client not properly initialized")
         else if negb (validatePhoneNumber toPhoneNumber)
         then throw (lit "Invalid phone number format (must be E.164: +1234567890)")
         else match twilioCreate w toPhoneNumber messageBody with
              | inl e => throw e
              | inr sid =>
                  if truthy_opt sid
                  then ret (default [] sid)
                  else throw (lit "Failed to send SMS")
              end
     end)
    (fun error => throw (lit "Failed to send SMS: " ++ error)).

End TwilioService.

(* ===================================================================== *)
(** * services/message.service.ts                                         *)
(* ===================================================================== *)

Module MessageService.

Record LogMessageParams : Type := mkLogMessageParams {
  p_childId : jsstring;
  p_parentId : option jsstring;
  p_messageBody : jsstring;
  p_recipientPhone : jsstring;
  p_recipientType : Db.RecipientType;
  p_twilioSid : option jsstring;
  p_status : Db.Status;
  p_assignmentCount : option Z
}.

(** [logMessage(params)]: one new row, stamped with [new Date()]. *)
Definition logMessage (w : World) (params : LogMessageParams) : M unit :=
  modify (Db.createMessage
            {| Db.msg_childId := p_childId params;
               Db.msg_parentId :=
                 if truthy_opt (p_parentId params) then p_parentId params else None;
               Db.messageBody := p_messageBody params;
               Db.recipientPhone := p_recipientPhone params;
               Db.recipientType := p_recipientType params;
               Db.twilioSid := p_twilioSid params;
               Db.status := p_status params;
               Db.assignmentCount :=
                 match p_assignmentCount params with
                 | Some n => n
                 | None => 0
                 end;
               Db.sentAt := now w |}).

End MessageService.

(* ===================================================================== *)
(** * services/scheduler.service.ts and the Bull queue                    *)
(* ===================================================================== *)

Module SchedulerService.

Record SendSmsJobData : Type := mkJobData {
  parentId : jsstring;
  childId : jsstring
}.

Record RepeatOptions : Type := mkRepeat {
  cron : jsstring;
  tz : jsstring
}.

Record JobOptions : Type := mkJobOptions {
  opt_repeat : option RepeatOptions;
  opt_jobId : option jsstring;
  opt_priority : option Z
}.

Record Job : Type := mkJob {
  job_id : jsstring;
  job_name : jsstring;
  job_data : SendSmsJobData;
  job_opts : JobOptions
}.

(** The [daily-sms] queue as Bull keeps it: the jobs it holds, each
    under its id, in the order they were added; the set of repeat keys,
    one for every repeatable job, each with the instant of its next run;
    and the counter behind the job ids. *)
Record Queue : Type := mkQueue {
  jobs : list Job;
  repeatKeys : list (jsstring * Z);
  nextId : Z
}.

(** What Bull computes with libraries of its own: the MD5 digest of a
    text, and the next instant at which a cron expression fires in a
    time zone after a given instant.  The cron parser throws on an
    expression it cannot read; an expression that never fires again has
    no next instant. *)
Record Bull : Type := mkBull {
  md5 : jsstring -> jsstring;
  getNextMillis : Z -> RepeatOptions -> Error + option Z
}.

(** [defaultJobOptions]. *)
Definition attempts : nat := 3.
Definition backoff_delay : Z := 60000.

(** [queue.getJob(jobId)]: the job held under that id. *)
Definition getJob (q : Queue) (jobId : jsstring) : option Job :=
  List.find (fun j => Js.eqb (job_id j) jobId) (jobs q).

(** [job.remove()]: the queue no longer holds a job of that id. *)
Definition remove (job : Job) (q : Queue) : Queue :=
  {| jobs := List.filter (fun j => negb (Js.eqb (job_id j) (job_id job))) (jobs q);
     repeatKeys := repeatKeys q;
     nextId := nextId q |}.

(** [Job.create]: the counter moves on; a job without an id of its own
    is held under the counter; under an id the queue already holds,
    nothing is added. *)
Definition createJob (q : Queue) (name : jsstring) (data : SendSmsJobData)
           (opts : JobOptions) : Queue :=
  let counter := nextId q + 1 in
  match opt_jobId opts with
  | Some id =>
      match getJob q id with
      | Some _ => {| jobs := jobs q; repeatKeys := repeatKeys q; nextId := counter |}
      | None => {| jobs := jobs q ++ [mkJob id name data opts];
                   repeatKeys := repeatKeys q; nextId := counter |}
      end
  | None =>
      {| jobs := jobs q ++ [mkJob (of_Z counter) name data opts];
         repeatKeys := repeatKeys q; nextId := counter |}
  end.

(** [ZADD] on the set of repeat keys: a key already there gets the new
    instant. *)
Definition zadd (key : jsstring) (score : Z) (z : list (jsstring * Z))
  : list (jsstring * Z) :=
  if existsb (fun e => Js.eqb (fst e) key) z
  then List.map (fun e => if Js.eqb (fst e) key then (key, score) else e) z
  else z ++ [(key, score)].

(** [getRepeatKey(name, repeat, jobId)] for a repeat without end date. *)
Definition getRepeatKey (name : jsstring) (repeat : RepeatOptions) (jobId : jsstring)
  : jsstring :=
  let endDate := lit ":" in
  let tz := if truthy (tz repeat) then tz repeat ++ lit ":" else lit ":" in
  let suffix := if truthy (cron repeat) then tz ++ cron repeat else lit "undefined" in
  name ++ lit ":" ++ jobId ++ endDate ++ suffix.

(** [getRepeatJobId(name, jobId, nextMillis, namespace)]. *)
Definition getRepeatJobId (b : Bull) (name jobId : jsstring) (nextMillis : Z)
           (namespace : jsstring) : jsstring :=
  lit "repeat:" ++ md5 b (name ++ jobId ++ namespace) ++ lit ":" ++ of_Z nextMillis.

(** [queue.add(name, data, opts)] at the instant [now].  Without
    [repeat] the job is created as given.  With [repeat] Bull files a
    repeatable job: the repeat key, built from the name, [opts.jobId],
    the time zone and the cron expression, enters the set of repeat
    keys with the next instant, and the job of that run is created
    under an id of its own, [repeat:<md5>:<instant>]; no job is held
    under [opts.jobId] itself. *)
Definition add (b : Bull) (now : Z) (q : Queue) (name : jsstring)
           (data : SendSmsJobData) (opts : JobOptions) : Error + Queue :=
  match opt_repeat opts with
  | None => inr (createJob q name data opts)
  | Some repeat =>
      match getNextMillis b now repeat with
      | inl e => inl e
      | inr None => inr q
      | inr (Some nextMillis) =>
          if nextMillis =? 0 then inr q
          else
            let jobId := match opt_jobId opts with
                         | Some id => if truthy id then id ++ lit ":" else lit ":"
                         | None => lit ":"
                         end in
            let repeatKey := getRepeatKey name repeat jobId in
            let q := {| jobs := jobs q;
                        repeatKeys := zadd repeatKey nextMillis (repeatKeys q);
                        nextId := nextId q |} in
            let customId := getRepeatJobId b name jobId nextMillis (md5 b repeatKey) in
            inr (createJob q name data
                   {| opt_repeat := Some repeat;
                      opt_jobId := Some customId;
                      opt_priority := opt_priority opts |})
      end
  end.

(** A value of [dayMap[d]]: a number of the table, or what the object
    literal inherits under the key. *)
Inductive DayValue : Type :=
| DayNumber (n : Z)
| DayInherited (text : jsstring).

#[global] Instance DayValue_eq_dec : EqDecision DayValue.
Proof. solve_decision. Defined.

(** [dayMap[d]]; [None] is [undefined]. *)
Definition dayMap (d : jsstring) : option DayValue :=
  if Js.eqb d (lit "Sun") then Some (DayNumber 0)
  else if Js.eqb d (lit "Mon") then Some (DayNumber 1)
  else if Js.eqb d (lit "Tue") then Some (DayNumber 2)
  else if Js.eqb d (lit "Wed") then Some (DayNumber 3)
  else if Js.eqb d (lit "Thu") then Some (DayNumber 4)
  else if Js.eqb d (lit "Fri") then Some (DayNumber 5)
  else if Js.eqb d (lit "Sat") then Some (DayNumber 6)
  else DayInherited <$> inherited d.

(** An element of [days] as [join] shows it. *)
Definition dayText (d : option DayValue) : jsstring :=
  match d with
  | Some (DayNumber n) => of_Z n
  | Some (DayInherited text) => text
  | None => []
  end.

(** A value interpolated into a template literal or joined: a string,
    or [undefined]. *)
Definition template (o : option jsstring) : jsstring :=
  match o with Some s => s | None => lit "undefined" end.

(** [buildCronExpression(sendTime, sendDays, timezone)]. *)
Definition buildCronExpression (sendTime sendDays timezone : jsstring) : jsstring :=
  let parts := split 58%N sendTime in
  let hours := parts !! 0%nat in
  let minutes := parts !! 1%nat in
  let days := List.map (fun d => dayMap (trim d)) (split 44%N sendDays) in
  let dayRange :=
    if Nat.eqb (length days) 5
       && forallb (fun b : bool => b)
            (imap (fun i d => bool_decide (d = Some (DayNumber (Z.of_nat i + 1)))) days)
    then lit "1-5"
    else join (lit ",") (List.map dayText days)
  in
  template minutes ++ lit " " ++ template hours ++ lit " * * " ++ dayRange.

(** The job id of a pair: [`sms-${parentId}-${childId}`]. *)
Definition jobIdOf (parentId childId : jsstring) : jsstring :=
  lit "sms-" ++ parentId ++ lit "-" ++ childId.

(** [scheduleDailySmsForPair(parentId, childId)], run at the instant
    [now]. *)
Definition scheduleDailySmsForPair (b : Bull) (now : Z) (db : Db.t)
           (parentId childId : jsstring) (q : Queue) : Error + Queue :=
  match Db.findParent db parentId, Db.findPreference db parentId with
  | Some parent, Some prefs =>
      let cronExpression :=
        buildCronExpression (Db.sendTime prefs) (Db.sendDays prefs)
                            (Db.timezone parent) in
      let jobId := jobIdOf parentId childId in
      let q := match getJob q jobId with
               | Some existingJob => remove existingJob q
               | None => q
               end in
      add b now q (lit "send-sms") (mkJobData parentId childId)
          {| opt_repeat := Some {| cron := cronExpression;
                                   tz := Db.timezone parent |};
             opt_jobId := Some jobId;
             opt_priority := None |}
  | _, _ => inl (lit "Parent or preferences not found")
  end.

(** [cancelDailySmsForPair(parentId, childId)]. *)
Definition cancelDailySmsForPair (parentId childId : jsstring) (q : Queue) : Queue :=
  match getJob q (jobIdOf parentId childId) with
  | Some job => remove job q
  | None => q
  end.

(** The loop of [scheduleAllDailySms]: a pair that fails to schedule
    is logged and skipped.  [clock i] is the instant at which the pair
    of index [i] is scheduled. *)
Fixpoint scheduleEach (b : Bull) (clock : nat -> Z) (db : Db.t) (i : nat)
         (relationships : list Db.ParentChild) (q : Queue) : Queue :=
  match relationships with
  | [] => q
  | rel :: rest =>
      let q' := match scheduleDailySmsForPair b (clock i) db (Db.rel_parentId rel)
                                              (Db.rel_childId rel) q with
                | inr q' => q'
                | inl _ => q
                end in
      scheduleEach b clock db (S i) rest q'
  end.

(** [scheduleAllDailySms()]. *)
Definition scheduleAllDailySms (b : Bull) (clock : nat -> Z) (db : Db.t) (q : Queue)
  : Queue :=
  scheduleEach b clock db 0 (Db.findActiveRelationships db) q.

(** [triggerManualSms(parentId, childId)]: an [add] without [repeat],
    which creates the job as given and needs neither the clock nor a
    digest. *)
Definition triggerManualSms (parentId childId : jsstring) (q : Queue) : Queue :=
  createJob q (lit "send-sms") (mkJobData parentId childId)
            {| opt_repeat := None; opt_jobId := None; opt_priority := Some 1 |}.

(** The installed triggers of a pair: the repeat jobs the queue holds
    that run the processor for the pair. *)
Definition triggersOf (q : Queue) (parent child : jsstring) : list Job :=
  List.filter (fun j => bool_decide (is_Some (opt_repeat (job_opts j)))
                        && Js.eqb (parentId (job_data j)) parent
                        && Js.eqb (childId (job_data j)) child)
              (jobs q).

End SchedulerService.

Import SchedulerService.

(* ===================================================================== *)
(** * worker.ts                                                           *)
(* ===================================================================== *)

Module Worker.

Import MessageService.

Record JobResult : Type := mkJobResult {
  success : bool;
  res_assignmentCount : Z;
  messageLength : Z;
  smsSegments : Z
}.

(** [parent?.phoneNumber]. *)
Definition phoneNumberOf (parent : option Db.Parent) : option jsstring :=
  match parent with
  | Some parent => Db.parent_phoneNumber parent
  | None => None
  end.

(** The [catch] block of [processSmsJob]: a [failed] row for the
    parent, when the parent has a phone number, then the error again. *)
Definition logFailure (w : World) (job : SendSmsJobData) (error : Error)
  : M JobResult :=
  parent ← gets (fun db => Db.findParent db (parentId job));
  (match phoneNumberOf parent with
   | Some phone =>
       if truthy phone
       then logMessage w
              {| p_childId := childId job;
                 p_parentId := Some (parentId job);
                 p_messageBody := [];
                 p_recipientPhone := phone;
                 p_recipientType := Db.RParent;
                 p_twilioSid := None;
                 p_status := Db.Failed;
                 p_assignmentCount := None |}
       else ret tt
   | None => ret tt
   end);;
  throw error.

(** Steps 4 and 5 of [processSmsJob]: send to one recipient and log
    the message as [sent]. *)
Definition sendAndLog (w : World) (job : SendSmsJobData) (message : jsstring)
           (todoCount : Z) (phone : jsstring) (who : Db.RecipientType) : M unit :=
  sid ← TwilioService.sendSms w phone message;
  logMessage w
    {| p_childId := childId job;
       p_parentId := Some (parentId job);
       p_messageBody := message;
       p_recipientPhone := phone;
       p_recipientType := who;
       p_twilioSid := Some sid;
       p_status := Db.Sent;
       p_assignmentCount := Some todoCount |}.

(** The [try] block of [processSmsJob]. *)
Definition processSmsJob_body (w : World) (job : SendSmsJobData) : M JobResult :=
  todos ← CanvasService.fetchTodoItems w (childId job);
  message ← gets (fun db =>
                    formatMessage db (now w) (childId job) todos (Some (now w)));
  let validation := validateMessage message 5 in
  if negb (valid validation)
  then throw (lit "Invalid message: " ++ join (lit ", ") (errors validation))
  else
    parent ← gets (fun db => Db.findParent db (parentId job));
    child ← gets (fun db => Db.findChild db (childId job));
    preferences ← gets (fun db => Db.findPreference db (parentId job));
    match parent, child with
    | Some parent, Some child =>
        (match Db.parent_phoneNumber parent with
         | Some phone =>
             if truthy phone
             then sendAndLog w job message (Z.of_nat (length todos)) phone Db.RParent
             else ret tt
         | None => ret tt
         end);;
        (match Db.child_phoneNumber child with
         | Some phone =>
             if truthy phone
                && default false (Db.includeChildInSms <$> preferences)
             then sendAndLog w job message (Z.of_nat (length todos)) phone Db.RChild
             else ret tt
         | None => ret tt
         end);;
        ret {| success := true;
               res_assignmentCount := Z.of_nat (length todos);
               messageLength := str_length message;
               smsSegments := segments validation |}
    | _, _ => throw (lit "Parent or child not found")
    end.

(** [processSmsJob(job)]. *)
Definition processSmsJob (w : World) (job : SendSmsJobData) : M JobResult :=
  try_catch (processSmsJob_body w job) (logFailure w job).

(** How the queue runs one firing: the processor is called again after
    it throws, until it returns or the job has been attempted
    [remaining] times in all; [world i] is the outside world at attempt
    [i].  The delay between attempts is not modelled. *)
Fixpoint runAttempts (remaining : nat) (attemptsMade : nat)
         (world : nat -> World) (job : SendSmsJobData) : M JobResult :=
  match remaining with
  | O => throw (lit "job has no attempts")
  | S O => processSmsJob (world attemptsMade) job
  | S remaining' =>
      try_catch (processSmsJob (world attemptsMade) job)
                (fun _ => runAttempts remaining' (S attemptsMade) world job)
  end.

(** One firing under [defaultJobOptions]: at most three attempts. *)
Definition runFiring (world : nat -> World) (job : SendSmsJobData) : M JobResult :=
  runAttempts SchedulerService.attempts 0 world job.

(** The recipients a firing resolves: the parent, when it has a phone
    number, and the child, when it has one and the parent opted in. *)
Definition recipients (db : Db.t) (job : SendSmsJobData)
  : list (jsstring * Db.RecipientType) :=
  match Db.findParent db (parentId job), Db.findChild db (childId job) with
  | Some parent, Some child =>
      (match Db.parent_phoneNumber parent with
       | Some phone => if truthy phone then [(phone, Db.RParent)] else []
       | None => []
       end)
      ++
      (match Db.child_phoneNumber child with
       | Some phone =>
           if truthy phone
              && default false (Db.includeChildInSms <$> Db.findPreference db (parentId job))
           then [(phone, Db.RChild)] else []
       | None => []
       end)
  | _, _ => []
  end.

(** The rows of the Occurrence Store with a given status for a given
    recipient. *)
Definition recordsFor (st : Db.Status) (r : jsstring * Db.RecipientType)
           (ms : list Db.Message) : list Db.Message :=
  List.filter (fun m => bool_decide (Db.status m = st)
                        && Js.eqb (Db.recipientPhone m) (fst r)
                        && bool_decide (Db.recipientType m = snd r)) ms.

(** The rows of the Occurrence Store with a given status. *)
Definition recordsWith (st : Db.Status) (ms : list Db.Message) : list Db.Message :=
  List.filter (fun m => bool_decide (Db.status m = st)) ms.

End Worker.

(* ===================================================================== *)
(** * services/twilio.service.ts: sending to several recipients           *)
(* ===================================================================== *)

Module TwilioBulk.

Record BulkResult : Type := mkBulkResult {
  bulk_phone : jsstring;
  bulk_sid : option jsstring;
  bulk_success : bool
}.

(** The body of the loop of [sendBulkSms]: one send, its failure caught. *)
Definition sendOne (w : World) (messageBody phoneNumber : jsstring) : M BulkResult :=
  try_catch
    (sid ← TwilioService.sendSms w phoneNumber messageBody;
     ret (mkBulkResult phoneNumber (Some sid) true))
    (fun _ => ret (mkBulkResult phoneNumber None false)).

(** The loop of [sendBulkSms], with the results pushed so far. *)
Fixpoint sendBulkSms_from (w : World) (results : list BulkResult)
         (phoneNumbers : list jsstring) (messageBody : jsstring)
  : M (list BulkResult) :=
  match phoneNumbers with
  | [] => ret results
  | phoneNumber :: rest =>
      r ← sendOne w messageBody phoneNumber;
      sendBulkSms_from w (results ++ [r]) rest messageBody
  end.

(** [sendBulkSms(phoneNumbers, messageBody)]. *)
Definition sendBulkSms (w : World) (phoneNumbers : list jsstring)
           (messageBody : jsstring) : M (list BulkResult) :=
  sendBulkSms_from w [] phoneNumbers messageBody.

End TwilioBulk.

(* ===================================================================== *)
(** * services/canvas.service.ts: courses and tokens                      *)
(* ===================================================================== *)

Module CanvasSync.

(** A course of [/api/v1/courses], with the fields the service reads. *)
Record CanvasCourse : Type := mkCanvasCourse {
  cc_id : Z;
  cc_name : jsstring
}.

Definition sameCourse (childId canvasCourseId : jsstring) (c : Db.Course) : bool :=
  Js.eqb (Db.course_childId c) childId && Js.eqb (Db.canvasCourseId c) canvasCourseId.

(** [prisma.course.upsert] on the key [childId_canvasCourseId]: the row
    of that key gets the name and becomes active, or a new active row is
    created. *)
Definition upsertCourse (childId canvasCourseId courseName : jsstring) (db : Db.t)
  : Db.t :=
  {| Db.parents := Db.parents db; Db.preferences := Db.preferences db;
     Db.children := Db.children db; Db.relationships := Db.relationships db;
     Db.canvasTokens := Db.canvasTokens db;
     Db.courses :=
       if existsb (sameCourse childId canvasCourseId) (Db.courses db)
       then List.map (fun c =>
                        if sameCourse childId canvasCourseId c
                        then {| Db.course_childId := Db.course_childId c;
                                Db.canvasCourseId := Db.canvasCourseId c;
                                Db.courseName := courseName;
                                Db.course_isActive := true |}
                        else c) (Db.courses db)
       else Db.courses db
            ++ [{| Db.course_childId := childId;
                   Db.canvasCourseId := canvasCourseId;
                   Db.courseName := courseName;
                   Db.course_isActive := true |}];
     Db.messages := Db.messages db |}.

(** The upsert loop of [syncCourses]. *)
Fixpoint upsertCourses (childId : jsstring) (data : list CanvasCourse) : M unit :=
  match data with
  | [] => ret tt
  | course :: rest =>
      modify (upsertCourse childId (of_Z (cc_id course)) (cc_name course));;
      upsertCourses childId rest
  end.

(** [syncCourses(childId)].  [coursesGet] is the [axios.get] of the
    course listing, by URL and token; an error it throws is thrown on. *)
Definition syncCourses (w : World)
           (coursesGet : jsstring -> jsstring -> AxiosOutcome (list CanvasCourse))
           (childId : jsstring) : M unit :=
  child ← gets (fun db => Db.findChild db childId);
  canvasToken ← gets (fun db => Db.findCanvasToken db childId);
  match child, canvasToken with
  | Some child, Some tok =>
      match decrypt w (Db.encryptedToken tok) (Db.encryptionIv tok)
                    (Db.authTag tok) with
      | None =>
          throw (lit "Failed to decrypt data - data may be corrupted or tampered with")
      | Some token =>
          let apiUrl := lit "https://" ++ Db.canvasDomain child
                        ++ lit "/api/v1/courses" in
          match coursesGet apiUrl token with
          | AxiosOk data => upsertCourses childId data
          | AxiosError _ message => throw message
          end
      end
  | _, _ => throw (lit "Child or Canvas token not found")
  end.

(** [prisma.canvasToken.upsert] on [childId]. *)
Definition upsertToken (childId encrypted iv tag : jsstring) (db : Db.t) : Db.t :=
  {| Db.parents := Db.parents db; Db.preferences := Db.preferences db;
     Db.children := Db.children db; Db.relationships := Db.relationships db;
     Db.canvasTokens :=
       if existsb (fun k => Js.eqb (Db.token_childId k) childId) (Db.canvasTokens db)
       then List.map (fun k =>
                        if Js.eqb (Db.token_childId k) childId
                        then {| Db.token_childId := Db.token_childId k;
                                Db.encryptedToken := encrypted;
                                Db.encryptionIv := iv;
                                Db.authTag := tag;
                                Db.isValid := true |}
                        else k) (Db.canvasTokens db)
       else Db.canvasTokens db
            ++ [{| Db.token_childId := childId;
                   Db.encryptedToken := encrypted;
                   Db.encryptionIv := iv;
                   Db.authTag := tag;
                   Db.isValid := true |}];
     Db.courses := Db.courses db; Db.messages := Db.messages db |}.

(** [storeToken(childId, token)].  [encrypted] is what
    [encryptionService.encrypt(token)] returns, ciphertext, IV and tag,
    or [None] when it throws. *)
Definition storeToken (encrypted : option (jsstring * jsstring * jsstring))
           (childId : jsstring) : M unit :=
  match encrypted with
  | Some (e, iv, tag) => modify (upsertToken childId e iv tag)
  | None => throw (lit "Failed to encrypt data")
  end.

End CanvasSync.

(* ===================================================================== *)
(** * routes/children.routes.ts                                           *)
(* ===================================================================== *)

Module ChildrenRoutes.

(** [prisma.parentChild.findFirst({ where: { parentId, childId, isActive: true } })]. *)
Definition findRelationship (db : Db.t) (parentId childId : jsstring)
  : option Db.ParentChild :=
  List.find (fun r => Js.eqb (Db.rel_parentId r) parentId
                      && Js.eqb (Db.rel_childId r) childId
                      && Db.rel_isActive r) (Db.relationships db).

(** The JSON body of a response of the preview route. *)
Inductive PreviewBody : Type :=
| PreviewData (assignmentCount : Z) (message : jsstring)
              (assignments : list ParsedTodoItem)
| PreviewError (error : jsstring).

(** The handler of [GET /children/:childId/preview], for the parent of
    the verified token: the status and the body it answers with. *)
Definition preview (w : World) (parentId childId : jsstring) (db : Db.t)
  : (Z * PreviewBody) * Db.t :=
  match findRelationship db parentId childId with
  | None => ((403, PreviewError (lit "Access denied")), db)
  | Some _ =>
      match CanvasService.fetchTodoItems w childId db with
      | (inr todos, db') =>
          let message := formatMessage db' (now w) childId todos None in
          ((200, PreviewData (Z.of_nat (length todos)) message todos), db')
      | (inl error, db') =>
          ((400, PreviewError (if truthy error then error
                               else lit "Failed to preview message")), db')
      end
  end.

(** The database write of [DELETE /children/:childId]:
    [prisma.parentChild.updateMany({ where: { parentId, childId },
    data: { isActive: false } })].  The handler does nothing else before
    it answers. *)
Definition removeChild (parentId childId : jsstring) (db : Db.t) : Db.t :=
  {| Db.parents := Db.parents db; Db.preferences := Db.preferences db;
     Db.children := Db.children db;
     Db.relationships :=
       List.map (fun r =>
                   if Js.eqb (Db.rel_parentId r) parentId
                      && Js.eqb (Db.rel_childId r) childId
                   then {| Db.rel_parentId := Db.rel_parentId r;
                           Db.rel_childId := Db.rel_childId r;
                           Db.rel_isActive := false |}
                   else r) (Db.relationships db);
     Db.canvasTokens := Db.canvasTokens db;
     Db.courses := Db.courses db; Db.messages := Db.messages db |}.

End ChildrenRoutes.

(* ===================================================================== *)
(** * sms-canvas-todo-list.sh, the script the services port               *)
(* ===================================================================== *)

Module Script.

(** A line of [parsed_data]: the six tab-separated fields that [jq]
    prints for an item. *)
Record Line : Type := mkLine {
  f_type : jsstring;
  f_name : jsstring;
  f_due_at : jsstring;
  f_assignment_course_id : jsstring;
  f_context_type : jsstring;
  f_course_id : jsstring
}.

Definition text (l : Line) : jsstring :=
  join [9%N] [f_type l; f_name l; f_due_at l; f_assignment_course_id l;
              f_context_type l; f_course_id l].

(** Three-way comparison of two strings, byte by byte. *)
Definition compareStr (a b : jsstring) : Z :=
  if Js.ltb a b then -1 else if Js.ltb b a then 1 else 0.

(** The order of [sort -t$'\t' -k3,3 -k2,2]: the due date (field 3),
    then the assignment name (field 2), then, as the last resort of
    [sort], the whole line. *)
Definition compareLines (a b : Line) : option Z :=
  let byDue := compareStr (f_due_at a) (f_due_at b) in
  let byName := compareStr (f_name a) (f_name b) in
  Some (if negb (byDue =? 0) then byDue
        else if negb (byName =? 0) then byName
        else compareStr (text a) (text b)).

(** Line 41 of the script. *)
Definition sortLines (parsed_data : list Line) : list Line :=
  Js.sort compareLines parsed_data.

End Script.

(* ===================================================================== *)
(** * Concrete data used by the examples                                  *)
(* ===================================================================== *)

Module Fixtures.

(** Two decimal digits at the head of a string. *)
Definition digit (c : N) : option Z :=
  if TwilioService.is_digit c then Some (Z.of_N c - 48) else None.

Fixpoint digits (n : nat) (s : jsstring) : option (Z * jsstring) :=
  match n with
  | O => Some (0, s)
  | S n' =>
      match s with
      | c :: s' =>
          d ← digit c;
          '(v, rest) ← digits n' s';
          Some (d * 10 ^ Z.of_nat n' + v, rest)
      | [] => None
      end
  end.

Definition expect (c : N) (s : jsstring) : option jsstring :=
  match s with
  | c' :: s' => if (c =? c')%N then Some s' else None
  | [] => None
  end.

(** Days from 1970-01-01 to a date of the proleptic Gregorian calendar. *)
Definition daysFromCivil (y m d : Z) : Z :=
  let y' := if m <=? 2 then y - 1 else y in
  let era := y' / 400 in
  let yoe := y' - era * 400 in
  let mp := if 2 <? m then m - 3 else m + 9 in
  let doy := (153 * mp + 2) / 5 + d - 1 in
  let doe := yoe * 365 + yoe / 4 - yoe / 100 + doy in
  era * 146097 + doe - 719468.

(** [new Date(s).getTime()] on the UTC timestamps Canvas sends,
    [YYYY-MM-DDTHH:mm:ssZ] or [YYYY-MM-DDTHH:mmZ]; other text is taken
    as an invalid date. *)
Definition isoTime (s : jsstring) : option Z :=
  '(y, s) ← digits 4 s;
  s ← expect 45%N s;
  '(m, s) ← digits 2 s;
  s ← expect 45%N s;
  '(d, s) ← digits 2 s;
  s ← expect 84%N s;
  '(hh, s) ← digits 2 s;
  s ← expect 58%N s;
  '(mm, s) ← digits 2 s;
  '(ss, s) ← match expect 58%N s with
             | Some s' => digits 2 s'
             | None => Some (0, s)
             end;
  s ← expect 90%N s;
  match s with
  | [] => Some ((((daysFromCivil y m d * 24 + hh) * 60 + mm) * 60 + ss) * 1000)
  | _ => None
  end.

Definition parentPhone : jsstring := lit "+15551230001".
Definition childPhone : jsstring := lit "+15551230002".
Definition badPhone : jsstring := lit "5551230002".

Definition theJob : SendSmsJobData := mkJobData (lit "p1") (lit "c1").

Definition english : Db.Course :=
  Db.mkCourse (lit "c1") (lit "101") (lit "English") true.

(** One parent who opted the child in, one child, its token and the
    given courses. *)
Definition familyOf (parentNumber childNumber : jsstring)
           (courses : list Db.Course) : Db.t :=
  {| Db.parents := [Db.mkParent (lit "p1") (Some parentNumber) (lit "America/Los_Angeles")];
     Db.preferences := [Db.mkPreference (lit "p1") (lit "15:00:00")
                                         (lit "Mon,Tue,Wed,Thu,Fri") true];
     Db.children := [Db.mkChild (lit "c1") (Some childNumber)
                                (lit "school.instructure.com")];
     Db.relationships := [Db.mkParentChild (lit "p1") (lit "c1") true];
     Db.canvasTokens := [Db.mkCanvasToken (lit "c1") (lit "00ff") (lit "0a") (lit "0b") true];
     Db.courses := courses;
     Db.messages := [] |}.

Definition family (childNumber : jsstring) (courses : list Db.Course) : Db.t :=
  familyOf parentPhone childNumber courses.

Definition essay : ParsedTodoItem :=
  {| type := lit "submitting";
     assignmentName := lit "Essay on Shakespeare";
     dueAt := lit "2026-02-25T23:59:00Z";
     dueDate := lit "2026-02-25";
     courseId := lit "101" |}.

Definition essayRaw : CanvasTodoItem :=
  {| todo_type := submitting;
     assignment := Some {| assignment_id := 7;
                           name := lit "Essay on Shakespeare";
                           due_at := Some (lit "2026-02-25T23:59:00Z");
                           assignment_course_id := 101 |};
     course_id := 101;
     context_type := lit "Course" |}.

Definition feb18 : Date := mkDate 2026 1 18.

(** A world in which Canvas answers and Twilio accepts every message. *)
Definition calm : World :=
  {| now := feb18;
     getTime := isoTime;
     decrypt := fun _ _ _ => Some (lit "canvas-token");
     canvasGet := fun _ _ => AxiosOk [essayRaw];
     twilioInit := inr true;
     twilioCreate := fun _ _ => inr (Some (lit "SM01")) |}.


(** Canvas throttling: status 429. *)
Definition throttled : World :=
  {| now := feb18;
     getTime := isoTime;
     decrypt := fun _ _ _ => Some (lit "canvas-token");
     canvasGet := fun _ _ =>
       AxiosError (Some 429) (lit "Request failed with status code 429");
     twilioInit := inr true;
     twilioCreate := fun _ _ => inr (Some (lit "SM01")) |}.


(** Items that are due at the same instant, [B] fetched before [A]. *)
Definition itemB : ParsedTodoItem :=
  {| type := lit "submitting"; assignmentName := lit "B";
     dueAt := lit "2026-02-18T23:59:00Z"; dueDate := lit "2026-02-18";
     courseId := lit "101" |}.

Definition itemA : ParsedTodoItem :=
  {| type := lit "submitting"; assignmentName := lit "A";
     dueAt := lit "2026-02-18T23:59:00Z"; dueDate := lit "2026-02-18";
     courseId := lit "101" |}.

Definition itemLate : ParsedTodoItem :=
  {| type := lit "submitting"; assignmentName := lit "B";
     dueAt := lit "2026-02-20T10:00Z"; dueDate := lit "2026-02-20";
     courseId := lit "101" |}.

(** The lines of the script for [itemB] and [itemA]. *)
Definition lineOf (item : ParsedTodoItem) : Script.Line :=
  {| Script.f_type := type item;
     Script.f_name := assignmentName item;
     Script.f_due_at := dueAt item;
     Script.f_assignment_course_id := courseId item;
     Script.f_context_type := lit "Course";
     Script.f_course_id := courseId item |}.

Definition emptyQueue : Queue := {| jobs := []; repeatKeys := []; nextId := 0 |}.

End Fixtures.

(* ===================================================================== *)
(** * Properties of the formatting service                                *)
(* ===================================================================== *)

Module FormattingProps.

Import Fixtures.

(** [q] is the least integer not below [a / b]. *)
Definition is_ceil (q a b : Z) : Prop := b * (q - 1) < a <= b * q.

Lemma ceil_div_is_ceil (a b : Z) : 0 < b -> is_ceil (ceil_div a b) a b.
Proof.
  intros Hb. unfold is_ceil, ceil_div.
  pose proof (Z.div_mod a b ltac:(lia)) as Hdm.
  pose proof (Z.mod_pos_bound a b Hb) as Hm.
  destruct (a mod b =? 0) eqn:E.
  - apply Z.eqb_eq in E. lia.
  - apply Z.eqb_neq in E. lia.
Qed.

Lemma hasUnicode_false (message : jsstring) :
  hasUnicode message = false <-> Forall (fun c => (c <= 127)%N) message.
Proof.
  unfold hasUnicode. induction message as [|c m IH]; simpl.
  - split; [constructor | reflexivity].
  - rewrite orb_false_iff, IH, Forall_cons, N.ltb_ge. reflexivity.
Qed.

Lemma hasUnicode_true (message : jsstring) :
  hasUnicode message = true <-> Exists (fun c => (127 < c)%N) message.
Proof.
  unfold hasUnicode. induction message as [|c m IH]; simpl.
  - split; [discriminate | intros H; inversion H].
  - rewrite orb_true_iff, IH, Exists_cons, N.ltb_lt. reflexivity.
Qed.

Lemma countSmsSegments_pos (message : jsstring) : 1 <= countSmsSegments message.
Proof.
  unfold countSmsSegments.
  destruct (hasUnicode message);
    match goal with |- context [?a <=? ?b] => destruct (Z.leb_spec a b) end;
    try lia.
  - pose proof (ceil_div_is_ceil (str_length message) 67 ltac:(lia)) as Hc.
    unfold is_ceil in Hc. lia.
  - pose proof (ceil_div_is_ceil (str_length message) 153 ltac:(lia)) as Hc.
    unfold is_ceil in Hc. lia.
Qed.

(** C8.  The segment count of a message of length [L]: when every code
    unit is ASCII it is 1 for [L <= 160] and [ceil(L/153)] above, and
    when some code unit is not ASCII it is 1 for [L <= 70] and
    [ceil(L/67)] above; an all-ASCII message of 320 characters takes 3
    segments and a 100-character message with a non-ASCII character
    takes 2. *)
Theorem countSmsSegments_spec (message : jsstring) :
  (Forall (fun c => (c <= 127)%N) message ->
     (str_length message <= 160 -> countSmsSegments message = 1)
     /\ (160 < str_length message ->
         is_ceil (countSmsSegments message) (str_length message) 153)
     /\ (str_length message = 320 -> countSmsSegments message = 3))
  /\ (Exists (fun c => (127 < c)%N) message ->
     (str_length message <= 70 -> countSmsSegments message = 1)
     /\ (70 < str_length message ->
         is_ceil (countSmsSegments message) (str_length message) 67)
     /\ (str_length message = 100 -> countSmsSegments message = 2)).
Proof.
  split.
  - intros Hascii. apply hasUnicode_false in Hascii.
    unfold countSmsSegments. rewrite Hascii. repeat split.
    + intros HL. apply Z.leb_le in HL. now rewrite HL.
    + destruct (Z.leb_spec (str_length message) 160); [lia|].
      apply ceil_div_is_ceil. lia.
    + destruct (Z.leb_spec (str_length message) 160); [lia|].
      apply ceil_div_is_ceil. lia.
    + intros HL. rewrite HL. reflexivity.
  - intros Huni. apply hasUnicode_true in Huni.
    unfold countSmsSegments. rewrite Huni. repeat split.
    + intros HL. apply Z.leb_le in HL. now rewrite HL.
    + destruct (Z.leb_spec (str_length message) 70); [lia|].
      apply ceil_div_is_ceil. lia.
    + destruct (Z.leb_spec (str_length message) 70); [lia|].
      apply ceil_div_is_ceil. lia.
    + intros HL. rewrite HL. reflexivity.
Qed.

(** The two bodies of the specification's example: 320 letters [A],
    and an [e] with acute accent followed by 99 letters [A]. *)
Lemma countSmsSegments_spec_witness :
  countSmsSegments (repeat 65%N 320) = 3
  /\ countSmsSegments (233%N :: repeat 65%N 99) = 2.
Proof.
  split.
  - apply (countSmsSegments_spec (repeat 65%N 320)).
    + apply hasUnicode_false. vm_compute. reflexivity.
    + vm_compute. reflexivity.
  - apply (countSmsSegments_spec (233%N :: repeat 65%N 99)).
    + apply Exists_cons_hd. lia.
    + vm_compute. reflexivity.
Defined.

Lemma substring_prefix (s : jsstring) (n : Z) :
  0 <= n <= str_length s -> substring s 0 n = take (Z.to_nat n) s.
Proof.
  intros Hn. unfold substring, clamp.
  replace (Z.max 0 (Z.min 0 (str_length s))) with 0 by lia.
  replace (Z.max 0 (Z.min n (str_length s))) with n by lia.
  replace (Z.min 0 n) with 0 by lia.
  replace (Z.max 0 n - 0) with n by lia.
  reflexivity.
Qed.

(** C9.  For a [maxLength] of at least 3, [formatPreview] returns a
    message of at most [maxLength] characters unchanged, and a longer
    one cut to its first [maxLength - 3] characters followed by three
    dots, [maxLength] characters in all. *)
Theorem formatPreview_spec (message : jsstring) (maxLength : Z) :
  3 <= maxLength ->
  (str_length message <= maxLength -> formatPreview message maxLength = message)
  /\ (maxLength < str_length message ->
      formatPreview message maxLength
      = take (Z.to_nat (maxLength - 3)) message ++ lit "..."
      /\ str_length (formatPreview message maxLength) = maxLength).
Proof.
  intros Hmax. unfold formatPreview. split.
  - intros HL. apply Z.leb_le in HL. now rewrite HL.
  - intros HL. destruct (Z.leb_spec (str_length message) maxLength); [lia|].
    rewrite substring_prefix by lia. split; [reflexivity|].
    unfold str_length in *. rewrite length_app, length_take. simpl. lia.
Qed.

(** A preview of ten characters, of a long and of a short message. *)
Lemma formatPreview_spec_witness :
  formatPreview (lit "Assignments for today") 10 = lit "Assignm..."
  /\ formatPreview (lit "Hi") 10 = lit "Hi".
Proof.
  split.
  - apply (formatPreview_spec (lit "Assignments for today") 10); vm_compute; congruence.
  - apply (formatPreview_spec (lit "Hi") 10); vm_compute; congruence.
Defined.

(** C10.  [validateMessage] reports the segment count of
    [countSmsSegments]; it reports the message valid exactly when the
    trimmed message is not empty and the count is at most
    [maxSegments]; and the count is at least 1 for every message, the
    empty one included. *)
Theorem validateMessage_spec (message : jsstring) (maxSegments : Z) :
  segments (validateMessage message maxSegments) = countSmsSegments message
  /\ (valid (validateMessage message maxSegments) = true
      <-> trim message <> [] /\ countSmsSegments message <= maxSegments)
  /\ 1 <= countSmsSegments message
  /\ countSmsSegments [] = 1.
Proof.
  split; [reflexivity|]. split; [|split; [apply countSmsSegments_pos | reflexivity]].
  unfold validateMessage, str_length.
  destruct (trim message) as [|c t] eqn:Et; simpl;
    destruct (Z.ltb_spec maxSegments (countSmsSegments message)); simpl;
    split; try discriminate; try tauto; try lia; try (intros [? ?]; lia).
  intros _. split; [discriminate | lia].
Qed.

(** The header of a message for a given date. *)
Definition header (d : Date) : jsstring :=
  lit "Assignments for " ++ formatDateYYYYMMDD d ++ lit ":" ++ nl ++ nl.

(** The block of an item whose course line shows [label]. *)
Definition blockWith (label : jsstring) (todo : ParsedTodoItem) : jsstring :=
  lit "Course: " ++ label ++ nl
  ++ lit "Assignment: " ++ assignmentName todo ++ nl
  ++ lit "Type: " ++ type todo ++ nl
  ++ lit "Due: " ++ dueDate todo ++ nl
  ++ nl.

(** The message of the specification's example. *)
Definition essayMessage : jsstring :=
  lit "Assignments for 2026-02-18:" ++ nl ++ nl
  ++ lit "Course: English" ++ nl
  ++ lit "Assignment: Essay on Shakespeare" ++ nl
  ++ lit "Type: submitting" ++ nl
  ++ lit "Due: 2026-02-25" ++ nl ++ nl.

Lemma formatMessage_single (db : Db.t) (now d : Date) (childId : jsstring)
      (todo : ParsedTodoItem) :
  formatMessage db now childId [todo] (Some d)
  = header d ++ formatBlock (getCourseMap db childId) todo.
Proof. reflexivity. Qed.

(** A key that starts below the underscore is not inherited. *)
Lemma inherited_head (c : N) (s : jsstring) :
  (c <? 95)%N = true -> inherited (c :: s) = None.
Proof.
  intros Hc. apply N.ltb_lt in Hc. unfold inherited, Js.eqb.
  repeat match goal with
         | |- context [bool_decide (c :: s = lit ?k)] =>
             rewrite (bool_decide_eq_false_2 (c :: s = lit k))
               by (intros E; apply (f_equal head) in E; vm_compute in E;
                   injection E as E; subst c; vm_compute in Hc; discriminate)
         end.
  reflexivity.
Qed.

(** The course ids [parseTodoItems] produces, the decimal text of a
    number, are never inherited keys. *)
Lemma inherited_of_Z (z : Z) : inherited (of_Z z) = None.
Proof.
  destruct z as [|p|p]; cbn [of_Z]; [reflexivity| |now apply inherited_head].
  unfold of_N. cbn [N.to_uint].
  destruct (Pos.to_uint p); cbn [uint_codes];
    [reflexivity | now apply inherited_head ..].
Qed.

(** C7, as the code has it.  The example item with course 101 synced
    as English and the reference date 2026-02-18 formats to exactly the
    message of the specification; and an item whose course is not
    among the synced courses, and whose course id is not the name of a
    property every object inherits, gets the course line
    [Course: Course] followed by the raw course id.  The decimal ids
    that Canvas numbers give are never such names. *)
Theorem formatMessage_example (db : Db.t) (now : Date) (childId : jsstring) :
  (getCourseMap db childId !! lit "101" = Some (lit "English") ->
   formatMessage db now childId [essay] (Some feb18) = essayMessage)
  /\ (forall (todo : ParsedTodoItem) (d : Date),
        getCourseMap db childId !! courseId todo = None ->
        inherited (courseId todo) = None ->
        formatMessage db now childId [todo] (Some d)
        = header d ++ blockWith (lit "Course " ++ courseId todo) todo)
  /\ (forall (todo : ParsedTodoItem) (d : Date) (id : Z),
        courseId todo = of_Z id ->
        getCourseMap db childId !! courseId todo = None ->
        formatMessage db now childId [todo] (Some d)
        = header d ++ blockWith (lit "Course " ++ of_Z id) todo).
Proof.
  split; [|split].
  - intros Hm. rewrite formatMessage_single.
    unfold formatBlock, courseNameOf.
    change (courseId essay) with (lit "101"). rewrite Hm. reflexivity.
  - intros todo d Hm Hi. rewrite formatMessage_single.
    unfold formatBlock, courseNameOf, blockWith. rewrite Hm, Hi. reflexivity.
  - intros todo d id Hid Hm. rewrite formatMessage_single.
    unfold formatBlock, courseNameOf, blockWith.
    rewrite Hm, Hid, inherited_of_Z. reflexivity.
Qed.

(** The example family, with course 101 synced and not synced. *)
Lemma formatMessage_example_witness :
  formatMessage (family childPhone [english]) feb18 (lit "c1") [essay] (Some feb18)
  = essayMessage
  /\ formatMessage (family childPhone []) feb18 (lit "c1") [essay] (Some feb18)
     = header feb18 ++ blockWith (lit "Course 101") essay
  /\ formatMessage (family childPhone []) feb18 (lit "c1") [essay] (Some feb18)
     = header feb18 ++ blockWith (lit "Course " ++ of_Z 101) essay.
Proof.
  split; [|split].
  - apply (formatMessage_example (family childPhone [english]) feb18 (lit "c1")).
    vm_compute. reflexivity.
  - apply (proj1 (proj2 (formatMessage_example (family childPhone []) feb18 (lit "c1")))
                   essay feb18);
      vm_compute; reflexivity.
  - apply (proj2 (proj2 (formatMessage_example (family childPhone []) feb18 (lit "c1")))
                   essay feb18 101);
      vm_compute; reflexivity.
Defined.

(** An item whose course id is [constructor] shows what every object
    inherits under that name, not the fallback. *)
Example formatMessage_inherited_name :
  formatMessage (family childPhone [english]) feb18 (lit "c1")
    [{| type := lit "submitting"; assignmentName := lit "Essay";
        dueAt := lit "2026-02-25T23:59:00Z"; dueDate := lit "2026-02-25";
        courseId := lit "constructor" |}]
    (Some feb18)
  = header feb18
    ++ lit "Course: function Object() { [native code] }" ++ nl
    ++ lit "Assignment: Essay" ++ nl
    ++ lit "Type: submitting" ++ nl
    ++ lit "Due: 2026-02-25" ++ nl ++ nl.
Proof. vm_compute. reflexivity. Qed.

(** C7 as stated fails: with course 101 not synced the course line is
    [Course: Course 101], not the raw identifier [Course: 101]. *)
Lemma formatMessage_fallback_not_raw :
  getCourseMap (family childPhone []) (lit "c1") !! courseId essay = None
  /\ formatMessage (family childPhone []) feb18 (lit "c1") [essay] (Some feb18)
     <> header feb18 ++ blockWith (courseId essay) essay.
Proof. split; [vm_compute; reflexivity | vm_compute; discriminate]. Qed.

Lemma formatBlocks_ext (m1 m2 : gmap jsstring jsstring)
      (todos : list ParsedTodoItem) (acc : jsstring) :
  (forall todo, todo ∈ todos -> m1 !! courseId todo = m2 !! courseId todo) ->
  foldl (fun message todo => message ++ formatBlock m1 todo) acc todos
  = foldl (fun message todo => message ++ formatBlock m2 todo) acc todos.
Proof.
  revert acc. induction todos as [|t ts IH]; intros acc Hagree; simpl.
  - reflexivity.
  - assert (formatBlock m1 t = formatBlock m2 t) as ->.
    { unfold formatBlock, courseNameOf. rewrite (Hagree t); [reflexivity|].
      apply list_elem_of_here. }
    apply IH. intros todo Hin. apply Hagree. now apply list_elem_of_further.
Qed.

(** C5, as the code has it.  The message is determined by the items,
    the date and the course names stored for the child: two databases
    that give the same name to the course of every item yield the same
    message, whatever else they hold and whatever the clock says; and
    for an empty list the message depends on the date alone. *)
Theorem formatMessage_reads_course_names
        (db1 db2 : Db.t) (now1 now2 d : Date) (childId : jsstring)
        (todos : list ParsedTodoItem) :
  (forall todo, todo ∈ todos ->
     getCourseMap db1 childId !! courseId todo
     = getCourseMap db2 childId !! courseId todo) ->
  formatMessage db1 now1 childId todos (Some d)
  = formatMessage db2 now2 childId todos (Some d)
  /\ formatMessage db1 now1 childId [] (Some d)
     = header d ++ lit "No assignments due." ++ nl.
Proof.
  intros Hagree. split; [|reflexivity].
  unfold formatMessage. destruct todos as [|t ts]; [reflexivity|].
  now apply formatBlocks_ext.
Qed.

(** A second database: another child's course and an inactive course
    are stored as well, and the sender's clock differs. *)
Definition otherRows : list Db.Course :=
  [Db.mkCourse (lit "c2") (lit "101") (lit "Chemistry") true;
   english;
   Db.mkCourse (lit "c1") (lit "202") (lit "Woodshop") false].

(** The two databases give course 101 of child [c1] the same name. *)
Lemma formatMessage_reads_course_names_witness :
  formatMessage (family childPhone [english]) feb18 (lit "c1") [essay] (Some feb18)
  = formatMessage (family badPhone otherRows) (mkDate 2030 0 1) (lit "c1") [essay]
                  (Some feb18).
Proof.
  apply (formatMessage_reads_course_names
           (family childPhone [english]) (family badPhone otherRows)).
  intros todo Hin. apply list_elem_of_singleton in Hin. subst todo.
  vm_compute. reflexivity.
Defined.

(** C5 as stated fails: the same child, items and date give different
    messages before and after the course is synced. *)
Lemma formatMessage_depends_on_database :
  formatMessage (family childPhone [english]) feb18 (lit "c1") [essay] (Some feb18)
  <> formatMessage (family childPhone []) feb18 (lit "c1") [essay] (Some feb18).
Proof. vm_compute. discriminate. Qed.

End FormattingProps.

(* ===================================================================== *)
(** * Properties of the sort of the Canvas service                        *)
(* ===================================================================== *)

Module SortProps.

Import Fixtures CanvasService.

Section Insertion.
Context {A : Type} (comparefn : A -> A -> option Z).

Lemma sort_insert_perm (x : A) (l : list A) :
  Permutation (sort_insert comparefn x l) (x :: l).
Proof.
  induction l as [|y l IH]; simpl; [reflexivity|].
  destruct (sortCompare comparefn x y <=? 0); [reflexivity|].
  rewrite IH. apply perm_swap.
Qed.

Lemma sort_perm (l : list A) : Permutation (Js.sort comparefn l) l.
Proof.
  induction l as [|x l IH]; simpl; [reflexivity|].
  fold (Js.sort comparefn l). rewrite sort_insert_perm. now constructor.
Qed.

(** The comparator is the difference of an integer key on the
    elements that satisfy [P]. *)
Context (key : A -> Z) (P : A -> Prop).
Hypothesis compare_key :
  forall x y, P x -> P y -> sortCompare comparefn x y = key x - key y.

Let le_key (a b : A) : Prop := key a <= key b.

Lemma sort_insert_sorted (x : A) (l : list A) :
  P x -> Forall P l ->
  StronglySorted le_key l -> StronglySorted le_key (sort_insert comparefn x l).
Proof.
  intros Px. induction l as [|y l IH]; intros HP Hs; simpl.
  - repeat constructor.
  - apply Forall_cons in HP as [Py HP].
    apply StronglySorted_inv in Hs as [Hs Hy].
    rewrite (compare_key x y Px Py).
    destruct (Z.leb_spec (key x - key y) 0).
    + constructor; [now constructor|].
      constructor; [unfold le_key; lia|].
      eapply Forall_impl; [exact Hy|]. unfold le_key. intros; lia.
    + constructor; [now apply IH|].
      rewrite sort_insert_perm. constructor; [unfold le_key; lia | exact Hy].
Qed.

Lemma sort_sorted (l : list A) :
  Forall P l -> StronglySorted le_key (Js.sort comparefn l).
Proof.
  induction l as [|x l IH]; intros HP; simpl; [constructor|].
  apply Forall_cons in HP as [Px HP]. fold (Js.sort comparefn l).
  apply sort_insert_sorted; [exact Px | | now apply IH].
  now rewrite sort_perm.
Qed.

Lemma sort_insert_filter (t : Z) (x : A) (l : list A) :
  P x -> Forall P l ->
  List.filter (fun a => key a =? t) (sort_insert comparefn x l)
  = List.filter (fun a => key a =? t) (x :: l).
Proof.
  intros Px. induction l as [|y l IH]; intros HP; [reflexivity|].
  apply Forall_cons in HP as [Py HP]. cbn [sort_insert].
  rewrite (compare_key x y Px Py).
  destruct (Z.leb_spec (key x - key y) 0); [reflexivity|].
  cbn [List.filter] in *. rewrite (IH HP).
  destruct (Z.eqb_spec (key x) t), (Z.eqb_spec (key y) t); try reflexivity. lia.
Qed.

(** Stability: the elements of one key come out in their input order. *)
Lemma sort_stable (t : Z) (l : list A) :
  Forall P l ->
  List.filter (fun a => key a =? t) (Js.sort comparefn l)
  = List.filter (fun a => key a =? t) l.
Proof.
  induction l as [|x l IH]; intros HP; [reflexivity|].
  apply Forall_cons in HP as [Px HP]. cbn [Js.sort foldr].
  fold (Js.sort comparefn l). rewrite sort_insert_filter.
  - cbn [List.filter]. now rewrite IH.
  - exact Px.
  - now rewrite sort_perm.
Qed.
End Insertion.

(** The due instant of an item, 0 standing in for an invalid date. *)
Definition dueTime (getTime : jsstring -> option Z) (item : ParsedTodoItem) : Z :=
  default 0 (getTime (dueAt item)).

Definition validDue (getTime : jsstring -> option Z) (item : ParsedTodoItem) : Prop :=
  is_Some (getTime (dueAt item)).

Lemma compareDue_key (getTime : jsstring -> option Z) (a b : ParsedTodoItem) :
  validDue getTime a -> validDue getTime b ->
  sortCompare (compareDue getTime) a b = dueTime getTime a - dueTime getTime b.
Proof.
  intros [ta Ha] [tb Hb]. unfold sortCompare, compareDue, dueTime.
  now rewrite Ha, Hb.
Qed.

(** What [sortByDueDate] does on items with valid due dates: it
    permutes them into ascending order of due instant, and items due at
    the same instant keep the order in which they were fetched. *)
Lemma sortByDueDate_stable_sort (getTime : jsstring -> option Z)
      (items : list ParsedTodoItem) :
  Forall (validDue getTime) items ->
  Permutation (sortByDueDate getTime items) items
  /\ StronglySorted (fun a b => dueTime getTime a <= dueTime getTime b)
                    (sortByDueDate getTime items)
  /\ forall t,
       List.filter (fun a => dueTime getTime a =? t) (sortByDueDate getTime items)
       = List.filter (fun a => dueTime getTime a =? t) items.
Proof.
  intros Hv. unfold sortByDueDate. split; [apply sort_perm|]. split.
  - eapply sort_sorted; [|exact Hv]. apply compareDue_key.
  - intros t. eapply sort_stable; [|exact Hv]. apply compareDue_key.
Qed.

(** C6.  Two items due at the same instant, fetched with title [B]
    before title [A], come out of [sortByDueDate] in the order fetched:
    the tie is not broken by title, and the same two items fetched in
    the other order come out in the other order.  The script that
    [sortByDueDate] ports puts [A] first in both cases. *)
Theorem sortByDueDate_tie_keeps_fetch_order :
  isoTime (dueAt itemB) = isoTime (dueAt itemA)
  /\ Js.ltb (assignmentName itemA) (assignmentName itemB) = true
  /\ sortByDueDate isoTime [itemB; itemA] = [itemB; itemA]
  /\ sortByDueDate isoTime [itemA; itemB] = [itemA; itemB]
  /\ Script.sortLines [lineOf itemB; lineOf itemA] = [lineOf itemA; lineOf itemB]
  /\ Script.sortLines [lineOf itemA; lineOf itemB] = [lineOf itemA; lineOf itemB].
Proof. repeat split; vm_compute; reflexivity. Qed.

(** The example of the specification: the two items of 02-18 come
    before the item of 02-20, in their input order. *)
Example sortByDueDate_example :
  sortByDueDate isoTime [itemLate; itemA; itemA] = [itemA; itemA; itemLate].
Proof. vm_compute. reflexivity. Qed.

End SortProps.

(* ===================================================================== *)
(** * Properties of the scheduler                                         *)
(* ===================================================================== *)

Module SchedulerProps.

Import Fixtures.

Lemma find_none_filter {A : Type} (f : A -> bool) (l : list A) :
  List.find f l = None -> List.filter f l = [].
Proof.
  induction l as [|x l IH]; simpl; [reflexivity|].
  destruct (f x); [discriminate | exact IH].
Qed.

Lemma eqb_refl (s : jsstring) : Js.eqb s s = true.
Proof. unfold Js.eqb. now apply bool_decide_eq_true. Qed.

Lemma eqb_eq (a b : jsstring) : Js.eqb a b = true -> a = b.
Proof. unfold Js.eqb. now intros H%bool_decide_eq_true. Qed.

Lemma eqb_neq (a b : jsstring) : a <> b -> Js.eqb a b = false.
Proof. intros H. unfold Js.eqb. now apply bool_decide_eq_false_2. Qed.

(** The id of the job of a run ends with the instant of the run. *)
Lemma getRepeatJobId_instant (b b' : Bull) (name name' jobId jobId' ns ns' : jsstring)
      (t t' : Z) :
  length (of_Z t) = length (of_Z t') ->
  getRepeatJobId b name jobId t ns = getRepeatJobId b' name' jobId' t' ns' ->
  of_Z t = of_Z t'.
Proof.
  unfold getRepeatJobId. intros Hlen Heq.
  rewrite !app_assoc in Heq. now apply app_inj_2 in Heq as [_ Heq].
Qed.

(** The id of the job of a run is no pair key. *)
Lemma getRepeatJobId_not_key (b : Bull) (name jobId ns : jsstring) (t : Z)
      (parentId childId : jsstring) :
  getRepeatJobId b name jobId t ns <> jobIdOf parentId childId.
Proof. unfold getRepeatJobId, jobIdOf. discriminate. Qed.

(** The preferences after the parent moved the messages to the weekend
    mornings. *)
Definition movedTime : Db.t :=
  {| Db.parents := Db.parents (family childPhone []);
     Db.preferences := [Db.mkPreference (lit "p1") (lit "07:30:00")
                                         (lit "Sat,Sun") false];
     Db.children := Db.children (family childPhone []);
     Db.relationships := Db.relationships (family childPhone []);
     Db.canvasTokens := Db.canvasTokens (family childPhone []);
     Db.courses := [];
     Db.messages := [] |}.

(** Wednesday 18 February 2026 in Los Angeles, 08:00 and 09:00. *)
Definition eightOClock : Z := 1771430400000.
Definition nineOClock : Z := 1771434000000.

(** What the cron parser answers on that morning for the two
    expressions of the example: 15:00 on the same day, and 07:30 on the
    Saturday after. *)
Definition thatWeek (now : Z) (repeat : RepeatOptions) : Error + option Z :=
  if Js.eqb (cron repeat) (lit "00 15 * * 1-5") then inr (Some 1771455600000)
  else if Js.eqb (cron repeat) (lit "30 07 * * 6,0") then inr (Some 1771687800000)
  else inr None.

(** The queue after the first install of the example, for a given
    digest. *)
Definition firstTrigger (hash : jsstring -> jsstring) : Job :=
  let key := lit "send-sms:sms-p1-c1::America/Los_Angeles:00 15 * * 1-5" in
  mkJob (lit "repeat:" ++ hash (lit "send-sms" ++ lit "sms-p1-c1:" ++ hash key)
         ++ lit ":" ++ lit "1771455600000")
        (lit "send-sms") theJob
        {| opt_repeat := Some (mkRepeat (lit "00 15 * * 1-5") (lit "America/Los_Angeles"));
           opt_jobId :=
             Some (lit "repeat:" ++ hash (lit "send-sms" ++ lit "sms-p1-c1:" ++ hash key)
                   ++ lit ":" ++ lit "1771455600000");
           opt_priority := None |}.

Definition secondTrigger (hash : jsstring -> jsstring) : Job :=
  let key := lit "send-sms:sms-p1-c1::America/Los_Angeles:30 07 * * 6,0" in
  mkJob (lit "repeat:" ++ hash (lit "send-sms" ++ lit "sms-p1-c1:" ++ hash key)
         ++ lit ":" ++ lit "1771687800000")
        (lit "send-sms") theJob
        {| opt_repeat := Some (mkRepeat (lit "30 07 * * 6,0") (lit "America/Los_Angeles"));
           opt_jobId :=
             Some (lit "repeat:" ++ hash (lit "send-sms" ++ lit "sms-p1-c1:" ++ hash key)
                   ++ lit ":" ++ lit "1771687800000");
           opt_priority := None |}.

Lemma install_first (hash : jsstring -> jsstring) :
  scheduleDailySmsForPair (mkBull hash thatWeek) eightOClock (family childPhone [])
                          (lit "p1") (lit "c1") emptyQueue
  = inr {| jobs := [firstTrigger hash];
           repeatKeys :=
             [(lit "send-sms:sms-p1-c1::America/Los_Angeles:00 15 * * 1-5",
               1771455600000)];
           nextId := 1 |}.
Proof. reflexivity. Qed.

Lemma install_second (hash : jsstring -> jsstring) :
  scheduleDailySmsForPair (mkBull hash thatWeek) nineOClock movedTime
                          (lit "p1") (lit "c1")
                          {| jobs := [firstTrigger hash];
                             repeatKeys :=
                               [(lit "send-sms:sms-p1-c1::America/Los_Angeles:00 15 * * 1-5",
                                 1771455600000)];
                             nextId := 1 |}
  = inr {| jobs := [firstTrigger hash; secondTrigger hash];
           repeatKeys :=
             [(lit "send-sms:sms-p1-c1::America/Los_Angeles:00 15 * * 1-5",
               1771455600000);
              (lit "send-sms:sms-p1-c1::America/Los_Angeles:30 07 * * 6,0",
               1771687800000)];
           nextId := 2 |}.
Proof.
  unfold scheduleDailySmsForPair.
  change (Db.findParent movedTime (lit "p1"))
    with (Some (Db.mkParent (lit "p1") (Some parentPhone) (lit "America/Los_Angeles"))).
  change (Db.findPreference movedTime (lit "p1"))
    with (Some (Db.mkPreference (lit "p1") (lit "07:30:00") (lit "Sat,Sun") false)).
  cbv beta iota.
  change (buildCronExpression _ _ _) with (lit "30 07 * * 6,0").
  assert (getJob {| jobs := [firstTrigger hash];
                    repeatKeys :=
                      [(lit "send-sms:sms-p1-c1::America/Los_Angeles:00 15 * * 1-5",
                        1771455600000)];
                    nextId := 1 |} (jobIdOf (lit "p1") (lit "c1")) = None) as ->.
  { unfold getJob. cbn [jobs List.find]. now rewrite eqb_neq. }
  unfold add. cbn [opt_repeat opt_jobId opt_priority].
  change (getNextMillis (mkBull hash thatWeek) nineOClock _)
    with (@inr Error _ (Some 1771687800000)).
  cbv beta iota.
  change (1771687800000 =? 0) with false. cbv beta iota.
  unfold createJob. cbn [opt_jobId getJob jobs List.find job_id firstTrigger].
  rewrite eqb_neq; [reflexivity|].
  intros Heq. symmetry in Heq.
  apply (getRepeatJobId_instant (mkBull hash thatWeek) (mkBull hash thatWeek)
           (lit "send-sms") (lit "send-sms") _ _ _ _ 1771687800000 1771455600000) in Heq;
    [discriminate | reflexivity].
Qed.

(** C1 fails on the code.  A parent with messages at 15:00 on school
    days gets a schedule installed; the parent moves them to 07:30 at
    the weekend and the schedule is installed again.  The second
    install looks for a job under [sms-p1-c1], finds none, removes
    nothing and files a second repeatable job: the queue then holds two
    repeat keys and two triggers for the pair, whatever the digest
    function is. *)
Theorem install_twice_two_triggers (hash : jsstring -> jsstring) :
  exists q1 q2,
    scheduleDailySmsForPair (mkBull hash thatWeek) eightOClock (family childPhone [])
                            (lit "p1") (lit "c1") emptyQueue = inr q1
    /\ scheduleDailySmsForPair (mkBull hash thatWeek) nineOClock movedTime
                               (lit "p1") (lit "c1") q1 = inr q2
    /\ getJob q1 (jobIdOf (lit "p1") (lit "c1")) = None
    /\ List.map fst (repeatKeys q2)
       = [lit "send-sms:sms-p1-c1::America/Los_Angeles:00 15 * * 1-5";
          lit "send-sms:sms-p1-c1::America/Los_Angeles:30 07 * * 6,0"]
    /\ triggersOf q2 (lit "p1") (lit "c1") = [firstTrigger hash; secondTrigger hash]
    /\ cancelDailySmsForPair (lit "p1") (lit "c1") q2 = q2.
Proof.
  eexists. eexists.
  split; [apply install_first|]. split; [apply install_second|].
  split; [|split; [reflexivity|split; [reflexivity|]]].
  - unfold getJob. cbn [jobs List.find]. now rewrite eqb_neq.
  - unfold cancelDailySmsForPair, getJob. cbn [jobs List.find].
    now rewrite !eqb_neq.
Qed.

End SchedulerProps.

(* ===================================================================== *)
(** * Properties of the worker                                            *)
(* ===================================================================== *)

Module WorkerProps.

Import Fixtures Worker MessageService.

(** The rows a run added to the Occurrence Store. *)
Definition newRecords (before after : Db.t) : list Db.Message :=
  drop (length (Db.messages before)) (Db.messages after).

(** Status, recipient phone and recipient role of a row. *)
Definition summary (m : Db.Message) : Db.Status * (jsstring * Db.RecipientType) :=
  (Db.status m, (Db.recipientPhone m, Db.recipientType m)).

(** The tables a job only reads are left as they were. *)
Definition sameDirectory (db db' : Db.t) : Prop :=
  Db.parents db' = Db.parents db
  /\ Db.preferences db' = Db.preferences db
  /\ Db.children db' = Db.children db
  /\ Db.courses db' = Db.courses db
  /\ Db.relationships db' = Db.relationships db.

Lemma sameDirectory_refl db : sameDirectory db db.
Proof. repeat split. Qed.

Lemma sameDirectory_trans db1 db2 db3 :
  sameDirectory db1 db2 -> sameDirectory db2 db3 -> sameDirectory db1 db3.
Proof. unfold sameDirectory. intuition congruence. Qed.

Lemma sameDirectory_recipients db db' job :
  sameDirectory db db' -> recipients db' job = recipients db job.
Proof.
  intros (Hp & Hf & Hc & _).
  unfold recipients, Db.findParent, Db.findChild, Db.findPreference.
  now rewrite Hp, Hf, Hc.
Qed.

Lemma sameDirectory_findParent db db' id :
  sameDirectory db db' -> Db.findParent db' id = Db.findParent db id.
Proof. intros (Hp & _). unfold Db.findParent. now rewrite Hp. Qed.

Lemma newRecords_app db db' rows :
  Db.messages db' = Db.messages db ++ rows -> newRecords db db' = rows.
Proof. intros H. unfold newRecords. rewrite H. apply drop_app_length. Qed.

(** ** Effects of the services on the database *)

Lemma fetchTodoItems_effect w c db r db' :
  CanvasService.fetchTodoItems w c db = (r, db') ->
  sameDirectory db db' /\ Db.messages db' = Db.messages db.
Proof.
  unfold CanvasService.fetchTodoItems, CanvasService.markTokenInvalid,
    mbind, M_bind, bind, gets, modify, throw, ret.
  destruct (Db.findChild db c); [|intros [= <- <-]; repeat split].
  destruct (Db.findCanvasToken db c) as [tok|]; [|intros [= <- <-]; repeat split].
  destruct (decrypt w _ _ _); [|intros [= <- <-]; repeat split].
  destruct (canvasGet w _ _) as [data|st msg]; [intros [= <- <-]; repeat split|].
  destruct (bool_decide (st = Some 401)); intros [= <- <-]; repeat split.
Qed.

Lemma sendSms_effect w phone message db :
  exists r, TwilioService.sendSms w phone message db = (r, db).
Proof.
  unfold TwilioService.sendSms, try_catch, throw, ret.
  destruct (twilioInit w) as [e|[|]]; simpl; eauto.
  destruct (TwilioService.validatePhoneNumber phone); simpl; eauto.
  destruct (twilioCreate w phone message) as [e|sid]; eauto.
  destruct (truthy_opt sid); eauto.
Qed.

(** A send to an invalid address throws before Twilio is called. *)
Lemma sendSms_invalid w phone message db :
  twilioInit w = inr true ->
  TwilioService.validatePhoneNumber phone = false ->
  TwilioService.sendSms w phone message db
  = (inl (lit "Failed to send SMS: "
          ++ lit "Invalid phone number format (must be E.164: +1234567890)"), db).
Proof.
  intros Hi Hv. unfold TwilioService.sendSms, try_catch, throw. now rewrite Hi, Hv.
Qed.

Lemma sendAndLog_effect w job message n phone who db :
  (exists e, sendAndLog w job message n phone who db = (inl e, db))
  \/ (exists row, sendAndLog w job message n phone who db
                  = (inr tt, Db.createMessage row db)
                  /\ summary row = (Db.Sent, (phone, who))).
Proof.
  unfold sendAndLog, mbind, M_bind, bind.
  destruct (sendSms_effect w phone message db) as [[e|sid] ->].
  - left. eauto.
  - right. eexists. split; reflexivity.
Qed.

(** The [failed] rows the [catch] block writes: one for the parent
    when the parent has a phone number. *)
Definition failureRecipients (db : Db.t) (job : SendSmsJobData)
  : list (jsstring * Db.RecipientType) :=
  match phoneNumberOf (Db.findParent db (parentId job)) with
  | Some phone => if truthy phone then [(phone, Db.RParent)] else []
  | None => []
  end.

Lemma logFailure_effect w job e db :
  exists db' rows,
    logFailure w job e db = (inl e, db')
    /\ sameDirectory db db'
    /\ Db.messages db' = Db.messages db ++ rows
    /\ List.map summary rows
       = List.map (fun r => (Db.Failed, r)) (failureRecipients db job).
Proof.
  unfold logFailure, failureRecipients, mbind, M_bind, bind, gets, throw, ret,
    logMessage, modify.
  destruct (phoneNumberOf (Db.findParent db (parentId job))) as [phone|].
  - destruct (truthy phone).
    + eexists _, [_]. repeat split.
    + exists db, []. repeat split. now rewrite app_nil_r.
  - exists db, []. repeat split. now rewrite app_nil_r.
Qed.

Lemma createMessage_messages row db :
  Db.messages (Db.createMessage row db) = Db.messages db ++ [row].
Proof. reflexivity. Qed.

Lemma createMessage_sameDirectory row db : sameDirectory db (Db.createMessage row db).
Proof. repeat split. Qed.

Lemma summary_status row st r : summary row = (st, r) -> Db.status row = st.
Proof. now intros [= -> _]. Qed.

Ltac body_done :=
  split;
  [ repeat split
  | eexists; split;
    [ first [ symmetry; apply app_nil_r
            | simpl; rewrite <- ?app_assoc; reflexivity ]
    | simpl;
      repeat match goal with
             | H : summary _ = _ |- _ =>
                 first [ rewrite H | apply summary_status in H ]
             end;
      first [ reflexivity | repeat constructor; assumption ] ] ].

(** The rows the [try] block adds: when it returns, one [sent] row
    per resolved recipient; when it throws, [sent] rows only. *)
Lemma body_effect w job db r db' :
  processSmsJob_body w job db = (r, db') ->
  sameDirectory db db'
  /\ exists rows,
       Db.messages db' = Db.messages db ++ rows
       /\ match r with
          | inr _ => List.map summary rows
                     = List.map (fun r => (Db.Sent, r)) (recipients db job)
          | inl _ => Forall (fun m => Db.status m = Db.Sent) rows
          end.
Proof.
  unfold processSmsJob_body, mbind, M_bind, bind, gets, throw, ret.
  destruct (CanvasService.fetchTodoItems w (childId job) db) as [[e|todos] db1] eqn:Hf;
    apply fetchTodoItems_effect in Hf as [Hdir Hmsg].
  { intros [= <- <-]. split; [exact Hdir|]. exists []. rewrite app_nil_r. auto. }
  rewrite <- (sameDirectory_recipients db db1 job Hdir), <- Hmsg.
  intros Hrun.
  enough (sameDirectory db1 db'
          /\ exists rows,
               Db.messages db' = Db.messages db1 ++ rows
               /\ match r with
                  | inr _ => List.map summary rows
                             = List.map (fun r => (Db.Sent, r)) (recipients db1 job)
                  | inl _ => Forall (fun m => Db.status m = Db.Sent) rows
                  end) as [Hd Hrows]
    by (split; [exact (sameDirectory_trans _ _ _ Hdir Hd) | exact Hrows]).
  clear Hdir Hmsg. revert Hrun. generalize db1. clear db db1. intros db.
  destruct (negb (valid _)).
  { intros [= <- <-]. split; [apply sameDirectory_refl|].
    exists []. rewrite app_nil_r. auto. }
  unfold recipients.
  destruct (Db.findParent db (parentId job)) as [parent|];
    [|intros [= <- <-]; split; [apply sameDirectory_refl|];
      exists []; rewrite app_nil_r; auto].
  destruct (Db.findChild db (childId job)) as [child|];
    [|intros [= <- <-]; split; [apply sameDirectory_refl|];
      exists []; rewrite app_nil_r; auto].
  set (message := formatMessage db (now w) (childId job) todos (Some (now w))).
  set (optIn := default false (Db.includeChildInSms <$> Db.findPreference db (parentId job))).
  destruct (Db.parent_phoneNumber parent) as [pp|]; [destruct (truthy pp)|];
    cbv beta iota;
    try (destruct (sendAndLog_effect w job message (Z.of_nat (length todos))
                                     pp Db.RParent db)
          as [[e ->]|(row & -> & Hrow)]);
    try (intros [= <- <-]; body_done);
    (destruct (Db.child_phoneNumber child) as [cp|];
     [destruct (truthy cp && optIn)|]);
    cbv beta iota;
    try match goal with
        | |- context [sendAndLog ?w ?j ?m ?n ?p ?who ?d] =>
            destruct (sendAndLog_effect w j m n p who d)
              as [[e ->]|(row' & -> & Hrow')]
        end;
    intros [= <- <-]; body_done.
Qed.

(** One run of the processor: when it returns, one [sent] row per
    resolved recipient; when it throws, some [sent] rows followed by
    the [failed] row of the [catch] block. *)
Lemma processSmsJob_effect w job db r db' :
  processSmsJob w job db = (r, db') ->
  sameDirectory db db'
  /\ exists rows,
       Db.messages db' = Db.messages db ++ rows
       /\ match r with
          | inr _ => List.map summary rows
                     = List.map (fun r => (Db.Sent, r)) (recipients db job)
          | inl _ =>
              exists sents fails,
                rows = sents ++ fails
                /\ Forall (fun m => Db.status m = Db.Sent) sents
                /\ List.map summary fails
                   = List.map (fun r => (Db.Failed, r)) (failureRecipients db job)
          end.
Proof.
  unfold processSmsJob, try_catch.
  destruct (processSmsJob_body w job db) as [[e|res] db1] eqn:Hb;
    apply body_effect in Hb as (Hdir & sents & Hmsg & Hsents).
  - destruct (logFailure_effect w job e db1) as (db2 & fails & -> & Hdir2 & Hmsg2 & Hfails).
    intros [= <- <-]. split; [exact (sameDirectory_trans _ _ _ Hdir Hdir2)|].
    exists (sents ++ fails). split; [now rewrite Hmsg2, Hmsg, app_assoc|].
    exists sents, fails. repeat split; [exact Hsents|].
    rewrite Hfails. unfold failureRecipients.
    now rewrite (sameDirectory_findParent _ _ _ Hdir).
  - intros [= <- <-]. split; [exact Hdir|]. now exists sents.
Qed.

(** ** Counting rows *)

Lemma recordsFor_app st r ms1 ms2 :
  recordsFor st r (ms1 ++ ms2) = recordsFor st r ms1 ++ recordsFor st r ms2.
Proof. unfold recordsFor. apply List.filter_app. Qed.

Lemma recordsWith_app st ms1 ms2 :
  recordsWith st (ms1 ++ ms2) = recordsWith st ms1 ++ recordsWith st ms2.
Proof. unfold recordsWith. apply List.filter_app. Qed.

Lemma recordsFor_test st r m :
  bool_decide (Db.status m = st) && Js.eqb (Db.recipientPhone m) r.1
  && bool_decide (Db.recipientType m = r.2)
  = bool_decide (summary m = (st, r)).
Proof.
  destruct r as [phone who]. unfold Js.eqb, summary. cbn [fst snd].
  apply Bool.eq_iff_eq_true. rewrite !andb_true_iff, !bool_decide_eq_true.
  split; [intros [[-> ->] ->]; reflexivity | intros [= -> -> ->]; auto].
Qed.

Lemma recordsFor_length st r rows :
  length (recordsFor st r rows)
  = length (List.filter (fun s => bool_decide (s = (st, r))) (List.map summary rows)).
Proof.
  unfold recordsFor. induction rows as [|m rows IH]; [reflexivity|].
  cbn [List.filter List.map]. rewrite recordsFor_test.
  destruct (bool_decide _); cbn [length]; now rewrite IH.
Qed.

Lemma recordsFor_summary st st' r rs rows :
  List.map summary rows = List.map (fun r => (st', r)) rs ->
  length (recordsFor st r rows)
  = if bool_decide (st' = st)
    then length (List.filter (fun x => bool_decide (x = r)) rs)
    else 0%nat.
Proof.
  intros Hrows. rewrite recordsFor_length, Hrows. clear rows Hrows.
  induction rs as [|x rs IH]; cbn [List.map List.filter].
  - now destruct (bool_decide _).
  - destruct (decide (st' = st)) as [->|Hne].
    + rewrite (bool_decide_eq_true_2 (st = st)) in * by reflexivity.
      destruct (decide (x = r)) as [->|Hx].
      * rewrite !bool_decide_eq_true_2 by reflexivity. cbn [length]. now rewrite IH.
      * rewrite !bool_decide_eq_false_2 by congruence. exact IH.
    + rewrite (bool_decide_eq_false_2 (st' = st)) in * by assumption.
      rewrite bool_decide_eq_false_2 by congruence. exact IH.
Qed.

Lemma recordsWith_summary st st' rs rows :
  List.map summary rows = List.map (fun r => (st', r)) rs ->
  length (recordsWith st rows) = if bool_decide (st' = st) then length rs else 0%nat.
Proof.
  revert rs. induction rows as [|m rows IH]; intros [|x rs] [=].
  - now destruct (bool_decide _).
  - specialize (IH rs ltac:(assumption)).
    unfold recordsWith in *. cbn [List.filter].
    repeat match goal with H : _ = _ |- _ => rewrite H in * end.
    destruct (bool_decide (st' = st)); cbn [length]; now rewrite IH.
Qed.

Lemma recordsWith_other st st' rows :
  st' <> st -> Forall (fun m => Db.status m = st') rows -> recordsWith st rows = [].
Proof.
  intros Hne. induction 1 as [|m rows Hm _ IH]; [reflexivity|].
  unfold recordsWith in *. cbn [List.filter]. rewrite Hm.
  now rewrite bool_decide_eq_false_2.
Qed.

Lemma recordsFor_other st st' r rows :
  st' <> st -> Forall (fun m => Db.status m = st') rows -> recordsFor st r rows = [].
Proof.
  intros Hne. induction 1 as [|m rows Hm _ IH]; [reflexivity|].
  unfold recordsFor in *. cbn [List.filter]. rewrite Hm.
  now rewrite bool_decide_eq_false_2.
Qed.


(** ** Exhausted retries *)

Lemma runAttempts_step n k world job :
  runAttempts (S (S n)) k world job
  = try_catch (processSmsJob (world k) job)
              (fun _ => runAttempts (S n) (S k) world job).
Proof. reflexivity. Qed.

Lemma failureRecipients_phone db job phone :
  phoneNumberOf (Db.findParent db (parentId job)) = Some phone ->
  truthy phone = true ->
  failureRecipients db job = [(phone, Db.RParent)].
Proof. intros Hp Ht. unfold failureRecipients. now rewrite Hp, Ht. Qed.

(** A failed run of the processor adds exactly one [failed] row, for
    the parent, when the parent has a phone number. *)
Lemma processSmsJob_failure_rows w job db e db' phone :
  phoneNumberOf (Db.findParent db (parentId job)) = Some phone ->
  truthy phone = true ->
  processSmsJob w job db = (inl e, db') ->
  sameDirectory db db'
  /\ exists rows,
       Db.messages db' = Db.messages db ++ rows
       /\ length (recordsFor Db.Failed (phone, Db.RParent) rows) = 1%nat
       /\ length (recordsWith Db.Failed rows) = 1%nat.
Proof.
  intros Hp Ht Hrun.
  apply processSmsJob_effect in Hrun
    as (Hdir & rows & Hmsg & sents & fails & -> & Hsents & Hfails).
  split; [exact Hdir|]. exists (sents ++ fails). split; [exact Hmsg|].
  rewrite (failureRecipients_phone _ _ _ Hp Ht) in Hfails.
  rewrite recordsFor_app, recordsWith_app, !length_app.
  rewrite (recordsFor_other Db.Failed Db.Sent) by (congruence || assumption).
  rewrite (recordsWith_other Db.Failed Db.Sent) by (congruence || assumption).
  rewrite (recordsFor_summary _ _ _ _ _ Hfails), (recordsWith_summary _ _ _ _ Hfails).
  cbn [List.filter]. now rewrite !bool_decide_eq_true_2 by reflexivity.
Qed.

Lemma runAttempts_all_fail n k world job db e db' phone :
  phoneNumberOf (Db.findParent db (parentId job)) = Some phone ->
  truthy phone = true ->
  runAttempts n k world job db = (inl e, db') ->
  sameDirectory db db'
  /\ exists rows,
       Db.messages db' = Db.messages db ++ rows
       /\ length (recordsFor Db.Failed (phone, Db.RParent) rows) = n
       /\ length (recordsWith Db.Failed rows) = n.
Proof.
  revert k db. induction n as [|n IH]; intros k db Hp Ht.
  - intros [= <- <-]. split; [apply sameDirectory_refl|].
    exists []. now rewrite app_nil_r.
  - destruct n as [|n].
    + apply processSmsJob_failure_rows; assumption.
    + rewrite runAttempts_step. unfold try_catch.
      destruct (processSmsJob (world k) job db) as [[e1|res] db1] eqn:H1;
        [|discriminate].
      intros Hrest.
      apply (processSmsJob_failure_rows _ _ _ _ _ phone Hp Ht) in H1
        as (Hdir1 & rows1 & Hmsg1 & Hc1 & Hw1).
      apply IH in Hrest as (Hdir2 & rows2 & Hmsg2 & Hc2 & Hw2);
        [|now rewrite (sameDirectory_findParent _ _ _ Hdir1) | exact Ht].
      split; [exact (sameDirectory_trans _ _ _ Hdir1 Hdir2)|].
      exists (rows1 ++ rows2). split; [now rewrite Hmsg2, Hmsg1, app_assoc|].
      rewrite recordsFor_app, recordsWith_app, !length_app. lia.
Qed.

(** C3, as the code has it.  When all three attempts of a firing fail
    and the parent has a phone number, the firing adds exactly three
    [failed] rows to the Occurrence Store, all three for the parent:
    one for each failed attempt. *)
Theorem exhausted_retries_failed_rows world job db e db' phone :
  phoneNumberOf (Db.findParent db (parentId job)) = Some phone ->
  truthy phone = true ->
  runFiring world job db = (inl e, db') ->
  length (recordsFor Db.Failed (phone, Db.RParent) (newRecords db db')) = 3%nat
  /\ length (recordsWith Db.Failed (newRecords db db')) = 3%nat.
Proof.
  intros Hp Ht Hrun. unfold runFiring in Hrun.
  apply (runAttempts_all_fail _ _ _ _ _ _ _ phone Hp Ht) in Hrun
    as (_ & rows & Hmsg & Hc & Hw).
  now rewrite (newRecords_app _ _ _ Hmsg).
Qed.

(** The firing of the example family while Canvas throttles. *)
Definition throttledFiring : (Error + JobResult) * Db.t :=
  runFiring (fun _ => throttled) theJob (family childPhone [english]).

(** Three throttled attempts for the example family. *)
Lemma exhausted_retries_failed_rows_witness :
  length (recordsFor Db.Failed (parentPhone, Db.RParent)
            (newRecords (family childPhone [english]) (snd throttledFiring))) = 3%nat
  /\ length (recordsWith Db.Failed
               (newRecords (family childPhone [english]) (snd throttledFiring))) = 3%nat.
Proof.
  apply (exhausted_retries_failed_rows (fun _ => throttled) theJob
           (family childPhone [english])
           (lit "Canvas API error: Request failed with status code 429")
           (snd throttledFiring) parentPhone); vm_compute; reflexivity.
Defined.

(** C3 as stated fails: three throttled attempts leave three [failed]
    rows for the parent, not one. *)
Lemma three_rate_limits_three_failed_rows :
  fst (CanvasService.fetchTodoItems throttled (childId theJob)
         (family childPhone [english]))
  = inl (lit "Canvas API error: Request failed with status code 429")
  /\ fst throttledFiring
     = inl (lit "Canvas API error: Request failed with status code 429")
  /\ List.map summary (newRecords (family childPhone [english]) (snd throttledFiring))
     = [(Db.Failed, (parentPhone, Db.RParent));
        (Db.Failed, (parentPhone, Db.RParent));
        (Db.Failed, (parentPhone, Db.RParent))]
  /\ length (recordsFor Db.Failed (parentPhone, Db.RParent)
               (newRecords (family childPhone [english]) (snd throttledFiring)))
     <> 1%nat.
Proof. repeat split; try (vm_compute; reflexivity). vm_compute. discriminate. Qed.

(** ** Retries after failed attempts *)

Lemma summary_all_status st rs rows :
  List.map summary rows = List.map (fun r => (st, r)) rs ->
  Forall (fun m => Db.status m = st) rows.
Proof.
  revert rs. induction rows as [|m rows IH]; intros [|x rs] [=]; constructor.
  - assumption.
  - now apply (IH rs).
Qed.

(** When the fetch throws, the processor adds nothing but the
    [failed] row of the [catch] block. *)
Lemma processSmsJob_fetch_fails w job db e :
  fst (CanvasService.fetchTodoItems w (childId job) db) = inl e ->
  exists db' fails,
    processSmsJob w job db = (inl e, db')
    /\ sameDirectory db db'
    /\ Db.messages db' = Db.messages db ++ fails
    /\ Forall (fun m => Db.status m = Db.Failed) fails.
Proof.
  intros Hf. unfold processSmsJob, try_catch, processSmsJob_body, mbind, M_bind, bind.
  destruct (CanvasService.fetchTodoItems w (childId job) db) as [r db1] eqn:Hfetch.
  cbn [fst] in Hf. subst r.
  apply fetchTodoItems_effect in Hfetch as [Hdir Hmsg].
  destruct (logFailure_effect w job e db1) as (db2 & fails & -> & Hdir2 & Hmsg2 & Hfails).
  exists db2, fails. split; [reflexivity|].
  split; [exact (sameDirectory_trans _ _ _ Hdir Hdir2)|].
  split; [now rewrite Hmsg2, Hmsg|]. exact (summary_all_status _ _ _ Hfails).
Qed.


(** The database after the attempts [j], ..., [j + k - 1] of a firing
    were run on [db], whatever their outcome. *)
Fixpoint stateFrom (world : nat -> World) (job : SendSmsJobData) (j k : nat)
         (db : Db.t) : Db.t :=
  match k with
  | O => db
  | S k' => stateFrom world job (S j) k' (snd (processSmsJob (world j) job db))
  end.

(** The database before attempt [i] of a firing, attempts counted from
    0, and what attempt [i] does on it. *)
Definition before (world : nat -> World) (job : SendSmsJobData) (db : Db.t) (i : nat)
  : Db.t :=
  stateFrom world job 0 i db.






(** An attempt whose fetch fails has sent nothing. *)
Lemma failed_fetch_sends_nothing w job db e :
  fst (CanvasService.fetchTodoItems w (childId job) db) = inl e ->
  fst (processSmsJob w job db) = inl e
  /\ recordsWith Db.Sent (newRecords db (snd (processSmsJob w job db))) = [].
Proof.
  intros Hfetch.
  destruct (processSmsJob_fetch_fails _ _ _ _ Hfetch)
    as (db1 & fails & -> & _ & Hmsg & Hfails).
  cbn [fst snd]. split; [reflexivity|].
  rewrite (newRecords_app _ _ _ Hmsg).
  apply (recordsWith_other Db.Sent Db.Failed); [congruence | exact Hfails].
Qed.





(** ** One recipient with an invalid address *)

Definition invalidAddress : Error :=
  lit "Failed to send SMS: "
  ++ lit "Invalid phone number format (must be E.164: +1234567890)".

Lemma sameDirectory_formatMessage db db' now childId todos d :
  sameDirectory db db' ->
  formatMessage db' now childId todos d = formatMessage db now childId todos d.
Proof.
  intros (_ & _ & _ & Hc & _).
  unfold formatMessage, getCourseMap, Db.findActiveCourses. now rewrite Hc.
Qed.

Lemma sendSms_any_db w phone message db db' :
  TwilioService.sendSms w phone message db'
  = (fst (TwilioService.sendSms w phone message db), db').
Proof.
  unfold TwilioService.sendSms, try_catch, throw, ret.
  destruct (twilioInit w) as [e|[|]]; simpl; try reflexivity.
  destruct (TwilioService.validatePhoneNumber phone); simpl; try reflexivity.
  destruct (twilioCreate w phone message) as [e|sid]; try reflexivity.
  destruct (truthy_opt sid); reflexivity.
Qed.

Lemma sendSms_ok_init w phone message db sid :
  fst (TwilioService.sendSms w phone message db) = inr sid ->
  twilioInit w = inr true.
Proof.
  unfold TwilioService.sendSms, try_catch, throw, ret.
  destruct (twilioInit w) as [e|[|]]; simpl; [discriminate | reflexivity | discriminate].
Qed.

(** What it takes for a firing to resolve both recipients. *)
Lemma recipients_both db job pp cp :
  recipients db job = [(pp, Db.RParent); (cp, Db.RChild)] ->
  exists parent child,
    Db.findParent db (parentId job) = Some parent
    /\ Db.findChild db (childId job) = Some child
    /\ Db.parent_phoneNumber parent = Some pp /\ truthy pp = true
    /\ Db.child_phoneNumber child = Some cp
    /\ truthy cp
       && default false (Db.includeChildInSms <$> Db.findPreference db (parentId job))
       = true.
Proof.
  unfold recipients.
  destruct (Db.findParent db (parentId job)) as [parent|]; [|discriminate].
  destruct (Db.findChild db (childId job)) as [child|]; [|discriminate].
  destruct (Db.parent_phoneNumber parent) as [pp'|] eqn:Epp;
    [destruct (truthy pp') eqn:Ep|];
    (destruct (Db.child_phoneNumber child) as [cp'|] eqn:Ecp;
     [destruct (_ && _) eqn:Ec|]);
    cbn [app]; intros [=]; subst.
  exists parent, child. repeat split; assumption.
Qed.

(** The rows of the two outcomes. *)
Definition sentRow (w : World) (job : SendSmsJobData) (message : jsstring)
           (count : Z) (phone : jsstring) (who : Db.RecipientType) (sid : jsstring)
  : Db.Message :=
  {| Db.msg_childId := childId job;
     Db.msg_parentId := if truthy (parentId job) then Some (parentId job) else None;
     Db.messageBody := message;
     Db.recipientPhone := phone;
     Db.recipientType := who;
     Db.twilioSid := Some sid;
     Db.status := Db.Sent;
     Db.assignmentCount := count;
     Db.sentAt := now w |}.

Definition failedRow (w : World) (job : SendSmsJobData) (phone : jsstring)
  : Db.Message :=
  {| Db.msg_childId := childId job;
     Db.msg_parentId := if truthy (parentId job) then Some (parentId job) else None;
     Db.messageBody := [];
     Db.recipientPhone := phone;
     Db.recipientType := Db.RParent;
     Db.twilioSid := None;
     Db.status := Db.Failed;
     Db.assignmentCount := 0;
     Db.sentAt := now w |}.

(** An attempt of a firing that resolves both recipients, fetches its
    items and formats a valid message, when one of the two numbers is
    not a valid address. *)
Lemma invalid_address_cases w job db todos pp cp :
  fst (CanvasService.fetchTodoItems w (childId job) db) = inr todos ->
  valid (validateMessage
           (formatMessage db (now w) (childId job) todos (Some (now w))) 5) = true ->
  recipients db job = [(pp, Db.RParent); (cp, Db.RChild)] ->
  twilioInit w = inr true ->
  (forall sid,
     fst (TwilioService.sendSms w pp
            (formatMessage db (now w) (childId job) todos (Some (now w))) db)
     = inr sid ->
     TwilioService.validatePhoneNumber cp = false ->
     fst (processSmsJob w job db) = inl invalidAddress
     /\ newRecords db (snd (processSmsJob w job db))
        = [sentRow w job (formatMessage db (now w) (childId job) todos (Some (now w)))
                   (Z.of_nat (length todos)) pp Db.RParent sid;
           failedRow w job pp])
  /\ (TwilioService.validatePhoneNumber pp = false ->
      fst (processSmsJob w job db) = inl invalidAddress
      /\ newRecords db (snd (processSmsJob w job db)) = [failedRow w job pp]).
Proof.
  intros Hfetch Hvalid Hrec Hinit.
  apply recipients_both in Hrec as (parent & child & Hp & Hc & Hpp & Htp & Hcp & Hopt).
  destruct (CanvasService.fetchTodoItems w (childId job) db) as [r db1] eqn:Hf.
  cbn [fst] in Hfetch. subst r.
  pose proof Hf as Heff. apply fetchTodoItems_effect in Heff as [Hdir Hmsg].
  assert (Db.findParent db1 (parentId job) = Some parent) as Hp1
      by now rewrite (sameDirectory_findParent _ _ _ Hdir).
  assert (Db.findChild db1 (childId job) = Some child) as Hc1
      by (destruct Hdir as (_ & _ & Hch & _); unfold Db.findChild in *; now rewrite Hch).
  assert (Db.findPreference db1 (parentId job) = Db.findPreference db (parentId job))
    as Hpref1
      by (destruct Hdir as (_ & Hpr & _); unfold Db.findPreference; now rewrite Hpr).
  set (message := formatMessage db (now w) (childId job) todos (Some (now w))) in *.
  assert (processSmsJob w job db
          = try_catch
              (sendAndLog w job message (Z.of_nat (length todos)) pp Db.RParent;;
               sendAndLog w job message (Z.of_nat (length todos)) cp Db.RChild;;
               ret {| success := true;
                      res_assignmentCount := Z.of_nat (length todos);
                      messageLength := str_length message;
                      smsSegments := segments (validateMessage message 5) |})
              (logFailure w job) db1) as Hrun.
  { unfold processSmsJob, try_catch, processSmsJob_body at 1.
    unfold mbind at 1, M_bind at 1, bind at 1. rewrite Hf. cbv beta iota.
    unfold mbind at 1, M_bind at 1, bind at 1, gets at 1. cbv beta iota.
    rewrite (sameDirectory_formatMessage _ _ _ _ _ _ Hdir). fold message.
    rewrite Hvalid. cbn [negb].
    unfold mbind at 1, M_bind at 1, bind at 1, gets at 1. cbv beta iota.
    unfold mbind at 1, M_bind at 1, bind at 1, gets at 1. cbv beta iota.
    unfold mbind at 1, M_bind at 1, bind at 1, gets at 1. cbv beta iota.
    rewrite Hp1, Hc1, Hpref1, Hpp, Htp, Hcp, Hopt. reflexivity. }
  assert (Db.messages db1 = Db.messages db) as Hm by exact Hmsg.
  split.
  - intros sid Hsend Hvc.
    assert (processSmsJob w job db
            = (inl invalidAddress,
               Db.createMessage (failedRow w job pp)
                 (Db.createMessage
                    (sentRow w job message (Z.of_nat (length todos)) pp Db.RParent sid)
                    db1))) as ->.
    { rewrite Hrun.
      unfold try_catch, mbind, M_bind, bind, sendAndLog, mbind, M_bind, bind.
      rewrite (sendSms_any_db w pp message db db1), Hsend. cbv beta iota.
      unfold logMessage at 1, modify. cbv beta iota.
      rewrite (sendSms_invalid _ _ _ _ Hinit Hvc).
      unfold logFailure, mbind, M_bind, bind, gets, throw, logMessage, modify.
      cbv beta iota.
      replace (Db.findParent (Db.createMessage _ db1) (parentId job))
        with (Some parent) by (symmetry; exact Hp1).
      cbn [phoneNumberOf]. rewrite Hpp, Htp. reflexivity. }
    split; [reflexivity|]. apply newRecords_app. cbn [snd].
    now rewrite !createMessage_messages, Hm, <- app_assoc.
  - intros Hvp.
    assert (processSmsJob w job db
            = (inl invalidAddress, Db.createMessage (failedRow w job pp) db1)) as ->.
    { rewrite Hrun.
      unfold try_catch, mbind, M_bind, bind, sendAndLog, mbind, M_bind, bind.
      rewrite (sendSms_invalid _ _ _ _ Hinit Hvp).
      unfold logFailure, mbind, M_bind, bind, gets, throw, logMessage, modify.
      rewrite Hp1. cbn [phoneNumberOf]. rewrite Hpp, Htp. reflexivity. }
    split; [reflexivity|]. apply newRecords_app. cbn [snd].
    now rewrite createMessage_messages, Hm.
Qed.

(** C4, as the code has it.  Take an attempt of a firing that resolves
    both recipients, fetches its items and formats a valid message.
    When the send to the parent succeeds and the child's number is not
    a valid address, the attempt adds one [sent] row for the parent,
    which stays, and one [failed] row, recorded against the parent, and
    it is reported as failed: the error is thrown again for the queue
    to retry. *)
Theorem invalid_address_fails_attempt w job db todos pp cp sid :
  fst (CanvasService.fetchTodoItems w (childId job) db) = inr todos ->
  valid (validateMessage
           (formatMessage db (now w) (childId job) todos (Some (now w))) 5) = true ->
  recipients db job = [(pp, Db.RParent); (cp, Db.RChild)] ->
  fst (TwilioService.sendSms w pp
         (formatMessage db (now w) (childId job) todos (Some (now w))) db)
  = inr sid ->
  TwilioService.validatePhoneNumber cp = false ->
  fst (processSmsJob w job db) = inl invalidAddress
  /\ newRecords db (snd (processSmsJob w job db))
     = [sentRow w job (formatMessage db (now w) (childId job) todos (Some (now w)))
                (Z.of_nat (length todos)) pp Db.RParent sid;
        failedRow w job pp]
  /\ List.map summary (newRecords db (snd (processSmsJob w job db)))
     = [(Db.Sent, (pp, Db.RParent)); (Db.Failed, (pp, Db.RParent))].
Proof.
  intros Hfetch Hvalid Hrec Hsend Hvc.
  pose proof (sendSms_ok_init _ _ _ _ _ Hsend) as Hinit.
  destruct (proj1 (invalid_address_cases w job db todos pp cp
                     Hfetch Hvalid Hrec Hinit) sid Hsend Hvc) as [Hr Hn].
  split; [exact Hr|]. split; [exact Hn|]. now rewrite Hn.
Qed.

(** When the parent's number is not a valid address, the attempt adds
    the [failed] row alone: nothing is sent to the child. *)
Lemma invalid_parent_address_skips_child w job db todos pp cp :
  fst (CanvasService.fetchTodoItems w (childId job) db) = inr todos ->
  valid (validateMessage
           (formatMessage db (now w) (childId job) todos (Some (now w))) 5) = true ->
  recipients db job = [(pp, Db.RParent); (cp, Db.RChild)] ->
  twilioInit w = inr true ->
  TwilioService.validatePhoneNumber pp = false ->
  fst (processSmsJob w job db) = inl invalidAddress
  /\ newRecords db (snd (processSmsJob w job db)) = [failedRow w job pp].
Proof.
  intros Hfetch Hvalid Hrec Hinit Hvp.
  exact (proj2 (invalid_address_cases w job db todos pp cp
                  Hfetch Hvalid Hrec Hinit) Hvp).
Qed.

(** One attempt for the family whose child number is not valid. *)
Lemma invalid_address_fails_attempt_witness :
  fst (processSmsJob calm theJob (family badPhone [english])) = inl invalidAddress
  /\ List.map summary
       (newRecords (family badPhone [english])
          (snd (processSmsJob calm theJob (family badPhone [english]))))
     = [(Db.Sent, (parentPhone, Db.RParent)); (Db.Failed, (parentPhone, Db.RParent))].
Proof.
  destruct (invalid_address_fails_attempt calm theJob
              (family badPhone [english]) [essay] parentPhone badPhone (lit "SM01")
              ltac:(vm_compute; reflexivity) ltac:(vm_compute; reflexivity)
              ltac:(vm_compute; reflexivity) ltac:(vm_compute; reflexivity)
              ltac:(vm_compute; reflexivity))
    as (Hr & _ & Hs).
  split; [exact Hr | exact Hs].
Defined.

(** C4 as stated fails.  With a valid parent number and an invalid
    child number, the firing is reported as failed and, over its three
    attempts, leaves three [sent] and three [failed] rows, all of them
    for the parent.  With an invalid parent number and a valid child
    number, nothing is ever sent to the child. *)
Lemma invalid_address_fails_firing :
  let db := family badPhone [english] in
  let run := runFiring (fun _ => calm) theJob db in
  let db2 := familyOf badPhone childPhone [english] in
  let run2 := runFiring (fun _ => calm) theJob db2 in
  (recipients db theJob = [(parentPhone, Db.RParent); (badPhone, Db.RChild)]
   /\ TwilioService.validatePhoneNumber parentPhone = true
   /\ TwilioService.validatePhoneNumber badPhone = false
   /\ fst run = inl invalidAddress
   /\ List.map summary (newRecords db (snd run))
      = [(Db.Sent, (parentPhone, Db.RParent)); (Db.Failed, (parentPhone, Db.RParent));
         (Db.Sent, (parentPhone, Db.RParent)); (Db.Failed, (parentPhone, Db.RParent));
         (Db.Sent, (parentPhone, Db.RParent)); (Db.Failed, (parentPhone, Db.RParent))]
   /\ ~ (length (recordsWith Db.Sent (newRecords db (snd run))) = 1%nat
         /\ length (recordsWith Db.Failed (newRecords db (snd run))) = 1%nat
         /\ exists res, fst run = inr res))
  /\ (recipients db2 theJob = [(badPhone, Db.RParent); (childPhone, Db.RChild)]
      /\ TwilioService.validatePhoneNumber childPhone = true
      /\ fst run2 = inl invalidAddress
      /\ recordsFor Db.Sent (childPhone, Db.RChild) (newRecords db2 (snd run2)) = []).
Proof.
  cbv zeta. split.
  - repeat split; try (vm_compute; reflexivity).
    intros (Hs & _). vm_compute in Hs. discriminate.
  - repeat split; vm_compute; reflexivity.
Qed.

End WorkerProps.

(* ===================================================================== *)
(** * Further properties of the formatting service                        *)
(* ===================================================================== *)

Module FormattingFacts.

Import Fixtures FormattingProps.

(** A preview never exceeds [maxLength], and previewing a preview
    changes nothing. *)
Theorem formatPreview_idempotent (message : jsstring) (maxLength : Z) :
  3 <= maxLength ->
  str_length (formatPreview message maxLength) <= maxLength
  /\ formatPreview (formatPreview message maxLength) maxLength
     = formatPreview message maxLength.
Proof.
  intros Hmax.
  assert (str_length (formatPreview message maxLength) <= maxLength) as Hlen.
  { unfold formatPreview.
    destruct (Z.leb_spec (str_length message) maxLength) as [Hle|Hgt]; [exact Hle|].
    rewrite substring_prefix by lia.
    unfold str_length in *. rewrite length_app, length_take. simpl. lia. }
  split; [exact Hlen|].
  unfold formatPreview at 1. apply Z.leb_le in Hlen. now rewrite Hlen.
Qed.

(** A long assignment list previewed at twenty characters. *)
Lemma formatPreview_idempotent_witness :
  formatPreview (formatPreview essayMessage 20) 20 = formatPreview essayMessage 20.
Proof. apply (formatPreview_idempotent essayMessage 20). lia. Defined.

(** Below three the limit is not kept: a message longer than
    [maxLength] is previewed as the three dots alone. *)
Theorem formatPreview_small_limit (message : jsstring) (maxLength : Z) :
  maxLength < 3 ->
  maxLength < str_length message ->
  formatPreview message maxLength = lit "...".
Proof.
  intros Hmax Hlen. unfold formatPreview.
  destruct (Z.leb_spec (str_length message) maxLength); [lia|].
  unfold substring, clamp.
  replace (Z.max 0 (Z.min 0 (str_length message))) with 0
    by (unfold str_length; lia).
  replace (Z.max 0 (Z.min (maxLength - 3) (str_length message))) with 0
    by (unfold str_length; lia).
  reflexivity.
Qed.

Lemma formatPreview_small_limit_witness :
  formatPreview (lit "Hello") 2 = lit "..."
  /\ formatPreview (lit "Hello") (-1) = lit "...".
Proof.
  split.
  - apply (formatPreview_small_limit (lit "Hello") 2); vm_compute; reflexivity.
  - apply (formatPreview_small_limit (lit "Hello") (-1)); vm_compute; reflexivity.
Defined.

Lemma is_ceil_mono (q q' a a' b b' : Z) :
  0 < b' <= b -> a <= a' -> 0 <= a ->
  is_ceil q a b -> is_ceil q' a' b' -> q <= q'.
Proof.
  unfold is_ceil. intros Hb Ha H0 [H1 H2] [H3 H4].
  destruct (Z.le_gt_cases q q') as [Hle|Hgt]; [exact Hle|].
  assert (0 <= q') as Hq' by nia.
  assert (b * q' <= b * (q - 1)) by nia.
  assert (b' * q' <= b * q') by nia.
  lia.
Qed.

Lemma hasUnicode_app (a b : jsstring) :
  hasUnicode (a ++ b) = hasUnicode a || hasUnicode b.
Proof. unfold hasUnicode. apply existsb_app. Qed.

(** Appending text to a message never lowers its segment count, also
    when the appended text brings in the first non-ASCII character. *)
Theorem countSmsSegments_monotone (message more : jsstring) :
  countSmsSegments message <= countSmsSegments (message ++ more).
Proof.
  pose proof (countSmsSegments_pos (message ++ more)) as Hpos.
  unfold countSmsSegments in *. rewrite hasUnicode_app in *.
  assert (str_length message <= str_length (message ++ more)) as Hlen
      by (unfold str_length; rewrite length_app; lia).
  assert (0 <= str_length message) as H0 by (unfold str_length; lia).
  set (L := str_length message) in *. set (L' := str_length (message ++ more)) in *.
  destruct (hasUnicode message), (hasUnicode more); cbn [orb] in *;
    repeat match goal with
           | |- context [?a <=? ?b] => destruct (Z.leb_spec a b)
           | H : context [?a <=? ?b] |- _ => destruct (Z.leb_spec a b)
           end;
    try lia;
    match goal with
    | |- ceil_div L ?b <= ceil_div L' ?b' =>
        apply (is_ceil_mono _ _ L L' b b'); try lia;
        apply ceil_div_is_ceil; lia
    end.
Qed.

Lemma ceil_div_le (a b k : Z) : 0 < b -> (ceil_div a b <= k <-> a <= b * k).
Proof.
  intros Hb. pose proof (ceil_div_is_ceil a b Hb) as [H1 H2]. split; intros H; nia.
Qed.

(** Under the default limit of five segments a message is valid exactly
    when it is not blank and has at most 765 characters, or at most 335
    when one of them is not ASCII. *)
Theorem validateMessage_default_capacity (message : jsstring) :
  valid (validateMessage message 5) = true
  <-> trim message <> []
      /\ str_length message <= (if hasUnicode message then 335 else 765).
Proof.
  assert (countSmsSegments message <= 5
          <-> str_length message <= (if hasUnicode message then 335 else 765)) as Hcap.
  { unfold countSmsSegments. destruct (hasUnicode message).
    - destruct (Z.leb_spec (str_length message) 70); [lia|].
      rewrite ceil_div_le by lia. lia.
    - destruct (Z.leb_spec (str_length message) 160); [lia|].
      rewrite ceil_div_le by lia. lia. }
  rewrite <- Hcap. clear Hcap.
  unfold validateMessage, str_length.
  destruct (trim message) as [|c t] eqn:Et; simpl;
    destruct (Z.ltb_spec 5 (countSmsSegments message)); simpl;
    split; try discriminate; try tauto; try lia; try (intros [? ?]; lia).
  intros _. split; [discriminate | lia].
Qed.

Lemma foldl_blocks (f : ParsedTodoItem -> jsstring) (acc : jsstring)
      (todos : list ParsedTodoItem) :
  foldl (fun message todo => message ++ f todo) acc todos
  = acc ++ concat (List.map f todos).
Proof.
  revert acc. induction todos as [|t ts IH]; intros acc; cbn [foldl List.map concat].
  - now rewrite app_nil_r.
  - rewrite IH. now rewrite <- app_assoc.
Qed.

(** The message of a non-empty list is the header followed by the
    blocks of the items in the order given: nothing is sorted, merged or
    dropped. *)
Theorem formatMessage_blocks_in_order (db : Db.t) (now d : Date) (childId : jsstring)
        (todos : list ParsedTodoItem) :
  todos <> [] ->
  formatMessage db now childId todos (Some d)
  = header d ++ concat (List.map (formatBlock (getCourseMap db childId)) todos).
Proof.
  intros Hne. unfold formatMessage. destruct todos as [|t ts]; [congruence|].
  now rewrite foldl_blocks.
Qed.

(** Two items handed over latest first stay latest first. *)
Lemma formatMessage_blocks_in_order_witness :
  formatMessage (family childPhone [english]) feb18 (lit "c1") [itemLate; itemA]
                (Some feb18)
  = header feb18
    ++ formatBlock (getCourseMap (family childPhone [english]) (lit "c1")) itemLate
    ++ formatBlock (getCourseMap (family childPhone [english]) (lit "c1")) itemA.
Proof.
  rewrite (formatMessage_blocks_in_order (family childPhone [english]) feb18 feb18
             (lit "c1") [itemLate; itemA]) by discriminate.
  cbn [List.map concat]. now rewrite app_nil_r.
Defined.

Lemma trimStart_snoc (l : jsstring) (c : N) :
  is_whitespace c = false -> trimStart (l ++ [c]) <> [].
Proof.
  intros Hc. induction l as [|x l IH]; cbn [app trimStart].
  - now rewrite Hc.
  - destruct (is_whitespace x); [exact IH | discriminate].
Qed.

Lemma trim_cons (c : N) (s : jsstring) :
  is_whitespace c = false -> trim (c :: s) <> [].
Proof.
  intros Hc. unfold trim, trimEnd. cbn [trimStart]. rewrite Hc.
  intros Hnil. apply (f_equal (@rev N)) in Hnil. rewrite rev_involutive in Hnil.
  cbn [rev] in Hnil. now apply (trimStart_snoc (rev s) c Hc).
Qed.

Lemma formatMessage_head (db : Db.t) (now : Date) (childId : jsstring)
      (todos : list ParsedTodoItem) (currentDate : option Date) :
  exists rest, formatMessage db now childId todos currentDate = 65%N :: rest.
Proof.
  unfold formatMessage. destruct todos as [|t ts].
  - eexists. reflexivity.
  - rewrite foldl_blocks. eexists. reflexivity.
Qed.

Lemma formatMessage_trim (db : Db.t) (now : Date) (childId : jsstring)
      (todos : list ParsedTodoItem) (currentDate : option Date) :
  trim (formatMessage db now childId todos currentDate) <> [].
Proof.
  destruct (formatMessage_head db now childId todos currentDate) as [rest ->].
  now apply trim_cons.
Qed.

(** A formatted message is never blank, so [validateMessage] never
    rejects it as empty: it is valid exactly when its segment count is
    within the limit. *)
Theorem formatMessage_never_blank (db : Db.t) (now : Date) (childId : jsstring)
        (todos : list ParsedTodoItem) (currentDate : option Date) (maxSegments : Z) :
  trim (formatMessage db now childId todos currentDate) <> []
  /\ (valid (validateMessage (formatMessage db now childId todos currentDate)
                             maxSegments) = true
      <-> countSmsSegments (formatMessage db now childId todos currentDate)
          <= maxSegments).
Proof.
  pose proof (formatMessage_trim db now childId todos currentDate) as Hne.
  split; [exact Hne|].
  unfold validateMessage, str_length.
  destruct (trim (formatMessage db now childId todos currentDate)) as [|c t];
    [congruence|]. simpl.
  destruct (Z.ltb_spec maxSegments
              (countSmsSegments (formatMessage db now childId todos currentDate)));
    simpl; split; try discriminate; try lia; reflexivity.
Qed.

(** The shape [dddd-dd-dd]: ten characters, digits but for the two dashes. *)
Definition isDateShape (s : jsstring) : bool :=
  match s with
  | [y1; y2; y3; y4; a; m1; m2; b; d1; d2] =>
      forallb TwilioService.is_digit [y1; y2; y3; y4; m1; m2; d1; d2]
      && (a =? 45)%N && (b =? 45)%N
  | _ => false
  end.

Definition isDigits (n : nat) (s : jsstring) : bool :=
  Nat.eqb (length s) n && forallb TwilioService.is_digit s.

Lemma range_check (P : Z -> bool) (lo len z : Z) :
  forallb P (List.map (fun i => lo + Z.of_nat i) (seq 0 (Z.to_nat len))) = true ->
  lo <= z < lo + len -> P z = true.
Proof.
  intros Hall Hz. rewrite forallb_forall in Hall. apply Hall.
  apply in_map_iff. exists (Z.to_nat (z - lo)). split; [lia|]. apply in_seq. lia.
Qed.

Lemma isDateShape_parts (y m d : jsstring) :
  isDigits 4 y = true -> isDigits 2 m = true -> isDigits 2 d = true ->
  isDateShape (y ++ lit "-" ++ m ++ lit "-" ++ d) = true.
Proof.
  unfold isDigits. intros Hy Hm Hd.
  apply andb_true_iff in Hy as [Hy1 Hy2]. apply Nat.eqb_eq in Hy1.
  apply andb_true_iff in Hm as [Hm1 Hm2]. apply Nat.eqb_eq in Hm1.
  apply andb_true_iff in Hd as [Hd1 Hd2]. apply Nat.eqb_eq in Hd1.
  destruct y as [|y1 [|y2 [|y3 [|y4 [|? ?]]]]]; try discriminate.
  destruct m as [|m1 [|m2 [|? ?]]]; try discriminate.
  destruct d as [|d1 [|d2 [|? ?]]]; try discriminate.
  change (lit "-") with [45%N].
  cbn [app forallb isDateShape] in *.
  repeat match goal with
         | H : _ && _ = true |- _ => apply andb_true_iff in H as [? ?]
         end.
  repeat match goal with
         | H : TwilioService.is_digit _ = true |- _ => rewrite H; clear H
         end.
  reflexivity.
Qed.

(** For a date whose year has four digits the header date has the
    shape [dddd-dd-dd]: month and day are padded to two digits. *)
Theorem formatDateYYYYMMDD_shape (date : Date) :
  1000 <= getFullYear date <= 9999 ->
  0 <= getMonth date <= 11 ->
  1 <= getDate date <= 31 ->
  isDateShape (formatDateYYYYMMDD date) = true
  /\ str_length (formatDateYYYYMMDD date) = 10.
Proof.
  intros Hy Hm Hd.
  assert (isDateShape (formatDateYYYYMMDD date) = true) as Hshape.
  { unfold formatDateYYYYMMDD. apply isDateShape_parts.
    - apply (range_check (fun y => isDigits 4 (of_Z y)) 1000 9000);
        [vm_compute; reflexivity | lia].
    - apply (range_check (fun m => isDigits 2 (padStart0 2 (of_Z (m + 1)))) 0 12);
        [vm_compute; reflexivity | lia].
    - apply (range_check (fun d => isDigits 2 (padStart0 2 (of_Z d))) 1 31);
        [vm_compute; reflexivity | lia]. }
  split; [exact Hshape|].
  unfold isDateShape in Hshape.
  destruct (formatDateYYYYMMDD date)
    as [|? [|? [|? [|? [|? [|? [|? [|? [|? [|? [|? ?]]]]]]]]]]]; try discriminate.
  reflexivity.
Qed.

Lemma formatDateYYYYMMDD_shape_witness :
  isDateShape (formatDateYYYYMMDD (mkDate 2026 0 5)) = true
  /\ str_length (formatDateYYYYMMDD (mkDate 2026 0 5)) = 10.
Proof. apply (formatDateYYYYMMDD_shape (mkDate 2026 0 5)); cbn; lia. Defined.

Example formatDateYYYYMMDD_pads : formatDateYYYYMMDD (mkDate 2026 0 5) = lit "2026-01-05".
Proof. vm_compute. reflexivity. Qed.

End FormattingFacts.

(* ===================================================================== *)
(** * Further properties of the Canvas service                            *)
(* ===================================================================== *)

Module CanvasFacts.

Import Fixtures CanvasService SortProps WorkerProps.

Lemma split_sep (sep : N) (a b : jsstring) :
  sep ∉ a -> split sep (a ++ sep :: b) = a :: split sep b.
Proof.
  induction a as [|c a IH]; intros Hnot; cbn [app split].
  - now rewrite N.eqb_refl.
  - apply not_elem_of_cons in Hnot as [Hc Ha].
    destruct (N.eqb_spec c sep) as [->|_]; [congruence|].
    now rewrite (IH Ha).
Qed.

Lemma split_no_sep (sep : N) (a : jsstring) : sep ∉ a -> split sep a = [a].
Proof.
  induction a as [|c a IH]; intros Hnot; cbn [split]; [reflexivity|].
  apply not_elem_of_cons in Hnot as [Hc Ha].
  destruct (N.eqb_spec c sep) as [->|_]; [congruence|].
  now rewrite (IH Ha).
Qed.

(** The first field of a split holds no separator and starts the text. *)
Lemma split_head (sep : N) (s : jsstring) :
  exists d rest tail, split sep s = d :: rest /\ (sep ∉ d) /\ s = d ++ tail.
Proof.
  induction s as [|c s (d & rest & tail & Hs & Hd & Heq)]; cbn [split].
  - exists [], [], []. repeat split. apply not_elem_of_nil.
  - destruct (N.eqb_spec c sep) as [->|Hne].
    + exists [], (split sep s), (sep :: s). repeat split. apply not_elem_of_nil.
    + rewrite Hs. exists (c :: d), rest, tail. repeat split.
      * apply not_elem_of_cons. split; [congruence | exact Hd].
      * cbn [app]. now rewrite <- Heq.
Qed.

(** [formatDueDate] cuts an ISO timestamp down to its date: the text
    before the first [T].  A text without a [T] is returned whole. *)
Theorem formatDueDate_date_part (date rest : jsstring) :
  84%N ∉ date ->
  formatDueDate (date ++ 84%N :: rest) = date
  /\ formatDueDate date = date.
Proof.
  intros Hnot. unfold formatDueDate. split.
  - destruct (date ++ 84%N :: rest) as [|c s] eqn:E.
    + now destruct date.
    + cbn [truthy negb]. rewrite <- E. now rewrite split_sep.
  - destruct date as [|c s]; [reflexivity|]. cbn [truthy negb].
    now rewrite split_no_sep.
Qed.

Lemma formatDueDate_date_part_witness :
  formatDueDate (lit "2026-02-17T23:59:00Z") = lit "2026-02-17".
Proof.
  apply (formatDueDate_date_part (lit "2026-02-17") (lit "23:59:00Z")).
  vm_compute. intros Hin.
  repeat (apply elem_of_cons in Hin as [Hin|Hin]; [discriminate|]).
  now apply elem_of_nil in Hin.
Defined.

Lemma formatDueDate_prefix (s : jsstring) :
  (84%N ∉ formatDueDate s) /\ exists tail, s = formatDueDate s ++ tail.
Proof.
  unfold formatDueDate. destruct s as [|c s].
  - split; [apply not_elem_of_nil | now exists []].
  - cbn [truthy negb].
    destruct (split_head 84%N (c :: s)) as (d & rest & tail & -> & Hd & Heq).
    split; [exact Hd | now exists tail].
Qed.

(** An item of the response that [parseTodoItems] keeps. *)
Definition hasDueDate (item : CanvasTodoItem) : bool :=
  match assignment item with
  | Some a => truthy_opt (due_at a)
  | None => false
  end.

(** [parseTodoItems] keeps the items that have an assignment with a
    non-empty due date, all of them and in the order received; a parsed
    item has a non-empty [dueAt], and its [dueDate] is the start of
    [dueAt] and holds no [T]. *)
Theorem parseTodoItems_keeps_due_items (items more : list CanvasTodoItem) :
  length (parseTodoItems items) = length (List.filter hasDueDate items)
  /\ parseTodoItems (items ++ more) = parseTodoItems items ++ parseTodoItems more
  /\ Forall (fun p => dueAt p <> []
                      /\ (84%N ∉ dueDate p)
                      /\ exists tail, dueAt p = dueDate p ++ tail)
            (parseTodoItems items).
Proof.
  split; [|split].
  - unfold parseTodoItems, hasDueDate.
    induction items as [|item items IH]; [reflexivity|].
    cbn [omap list_omap List.filter].
    destruct (assignment item) as [a|]; [|exact IH].
    destruct (truthy_opt (due_at a)); cbn [length]; now rewrite IH.
  - unfold parseTodoItems. apply omap_app.
  - unfold parseTodoItems.
    induction items as [|item items IH]; [constructor|].
    cbn [omap list_omap].
    destruct (assignment item) as [a|]; [|exact IH].
    destruct (due_at a) as [d|] eqn:Ed; cbn [truthy_opt]; [|exact IH].
    destruct (truthy d) eqn:Et; [|exact IH].
    constructor; [|exact IH]. cbn.
    unfold due_at_or_empty. rewrite Ed.
    split; [now destruct d|]. apply formatDueDate_prefix.
Qed.

(** What [markTokenInvalid] does to a token row. *)
Definition invalidated (childId : jsstring) (k : Db.CanvasToken) : Db.CanvasToken :=
  if Js.eqb (Db.token_childId k) childId
  then {| Db.token_childId := Db.token_childId k;
          Db.encryptedToken := Db.encryptedToken k;
          Db.encryptionIv := Db.encryptionIv k;
          Db.authTag := Db.authTag k;
          Db.isValid := false |}
  else k.

Lemma findCanvasToken_invalidate (db : Db.t) (marked childId : jsstring) :
  Db.findCanvasToken (Db.invalidateToken marked db) childId
  = invalidated marked <$> Db.findCanvasToken db childId.
Proof.
  unfold Db.findCanvasToken, Db.invalidateToken. cbn [Db.canvasTokens].
  induction (Db.canvasTokens db) as [|k ks IH]; [reflexivity|].
  cbn [List.map List.find].
  assert (Db.token_childId
            (if Js.eqb (Db.token_childId k) marked
             then {| Db.token_childId := Db.token_childId k;
                     Db.encryptedToken := Db.encryptedToken k;
                     Db.encryptionIv := Db.encryptionIv k;
                     Db.authTag := Db.authTag k;
                     Db.isValid := false |}
             else k) = Db.token_childId k) as ->
      by now destruct (Js.eqb (Db.token_childId k) marked).
  destruct (Js.eqb (Db.token_childId k) childId); [reflexivity | exact IH].
Qed.

Definition tokenExpired : Error := lit "Canvas token is invalid or expired".

(** When Canvas answers 401, [fetchTodoItems] marks the token of that
    child invalid, leaves the tokens of other children as they are, and
    throws [Canvas token is invalid or expired]. *)
Theorem fetchTodoItems_401_marks_token (w : World) (childId : jsstring) (db : Db.t)
        (child : Db.Child) (tok : Db.CanvasToken) (token message : jsstring) :
  Db.findChild db childId = Some child ->
  Db.findCanvasToken db childId = Some tok ->
  decrypt w (Db.encryptedToken tok) (Db.encryptionIv tok) (Db.authTag tok)
  = Some token ->
  canvasGet w (lit "https://" ++ Db.canvasDomain child ++ lit "/api/v1/users/self/todo")
            token
  = AxiosError (Some 401) message ->
  fetchTodoItems w childId db = (inl tokenExpired, Db.invalidateToken childId db)
  /\ Db.isValid <$> Db.findCanvasToken (Db.invalidateToken childId db) childId
     = Some false
  /\ forall other, other <> childId ->
       Db.findCanvasToken (Db.invalidateToken childId db) other
       = Db.findCanvasToken db other.
Proof.
  intros Hc Ht Hd Hg. split; [|split].
  - unfold fetchTodoItems, markTokenInvalid, mbind, M_bind, bind, gets, modify, throw.
    rewrite Hc, Ht, Hd, Hg. reflexivity.
  - rewrite findCanvasToken_invalidate, Ht. cbn. unfold invalidated.
    unfold Db.findCanvasToken in Ht. apply find_some in Ht as [_ Hkey].
    now rewrite Hkey.
  - intros other Hne. rewrite findCanvasToken_invalidate.
    destruct (Db.findCanvasToken db other) as [k|] eqn:Ek; [|reflexivity].
    cbn. unfold invalidated.
    unfold Db.findCanvasToken in Ek. apply find_some in Ek as [_ Hkey].
    apply SchedulerProps.eqb_eq in Hkey.
    unfold Js.eqb. rewrite bool_decide_eq_false_2 by congruence. reflexivity.
Qed.

(** Canvas rejects the token of the example family. *)
Definition rejecting : World :=
  {| now := feb18;
     getTime := isoTime;
     decrypt := fun _ _ _ => Some (lit "canvas-token");
     canvasGet := fun _ _ =>
       AxiosError (Some 401) (lit "Request failed with status code 401");
     twilioInit := inr true;
     twilioCreate := fun _ _ => inr (Some (lit "SM01")) |}.

Lemma fetchTodoItems_401_marks_token_witness :
  fst (fetchTodoItems rejecting (lit "c1") (family childPhone [])) = inl tokenExpired
  /\ Db.isValid
       <$> Db.findCanvasToken
             (snd (fetchTodoItems rejecting (lit "c1") (family childPhone []))) (lit "c1")
     = Some false.
Proof.
  destruct (fetchTodoItems_401_marks_token rejecting (lit "c1") (family childPhone [])
              (Db.mkChild (lit "c1") (Some childPhone) (lit "school.instructure.com"))
              (Db.mkCanvasToken (lit "c1") (lit "00ff") (lit "0a") (lit "0b") true)
              (lit "canvas-token") (lit "Request failed with status code 401")
              ltac:(vm_compute; reflexivity) ltac:(vm_compute; reflexivity)
              ltac:(reflexivity) ltac:(reflexivity))
    as (Hrun & Hflag & _).
  rewrite Hrun. split; [reflexivity | exact Hflag].
Defined.

(** [fetchTodoItems] writes to the database in that one case only: a
    fetch that returns, or that throws anything but the expired-token
    error, leaves the database exactly as it was. *)
Theorem fetchTodoItems_writes_only_on_401 (w : World) (childId : jsstring) (db : Db.t) :
  fst (fetchTodoItems w childId db) <> inl tokenExpired ->
  snd (fetchTodoItems w childId db) = db.
Proof.
  unfold fetchTodoItems, markTokenInvalid, mbind, M_bind, bind, gets, modify, throw, ret.
  destruct (Db.findChild db childId); [|reflexivity].
  destruct (Db.findCanvasToken db childId) as [tok|]; [|reflexivity].
  destruct (decrypt w _ _ _); [|reflexivity].
  destruct (canvasGet w _ _) as [data|st msg]; [reflexivity|].
  destruct (bool_decide (st = Some 401)); [|reflexivity].
  cbn [fst snd]. intros Hne. now contradiction Hne.
Qed.

Lemma fetchTodoItems_writes_only_on_401_witness :
  snd (fetchTodoItems throttled (lit "c1") (family childPhone []))
  = family childPhone []
  /\ snd (fetchTodoItems calm (lit "c1") (family childPhone []))
     = family childPhone [].
Proof.
  split.
  - apply (fetchTodoItems_writes_only_on_401 throttled). vm_compute. discriminate.
  - apply (fetchTodoItems_writes_only_on_401 calm). vm_compute. discriminate.
Defined.

(** [fetchTodoItems] never reads the [isValid] flag: marking a token
    invalid, for this child or any other, changes nothing of what a
    later fetch returns or throws. *)
Theorem fetchTodoItems_ignores_isValid (w : World) (childId marked : jsstring)
        (db : Db.t) :
  fst (fetchTodoItems w childId (Db.invalidateToken marked db))
  = fst (fetchTodoItems w childId db).
Proof.
  unfold fetchTodoItems, markTokenInvalid, mbind, M_bind, bind, gets, modify, throw, ret.
  change (Db.findChild (Db.invalidateToken marked db) childId)
    with (Db.findChild db childId).
  destruct (Db.findChild db childId); [|reflexivity].
  rewrite findCanvasToken_invalidate.
  destruct (Db.findCanvasToken db childId) as [tok|]; [|reflexivity].
  cbn [fmap option_fmap option_map].
  assert (Db.encryptedToken (invalidated marked tok) = Db.encryptedToken tok
          /\ Db.encryptionIv (invalidated marked tok) = Db.encryptionIv tok
          /\ Db.authTag (invalidated marked tok) = Db.authTag tok) as (-> & -> & ->)
      by (unfold invalidated; now destruct (Js.eqb _ _)).
  destruct (decrypt w _ _ _); [|reflexivity].
  destruct (canvasGet w _ _) as [data|st msg]; [reflexivity|].
  destruct (bool_decide (st = Some 401)); reflexivity.
Qed.

(** What a successful fetch returns: the items of the response that
    have a due date, rearranged, and in ascending order of due instant
    when all the due dates are valid. *)
Theorem fetchTodoItems_returns_sorted_items (w : World) (childId : jsstring)
        (db : Db.t) (todos : list ParsedTodoItem) :
  fst (fetchTodoItems w childId db) = inr todos ->
  exists url token data,
    canvasGet w url token = AxiosOk data
    /\ Permutation todos (parseTodoItems data)
    /\ (Forall (validDue (getTime w)) (parseTodoItems data) ->
        StronglySorted (fun a b => dueTime (getTime w) a <= dueTime (getTime w) b)
                       todos).
Proof.
  unfold fetchTodoItems, markTokenInvalid, mbind, M_bind, bind, gets, modify, throw, ret.
  destruct (Db.findChild db childId) as [child|]; [|discriminate].
  destruct (Db.findCanvasToken db childId) as [tok|]; [|discriminate].
  destruct (decrypt w _ _ _) as [token|]; [|discriminate].
  destruct (canvasGet w _ token) as [data|st msg] eqn:Hget.
  - intros [= <-]. eexists _, token, data. split; [exact Hget|].
    unfold sortByDueDate. split; [apply sort_perm|].
    intros Hvalid. eapply sort_sorted; [|exact Hvalid]. apply compareDue_key.
  - destruct (bool_decide (st = Some 401)); discriminate.
Qed.

(** A week with three items, which Canvas lists with the latest
    first. *)
Definition projectRaw : CanvasTodoItem :=
  {| todo_type := submitting;
     assignment := Some {| assignment_id := 9;
                           name := lit "Science project";
                           due_at := Some (lit "2026-02-27T17:00:00Z");
                           assignment_course_id := 202 |};
     course_id := 202;
     context_type := lit "Course" |}.

Definition quizRaw : CanvasTodoItem :=
  {| todo_type := submitting;
     assignment := Some {| assignment_id := 8;
                           name := lit "Algebra quiz";
                           due_at := Some (lit "2026-02-23T08:00:00Z");
                           assignment_course_id := 303 |};
     course_id := 303;
     context_type := lit "Course" |}.

Definition project : ParsedTodoItem :=
  {| type := lit "submitting"; assignmentName := lit "Science project";
     dueAt := lit "2026-02-27T17:00:00Z"; dueDate := lit "2026-02-27";
     courseId := lit "202" |}.

Definition quiz : ParsedTodoItem :=
  {| type := lit "submitting"; assignmentName := lit "Algebra quiz";
     dueAt := lit "2026-02-23T08:00:00Z"; dueDate := lit "2026-02-23";
     courseId := lit "303" |}.

Definition fullWeek : World :=
  {| now := feb18;
     getTime := isoTime;
     decrypt := fun _ _ _ => Some (lit "canvas-token");
     canvasGet := fun _ _ => AxiosOk [projectRaw; quizRaw; essayRaw];
     twilioInit := inr true;
     twilioCreate := fun _ _ => inr (Some (lit "SM01")) |}.

(** The fetch of the full week returns the quiz, the essay and the
    project, in that order: the three items of the response, rearranged
    by due instant. *)
Lemma fetchTodoItems_returns_sorted_items_witness :
  fst (fetchTodoItems fullWeek (lit "c1") (family childPhone []))
  = inr [quiz; essay; project]
  /\ Permutation [quiz; essay; project] (parseTodoItems [projectRaw; quizRaw; essayRaw])
  /\ StronglySorted (fun a b => dueTime isoTime a <= dueTime isoTime b)
                    [quiz; essay; project].
Proof.
  assert (fst (fetchTodoItems fullWeek (lit "c1") (family childPhone []))
          = inr [quiz; essay; project]) as Hfetch by (vm_compute; reflexivity).
  split; [exact Hfetch|].
  destruct (fetchTodoItems_returns_sorted_items fullWeek (lit "c1")
              (family childPhone []) [quiz; essay; project] Hfetch)
    as (url & token & data & Hget & Hperm & Hsorted).
  injection Hget as <-. split; [exact Hperm|].
  apply Hsorted. repeat constructor; vm_compute; eauto.
Defined.

End CanvasFacts.

(* ===================================================================== *)
(** * Further properties of the Twilio service                            *)
(* ===================================================================== *)

Module TwilioFacts.

Import Fixtures TwilioService TwilioBulk WorkerProps.

(** The numbers [validatePhoneNumber] accepts: a plus sign followed by
    2 to 15 decimal digits, the first of which is not zero.  Spaces,
    dashes, parentheses and a missing plus sign are all refused. *)
Theorem validatePhoneNumber_accepts (phoneNumber : jsstring) :
  validatePhoneNumber phoneNumber = true
  <-> exists digits,
        phoneNumber = 43%N :: digits
        /\ forallb is_digit digits = true
        /\ (2 <= length digits <= 15)%nat
        /\ head digits <> Some 48%N.
Proof.
  unfold validatePhoneNumber. split.
  - destruct phoneNumber as [|plus [|d rest]]; try discriminate.
    rewrite !andb_true_iff, N.eqb_eq, !N.leb_le, !Nat.leb_le.
    intros [[[[-> [Hd1 Hd2]] Hrest] Hlo] Hhi].
    exists (d :: rest). cbn [forallb length head]. repeat split; try lia.
    + unfold is_digit at 1. rewrite Hrest, andb_true_r, andb_true_iff, !N.leb_le. lia.
    + intros [= ->]. lia.
  - intros (digits & -> & Hall & Hlen & Hhead).
    destruct digits as [|d rest]; [cbn in Hlen; lia|].
    cbn [forallb length head] in *.
    apply andb_true_iff in Hall as [Hd Hrest]. unfold is_digit in Hd.
    apply andb_true_iff in Hd as [Hd1 Hd2]. apply N.leb_le in Hd1, Hd2.
    rewrite !andb_true_iff, N.eqb_eq, !N.leb_le, !Nat.leb_le.
    repeat split; try lia; [|exact Hrest].
    destruct (N.eq_dec d 48%N) as [->|Hne]; [congruence | lia].
Qed.

(** What [sendSms] can do: it never touches the database; when it
    returns, the number is valid, the client was set up, and the result
    is the non-empty sid Twilio gave for that number and body; when it
    throws, the message starts with [Failed to send SMS: ]. *)
Theorem sendSms_outcome (w : World) (toPhoneNumber messageBody : jsstring) (db : Db.t) :
  snd (sendSms w toPhoneNumber messageBody db) = db
  /\ match fst (sendSms w toPhoneNumber messageBody db) with
     | inr sid =>
         validatePhoneNumber toPhoneNumber = true
         /\ twilioInit w = inr true
         /\ twilioCreate w toPhoneNumber messageBody = inr (Some sid)
         /\ sid <> []
     | inl e => exists reason, e = lit "Failed to send SMS: " ++ reason
     end.
Proof.
  unfold sendSms, try_catch, throw, ret.
  destruct (twilioInit w) as [e|[|]]; cbn [negb fst snd]; eauto.
  destruct (validatePhoneNumber toPhoneNumber); cbn [negb fst snd]; eauto.
  destruct (twilioCreate w toPhoneNumber messageBody) as [e|[sid|]];
    cbn [truthy_opt fst snd]; eauto.
  destruct sid as [|c sid]; cbn [truthy default fst snd]; eauto.
Qed.

(** The result [sendBulkSms] records for one number. *)
Definition bulkOutcome (w : World) (messageBody : jsstring) (db : Db.t)
           (phoneNumber : jsstring) : BulkResult :=
  match fst (sendSms w phoneNumber messageBody db) with
  | inr sid => mkBulkResult phoneNumber (Some sid) true
  | inl _ => mkBulkResult phoneNumber None false
  end.

Lemma sendOne_outcome (w : World) (messageBody phoneNumber : jsstring) (db : Db.t) :
  sendOne w messageBody phoneNumber db = (inr (bulkOutcome w messageBody db phoneNumber), db).
Proof.
  unfold sendOne, bulkOutcome, try_catch, mbind, M_bind, bind, ret.
  destruct (sendSms_effect w phoneNumber messageBody db) as [[e|sid] ->]; reflexivity.
Qed.

Lemma sendBulkSms_from_outcome (w : World) (results : list BulkResult)
      (phoneNumbers : list jsstring) (messageBody : jsstring) (db : Db.t) :
  sendBulkSms_from w results phoneNumbers messageBody db
  = (inr (results ++ List.map (bulkOutcome w messageBody db) phoneNumbers), db).
Proof.
  revert results. induction phoneNumbers as [|p ps IH]; intros results;
    cbn [sendBulkSms_from List.map].
  - unfold ret. now rewrite app_nil_r.
  - unfold mbind, M_bind, bind. rewrite sendOne_outcome, IH.
    now rewrite <- app_assoc.
Qed.

(** [sendBulkSms] never throws and never touches the database; it
    answers with one result for each number, in the order given, and
    each result is what a send to that number alone would give: a
    number that fails does not keep the later ones from being tried. *)
Theorem sendBulkSms_one_result_each (w : World) (phoneNumbers more : list jsstring)
        (messageBody : jsstring) (db : Db.t) :
  sendBulkSms w phoneNumbers messageBody db
  = (inr (List.map (bulkOutcome w messageBody db) phoneNumbers), db)
  /\ List.map bulk_phone (List.map (bulkOutcome w messageBody db) phoneNumbers)
     = phoneNumbers
  /\ fst (sendBulkSms w (phoneNumbers ++ more) messageBody db)
     = inr (List.map (bulkOutcome w messageBody db) phoneNumbers
            ++ List.map (bulkOutcome w messageBody db) more).
Proof.
  unfold sendBulkSms. rewrite !sendBulkSms_from_outcome. cbn [app fst].
  split; [reflexivity|]. split; [|now rewrite List.map_app].
  induction phoneNumbers as [|p ps IH]; [reflexivity|].
  cbn [List.map]. rewrite IH. f_equal.
  unfold bulkOutcome. now destruct (fst (sendSms w p messageBody db)).
Qed.

Example sendBulkSms_example :
  fst (sendBulkSms calm [badPhone; parentPhone] (lit "hello") (family badPhone []))
  = inr [mkBulkResult badPhone None false;
         mkBulkResult parentPhone (Some (lit "SM01")) true].
Proof. vm_compute. reflexivity. Qed.

End TwilioFacts.

(* ===================================================================== *)
(** * Further properties of the scheduler                                 *)
(* ===================================================================== *)

Module SchedulerFacts.

Import Fixtures SchedulerProps ChildrenRoutes.

(** The queue holds no job under the job id of a pair.  The empty
    queue is like that, and the scheduler keeps it so. *)
Definition noPairKeys (q : Queue) : Prop :=
  forall parentId childId, getJob q (jobIdOf parentId childId) = None.

(** The repeat options [scheduleDailySmsForPair] builds from the
    parent and the preferences, and the repeat key Bull derives for a
    pair from them. *)
Definition repeatOf (parent : Db.Parent) (prefs : Db.Preference) : RepeatOptions :=
  {| cron := buildCronExpression (Db.sendTime prefs) (Db.sendDays prefs)
                                 (Db.timezone parent);
     tz := Db.timezone parent |}.

Definition repeatKeyOf (parentId childId : jsstring) (repeat : RepeatOptions) : jsstring :=
  getRepeatKey (lit "send-sms") repeat (jobIdOf parentId childId ++ lit ":").

(** The job of a run filed for a pair. *)
Definition runOf (parentId childId : jsstring) (j : Job) : Prop :=
  job_data j = mkJobData parentId childId
  /\ is_Some (opt_repeat (job_opts j))
  /\ exists rest, job_id j = lit "repeat:" ++ rest.

(** In the examples the digest is the identity, which like MD5 on
    these texts tells different texts apart. *)
Definition plain : Bull := mkBull (fun text => text) thatWeek.

Lemma noPairKeys_jobs (q : Queue) :
  noPairKeys q
  <-> Forall (fun j => forall parentId childId, job_id j <> jobIdOf parentId childId)
             (jobs q).
Proof.
  unfold noPairKeys, getJob. split.
  - intros H. apply Forall_forall. intros j Hj p c Heq.
    apply list_elem_of_In in Hj. apply (find_none _ _ (H p c)) in Hj.
    rewrite Heq, eqb_refl in Hj. discriminate.
  - intros H p c. induction H as [|j js Hj _ IH]; [reflexivity|].
    cbn [List.find]. now rewrite (eqb_neq _ _ (Hj p c)).
Qed.

Lemma cancel_noop (parentId childId : jsstring) (q : Queue) :
  noPairKeys q -> cancelDailySmsForPair parentId childId q = q.
Proof. intros H. unfold cancelDailySmsForPair. now rewrite H. Qed.

Lemma of_Z_not_key (z : Z) (s : jsstring) : of_Z z <> 115%N :: s.
Proof.
  destruct z as [|p|p]; cbn [of_Z]; try discriminate.
  unfold of_N. cbn [N.to_uint]. destruct (Pos.to_uint p); discriminate.
Qed.

(** What [createJob] does to the jobs of a queue. *)
Lemma createJob_jobs (q : Queue) (name : jsstring) (data : SendSmsJobData)
      (opts : JobOptions) :
  repeatKeys (createJob q name data opts) = repeatKeys q
  /\ exists added,
       jobs (createJob q name data opts) = jobs q ++ added
       /\ (length added <= 1)%nat
       /\ Forall (fun j => job_data j = data
                           /\ job_opts j = opts
                           /\ job_id j = default (of_Z (nextId q + 1)) (opt_jobId opts))
                 added.
Proof.
  unfold createJob. destruct (opt_jobId opts) as [id|].
  - destruct (getJob q id).
    + split; [reflexivity|]. exists []. rewrite app_nil_r. repeat split; auto.
    + split; [reflexivity|]. eexists. split; [reflexivity|].
      split; [cbn; lia|]. repeat constructor.
  - split; [reflexivity|]. eexists. split; [reflexivity|].
    split; [cbn; lia|]. repeat constructor.
Qed.

Lemma zadd_keys (key : jsstring) (score : Z) (z : list (jsstring * Z)) :
  key ∈ List.map fst (zadd key score z)
  /\ forall k, k ∈ List.map fst z -> k ∈ List.map fst (zadd key score z).
Proof.
  unfold zadd. destruct (existsb _ z) eqn:E.
  - assert (List.map fst (List.map (fun e => if Js.eqb (fst e) key then (key, score) else e) z)
            = List.map fst z) as ->.
    { clear E. induction z as [|e z IH]; [reflexivity|]. cbn [List.map].
      rewrite IH. destruct (Js.eqb (fst e) key) eqn:Ek; [|reflexivity].
      apply eqb_eq in Ek. now rewrite Ek. }
    split; [|auto].
    apply existsb_exists in E as (e & He & Hk). apply eqb_eq in Hk. subst key.
    apply list_elem_of_In, in_map. exact He.
  - rewrite List.map_app. split.
    + apply elem_of_app. right. now left.
    + intros k Hk. apply elem_of_app. now left.
Qed.

(** What a successful install did: nothing, when the cron expression
    has no next instant; else it entered the repeat key and created the
    job of the next run.  Nothing is looked up under the repeat id, so
    nothing was removed. *)
Lemma install_cases (b : Bull) (now : Z) (db : Db.t) (parentId childId : jsstring)
      (q q' : Queue) :
  noPairKeys q ->
  scheduleDailySmsForPair b now db parentId childId q = inr q' ->
  exists parent prefs,
    Db.findParent db parentId = Some parent
    /\ Db.findPreference db parentId = Some prefs
    /\ ((q' = q
         /\ forall t, getNextMillis b now (repeatOf parent prefs) = inr (Some t) -> t = 0)
        \/ exists t,
             getNextMillis b now (repeatOf parent prefs) = inr (Some t)
             /\ t <> 0
             /\ q' = createJob
                       {| jobs := jobs q;
                          repeatKeys :=
                            zadd (repeatKeyOf parentId childId (repeatOf parent prefs)) t
                                 (repeatKeys q);
                          nextId := nextId q |}
                       (lit "send-sms") (mkJobData parentId childId)
                       {| opt_repeat := Some (repeatOf parent prefs);
                          opt_jobId :=
                            Some (getRepeatJobId b (lit "send-sms")
                                    (jobIdOf parentId childId ++ lit ":") t
                                    (md5 b (repeatKeyOf parentId childId
                                              (repeatOf parent prefs))));
                          opt_priority := None |}).
Proof.
  intros Hq. unfold scheduleDailySmsForPair.
  destruct (Db.findParent db parentId) as [parent|]; [|discriminate].
  destruct (Db.findPreference db parentId) as [prefs|]; [|discriminate].
  rewrite Hq. unfold add. cbn [opt_repeat opt_jobId opt_priority].
  fold (repeatOf parent prefs).
  intros Hrun. exists parent, prefs. split; [reflexivity|]. split; [reflexivity|].
  destruct (getNextMillis b now (repeatOf parent prefs)) as [e|[t|]]; [discriminate| |].
  - destruct (Z.eqb_spec t 0) as [Ht|Ht].
    + left. injection Hrun as <-. split; [reflexivity|]. intros t' [= <-]. exact Ht.
    + right. exists t. injection Hrun as <-. repeat split; assumption.
  - left. injection Hrun as <-. split; [reflexivity|]. discriminate.
Qed.

(** A successful install on a queue without pair keys: the jobs held
    before are still there, in place; at most one job was added, the job
    of a run for the pair; every repeat key is still there; and the queue
    still has no pair key. *)
Lemma install_frame (b : Bull) (now : Z) (db : Db.t) (parentId childId : jsstring)
      (q q' : Queue) :
  noPairKeys q ->
  scheduleDailySmsForPair b now db parentId childId q = inr q' ->
  noPairKeys q'
  /\ (exists added,
        jobs q' = jobs q ++ added
        /\ (length added <= 1)%nat
        /\ Forall (runOf parentId childId) added)
  /\ (forall k, k ∈ List.map fst (repeatKeys q) -> k ∈ List.map fst (repeatKeys q')).
Proof.
  intros Hq Hrun.
  destruct (install_cases _ _ _ _ _ _ _ Hq Hrun)
    as (parent & prefs & _ & _ & [[-> _]|(t & _ & _ & ->)]).
  - split; [exact Hq|]. split; [|auto].
    exists []. rewrite app_nil_r. repeat split; auto.
  - match goal with |- context [createJob ?q0 ?n ?d ?o] =>
      destruct (createJob_jobs q0 n d o) as (Hkeys & added & Hjobs & Hlen & Hadded)
    end.
    cbn [jobs repeatKeys opt_jobId default] in *.
    assert (Forall (runOf parentId childId) added) as Hruns.
    { eapply Forall_impl; [exact Hadded|]. intros j (Hd & Ho & Hid).
      split; [exact Hd|]. split; [rewrite Ho; eexists; reflexivity|].
      rewrite Hid. unfold getRepeatJobId. eexists. reflexivity. }
    split; [|split].
    + apply noPairKeys_jobs. rewrite Hjobs. apply Forall_app. split.
      * now apply noPairKeys_jobs.
      * eapply Forall_impl; [exact Hruns|]. intros j (_ & _ & rest & ->) p c.
        unfold jobIdOf. discriminate.
    + exists added. repeat split; assumption.
    + intros k Hk. rewrite Hkeys. now apply (proj2 (zadd_keys _ _ _)).
Qed.

(** The queues the service builds from the empty queue, by installs,
    manual jobs and cancels, hold no job under the job id of a pair. *)
Inductive built : Queue -> Prop :=
| built_empty : built emptyQueue
| built_install (b : Bull) (now : Z) (db : Db.t) (parentId childId : jsstring)
                (q q' : Queue) :
    built q -> scheduleDailySmsForPair b now db parentId childId q = inr q' -> built q'
| built_manual (parentId childId : jsstring) (q : Queue) :
    built q -> built (triggerManualSms parentId childId q)
| built_cancel (parentId childId : jsstring) (q : Queue) :
    built q -> built (cancelDailySmsForPair parentId childId q).

Lemma built_noPairKeys (q : Queue) : built q -> noPairKeys q.
Proof.
  induction 1 as [|b now db p c q q' _ IH Hrun|p c q _ IH|p c q _ IH].
  - intros p c. reflexivity.
  - now destruct (install_frame _ _ _ _ _ _ _ IH Hrun) as [Hq' _].
  - apply noPairKeys_jobs. unfold triggerManualSms, createJob.
    cbn [opt_jobId jobs]. apply Forall_app. split; [now apply noPairKeys_jobs|].
    repeat constructor. intros p' c'. cbn [job_id]. unfold jobIdOf. apply of_Z_not_key.
  - now rewrite cancel_noop.
Qed.

(** [cancelDailySmsForPair] does not cancel a schedule that
    [scheduleDailySmsForPair] installed: the job it looks for, under the
    job id of the pair, is never there, since Bull files the jobs of a
    repeatable job under ids of their own.  After an install every
    cancel, for this pair or another, leaves the queue as it is: the
    repeat key and the job of the next run stay. *)
Theorem cancel_leaves_installed_schedule (b : Bull) (now : Z) (db : Db.t)
        (parentId childId : jsstring) (q q' : Queue) :
  noPairKeys q ->
  scheduleDailySmsForPair b now db parentId childId q = inr q' ->
  forall parentId' childId', cancelDailySmsForPair parentId' childId' q' = q'.
Proof.
  intros Hq Hrun parentId' childId'. apply cancel_noop.
  now destruct (install_frame _ _ _ _ _ _ _ Hq Hrun) as [Hq' _].
Qed.

(** The schedule of the example family, installed and then cancelled:
    the trigger is still in the queue. *)
Lemma cancel_leaves_installed_schedule_witness :
  exists q',
    scheduleDailySmsForPair plain eightOClock (family childPhone [])
                            (lit "p1") (lit "c1") emptyQueue = inr q'
    /\ cancelDailySmsForPair (lit "p1") (lit "c1") q' = q'
    /\ length (triggersOf q' (lit "p1") (lit "c1")) = 1%nat.
Proof.
  eexists. split; [reflexivity|]. split; [|reflexivity].
  apply (cancel_leaves_installed_schedule plain eightOClock (family childPhone [])
           (lit "p1") (lit "c1") emptyQueue);
    [intros p c; reflexivity | reflexivity].
Defined.

(** An install removes nothing from a queue this service built: the
    jobs held before are all still there, unchanged and in place, and so
    are the repeat keys, among them those a former install for the same
    pair left; at most one job is added, the job of the next run for the
    pair, under an id that starts with [repeat:]. *)
Theorem install_removes_nothing (b : Bull) (now : Z) (db : Db.t)
        (parentId childId : jsstring) (q q' : Queue) :
  noPairKeys q ->
  scheduleDailySmsForPair b now db parentId childId q = inr q' ->
  (exists added,
     jobs q' = jobs q ++ added
     /\ (length added <= 1)%nat
     /\ Forall (runOf parentId childId) added)
  /\ (forall k, k ∈ List.map fst (repeatKeys q) -> k ∈ List.map fst (repeatKeys q'))
  /\ (forall parentId' childId',
        exists more, triggersOf q' parentId' childId'
                     = triggersOf q parentId' childId' ++ more).
Proof.
  intros Hq Hrun.
  destruct (install_frame _ _ _ _ _ _ _ Hq Hrun) as (_ & (added & Hjobs & Hlen & Hadded) & Hkeys).
  split; [exists added; repeat split; assumption|]. split; [exact Hkeys|].
  intros p c. unfold triggersOf. rewrite Hjobs, List.filter_app. eexists. reflexivity.
Qed.

(** The queue after the first install of the example, for the digest of
    the examples. *)
Definition afterFirst : Queue :=
  {| jobs := [firstTrigger (md5 plain)];
     repeatKeys :=
       [(lit "send-sms:sms-p1-c1::America/Los_Angeles:00 15 * * 1-5", 1771455600000)];
     nextId := 1 |}.

Lemma noPairKeys_afterFirst : noPairKeys afterFirst.
Proof.
  destruct (install_frame plain eightOClock (family childPhone []) (lit "p1") (lit "c1")
              emptyQueue afterFirst) as [H _]; [intros p c; reflexivity|reflexivity|exact H].
Qed.

(** The second install of the example keeps the trigger of the first. *)
Lemma install_removes_nothing_witness :
  exists q2 more,
    scheduleDailySmsForPair plain nineOClock movedTime (lit "p1") (lit "c1") afterFirst
    = inr q2
    /\ triggersOf q2 (lit "p1") (lit "c1")
       = triggersOf afterFirst (lit "p1") (lit "c1") ++ more.
Proof.
  destruct (install_removes_nothing plain nineOClock movedTime (lit "p1") (lit "c1")
              afterFirst
              {| jobs := [firstTrigger (md5 plain); secondTrigger (md5 plain)];
                 repeatKeys :=
                   [(lit "send-sms:sms-p1-c1::America/Los_Angeles:00 15 * * 1-5",
                     1771455600000);
                    (lit "send-sms:sms-p1-c1::America/Los_Angeles:30 07 * * 6,0",
                     1771687800000)];
                 nextId := 2 |}
              noPairKeys_afterFirst (install_second (md5 plain)))
    as (_ & _ & Htriggers).
  destruct (Htriggers (lit "p1") (lit "c1")) as [more Hmore].
  eexists. exists more. split; [apply (install_second (md5 plain))|exact Hmore].
Defined.

Lemma jobIdOf_inj (parentId childId parentId' childId' : jsstring) :
  length parentId = length parentId' ->
  jobIdOf parentId childId = jobIdOf parentId' childId' ->
  parentId = parentId' /\ childId = childId'.
Proof.
  unfold jobIdOf. intros Hlen Heq.
  apply app_inv_head in Heq. apply app_inj_1 in Heq as [Hp Hc]; [|exact Hlen].
  split; [exact Hp|]. now apply app_inv_head in Hc.
Qed.

(** Two pairs whose parent ids have the same length, as the UUIDs of
    the database have, share a job id exactly when they are the same
    pair. *)
Theorem jobIdOf_injective (parentId childId parentId' childId' : jsstring) :
  length parentId = length parentId' ->
  (jobIdOf parentId childId = jobIdOf parentId' childId'
   <-> parentId = parentId' /\ childId = childId').
Proof.
  intros Hlen. split; [now apply jobIdOf_inj | now intros [-> ->]].
Qed.

Lemma jobIdOf_injective_witness :
  jobIdOf (lit "p1") (lit "c1") <> jobIdOf (lit "p2") (lit "c1").
Proof.
  intros Heq.
  apply (jobIdOf_injective (lit "p1") (lit "c1") (lit "p2") (lit "c1")) in Heq as [Hp _];
    [discriminate | reflexivity].
Defined.

(** Without that, two different pairs can share a job id. *)
Example jobIdOf_collision :
  jobIdOf (lit "a-b") (lit "c") = jobIdOf (lit "a") (lit "b-c").
Proof. vm_compute. reflexivity. Qed.

(** One step of the loop of [scheduleAllDailySms]. *)
Definition scheduleStep (b : Bull) (now : Z) (db : Db.t) (q : Queue)
           (rel : Db.ParentChild) : Queue :=
  match scheduleDailySmsForPair b now db (Db.rel_parentId rel) (Db.rel_childId rel) q with
  | inr q' => q'
  | inl _ => q
  end.

(** The job of a run for one of the relationships. *)
Definition runAmong (relationships : list Db.ParentChild) (j : Job) : Prop :=
  exists rel, In rel relationships
              /\ runOf (Db.rel_parentId rel) (Db.rel_childId rel) j.

Lemma scheduleStep_frame (b : Bull) (now : Z) (db : Db.t) (q : Queue)
      (rel : Db.ParentChild) :
  noPairKeys q ->
  noPairKeys (scheduleStep b now db q rel)
  /\ (exists added,
        jobs (scheduleStep b now db q rel) = jobs q ++ added
        /\ Forall (runOf (Db.rel_parentId rel) (Db.rel_childId rel)) added)
  /\ (forall k, k ∈ List.map fst (repeatKeys q) ->
                k ∈ List.map fst (repeatKeys (scheduleStep b now db q rel))).
Proof.
  intros Hq. unfold scheduleStep.
  destruct (scheduleDailySmsForPair b now db (Db.rel_parentId rel) (Db.rel_childId rel) q)
    as [e|q'] eqn:Hrun.
  - split; [exact Hq|]. split; [|auto]. exists []. now rewrite app_nil_r.
  - destruct (install_frame _ _ _ _ _ _ _ Hq Hrun) as (Hq' & (added & Hj & _ & Ha) & Hk).
    split; [exact Hq'|]. split; [|exact Hk]. now exists added.
Qed.

Lemma scheduleEach_frame (b : Bull) (clock : nat -> Z) (db : Db.t)
      (relationships : list Db.ParentChild) (i : nat) (q : Queue) :
  noPairKeys q ->
  noPairKeys (scheduleEach b clock db i relationships q)
  /\ (exists added,
        jobs (scheduleEach b clock db i relationships q) = jobs q ++ added
        /\ Forall (runAmong relationships) added)
  /\ (forall k, k ∈ List.map fst (repeatKeys q) ->
                k ∈ List.map fst (repeatKeys (scheduleEach b clock db i relationships q))).
Proof.
  revert i q. induction relationships as [|rel rest IH]; intros i q Hq.
  - cbn. split; [exact Hq|]. split; [|auto]. exists []. now rewrite app_nil_r.
  - cbn [scheduleEach]. fold (scheduleStep b (clock i) db q rel).
    destruct (scheduleStep_frame b (clock i) db q rel Hq) as (Hq1 & (a1 & Hj1 & Ha1) & Hk1).
    destruct (IH (S i) _ Hq1) as (Hq2 & (a2 & Hj2 & Ha2) & Hk2).
    split; [exact Hq2|]. split; [|auto].
    exists (a1 ++ a2). split; [now rewrite Hj2, Hj1, app_assoc|].
    apply Forall_app. split.
    + eapply Forall_impl; [exact Ha1|]. intros j Hj. exists rel. split; [now left|exact Hj].
    + eapply Forall_impl; [exact Ha2|]. intros j (r & Hr & Hj). exists r.
      split; [now right|exact Hj].
Qed.

Lemma scheduleEach_registers (b : Bull) (clock : nat -> Z) (db : Db.t)
      (relationships : list Db.ParentChild) (i : nat) (q : Queue)
      (rel : Db.ParentChild) (parent : Db.Parent) (prefs : Db.Preference) :
  noPairKeys q ->
  In rel relationships ->
  Db.findParent db (Db.rel_parentId rel) = Some parent ->
  Db.findPreference db (Db.rel_parentId rel) = Some prefs ->
  (forall now, exists t, getNextMillis b now (repeatOf parent prefs) = inr (Some t)
                         /\ t <> 0) ->
  repeatKeyOf (Db.rel_parentId rel) (Db.rel_childId rel) (repeatOf parent prefs)
  ∈ List.map fst (repeatKeys (scheduleEach b clock db i relationships q)).
Proof.
  intros Hq Hin Hp Hf Hnext. revert i q Hq.
  induction relationships as [|r rest IH]; intros i q Hq; [destruct Hin|].
  cbn [scheduleEach]. fold (scheduleStep b (clock i) db q r).
  destruct (scheduleStep_frame b (clock i) db q r Hq) as (Hq1 & _ & _).
  destruct Hin as [->|Hin]; [|now apply IH].
  destruct (scheduleEach_frame b clock db rest (S i) _ Hq1) as (_ & _ & Hkeep).
  apply Hkeep. clear Hkeep.
  unfold scheduleStep.
  destruct (scheduleDailySmsForPair b (clock i) db (Db.rel_parentId rel)
                                    (Db.rel_childId rel) q) as [e|q'] eqn:Hrun.
  - exfalso. unfold scheduleDailySmsForPair in Hrun. rewrite Hp, Hf, Hq in Hrun.
    unfold add in Hrun. cbn [opt_repeat] in Hrun. fold (repeatOf parent prefs) in Hrun.
    destruct (Hnext (clock i)) as (t & Ht & Ht0). rewrite Ht in Hrun.
    apply Z.eqb_neq in Ht0. rewrite Ht0 in Hrun. discriminate.
  - destruct (install_cases _ _ _ _ _ _ _ Hq Hrun)
      as (parent' & prefs' & Hp' & Hf' & Hcase).
    rewrite Hp in Hp'. rewrite Hf in Hf'. injection Hp' as <-. injection Hf' as <-.
    destruct (Hnext (clock i)) as (t & Ht & Ht0).
    destruct Hcase as [[_ Hzero]|(t' & Ht' & _ & ->)]; [now apply Hzero in Ht|].
    match goal with |- context [createJob ?q0 ?n ?d ?o] =>
      destruct (createJob_jobs q0 n d o) as (-> & _)
    end.
    cbn [repeatKeys]. apply (proj1 (zadd_keys _ _ _)).
Qed.

(** After [scheduleAllDailySms] on a queue this service built, the
    repeat key of every active pair whose parent has preferences, and
    whose cron expression has a next instant, is among the repeat keys,
    with the cron expression and the time zone the database holds; a
    pair that fails does not keep the later pairs from being scheduled;
    and what the queue held before is all still there. *)
Theorem scheduleAll_registers_every_active_pair (b : Bull) (clock : nat -> Z)
        (db : Db.t) (q : Queue) (rel : Db.ParentChild)
        (parent : Db.Parent) (prefs : Db.Preference) :
  noPairKeys q ->
  In rel (Db.relationships db) ->
  Db.rel_isActive rel = true ->
  Db.findParent db (Db.rel_parentId rel) = Some parent ->
  Db.findPreference db (Db.rel_parentId rel) = Some prefs ->
  (forall now, exists t, getNextMillis b now (repeatOf parent prefs) = inr (Some t)
                         /\ t <> 0) ->
  repeatKeyOf (Db.rel_parentId rel) (Db.rel_childId rel) (repeatOf parent prefs)
  ∈ List.map fst (repeatKeys (scheduleAllDailySms b clock db q))
  /\ (exists added, jobs (scheduleAllDailySms b clock db q) = jobs q ++ added)
  /\ (forall k, k ∈ List.map fst (repeatKeys q) ->
                k ∈ List.map fst (repeatKeys (scheduleAllDailySms b clock db q))).
Proof.
  intros Hq Hin Hact Hp Hf Hnext. unfold scheduleAllDailySms. split; [|split].
  - apply (scheduleEach_registers b clock db _ 0%nat q rel parent prefs); try assumption.
    unfold Db.findActiveRelationships. apply List.filter_In. now split.
  - destruct (scheduleEach_frame b clock db (Db.findActiveRelationships db) 0%nat q Hq)
      as (_ & (added & Hj & _) & _).
    now exists added.
  - now destruct (scheduleEach_frame b clock db (Db.findActiveRelationships db) 0%nat q Hq)
      as (_ & _ & Hkeep).
Qed.

(** The example family scheduled at start-up. *)
Lemma scheduleAll_registers_every_active_pair_witness :
  lit "send-sms:sms-p1-c1::America/Los_Angeles:00 15 * * 1-5"
  ∈ List.map fst (repeatKeys (scheduleAllDailySms plain (fun _ => eightOClock)
                                (family childPhone []) emptyQueue)).
Proof.
  refine (proj1 (scheduleAll_registers_every_active_pair plain (fun _ => eightOClock)
           (family childPhone []) emptyQueue
           (Db.mkParentChild (lit "p1") (lit "c1") true)
           (Db.mkParent (lit "p1") (Some parentPhone) (lit "America/Los_Angeles"))
           (Db.mkPreference (lit "p1") (lit "15:00:00") (lit "Mon,Tue,Wed,Thu,Fri") true)
           _ _ _ _ _ _)).
  - intros p c. reflexivity.
  - now left.
  - reflexivity.
  - reflexivity.
  - reflexivity.
  - intros now. exists 1771455600000. split; [reflexivity|discriminate].
Defined.

(** What [removeChild] leaves of the relationships. *)
Lemma removeChild_active (db : Db.t) (parentId childId : jsstring)
      (rel : Db.ParentChild) :
  In rel (Db.findActiveRelationships (removeChild parentId childId db)) ->
  In rel (Db.relationships db)
  /\ ~ (Db.rel_parentId rel = parentId /\ Db.rel_childId rel = childId).
Proof.
  unfold Db.findActiveRelationships, removeChild. cbn [Db.relationships].
  intros Hin. apply List.filter_In in Hin as [Hin Hact].
  apply in_map_iff in Hin as (r & Hr & Hin).
  destruct (Js.eqb (Db.rel_parentId r) parentId && Js.eqb (Db.rel_childId r) childId)
    eqn:E.
  - subst rel. discriminate.
  - subst rel. split; [exact Hin|]. intros [Hp Hc].
    rewrite Hp, Hc, !eqb_refl in E. discriminate.
Qed.

(** Removing a child only deactivates the relationship: the pair is no
    longer found, and when [scheduleAllDailySms] runs again on a queue
    this service built, the triggers of the pair are exactly those it had
    and every repeat key is still there: the schedule of the removed
    child is neither renewed nor removed. *)
Theorem removed_child_keeps_trigger (b : Bull) (clock : nat -> Z) (db : Db.t)
        (q : Queue) (parentId childId : jsstring) :
  noPairKeys q ->
  findRelationship (removeChild parentId childId db) parentId childId = None
  /\ triggersOf (scheduleAllDailySms b clock (removeChild parentId childId db) q)
                parentId childId
     = triggersOf q parentId childId
  /\ (forall k, k ∈ List.map fst (repeatKeys q) ->
        k ∈ List.map fst (repeatKeys (scheduleAllDailySms b clock
                                        (removeChild parentId childId db) q))).
Proof.
  intros Hq. split; [|split].
  - unfold findRelationship, removeChild. cbn [Db.relationships].
    induction (Db.relationships db) as [|r rs IH]; [reflexivity|].
    cbn [List.map List.find].
    destruct (Js.eqb (Db.rel_parentId r) parentId && Js.eqb (Db.rel_childId r) childId)
      eqn:E.
    + cbn [Db.rel_parentId Db.rel_childId Db.rel_isActive]. rewrite E.
      cbn [andb]. exact IH.
    + rewrite E. cbn [andb]. exact IH.
  - unfold scheduleAllDailySms.
    destruct (scheduleEach_frame b clock (removeChild parentId childId db)
                (Db.findActiveRelationships (removeChild parentId childId db)) 0%nat q Hq)
      as (_ & (added & Hj & Hadded) & _).
    unfold triggersOf. rewrite Hj, List.filter_app.
    assert (List.filter
              (fun j => bool_decide (is_Some (opt_repeat (job_opts j)))
                        && Js.eqb (SchedulerService.parentId (job_data j)) parentId
                        && Js.eqb (SchedulerService.childId (job_data j)) childId)
              added = []) as ->; [|apply app_nil_r].
    clear Hj. induction Hadded as [|j js (rel & Hrel & Hd & _) _ IH]; [reflexivity|].
    cbn [List.filter]. rewrite IH.
    apply removeChild_active in Hrel as [_ Hne]. rewrite Hd.
    cbn [SchedulerService.parentId SchedulerService.childId].
    destruct (Js.eqb (Db.rel_parentId rel) parentId) eqn:Ep;
      [|now rewrite andb_false_r].
    destruct (Js.eqb (Db.rel_childId rel) childId) eqn:Ec;
      [|now rewrite andb_false_r].
    exfalso. apply Hne. split; now apply eqb_eq.
  - unfold scheduleAllDailySms.
    now destruct (scheduleEach_frame b clock (removeChild parentId childId db)
                    (Db.findActiveRelationships (removeChild parentId childId db))
                    0%nat q Hq) as (_ & _ & Hkeep).
Qed.

(** The child of the example family is removed after its schedule was
    installed: the trigger stays. *)
Lemma removed_child_keeps_trigger_witness :
  triggersOf (scheduleAllDailySms plain (fun _ => nineOClock)
                (removeChild (lit "p1") (lit "c1") (family childPhone [])) afterFirst)
             (lit "p1") (lit "c1")
  = [firstTrigger (md5 plain)].
Proof.
  destruct (removed_child_keeps_trigger plain (fun _ => nineOClock) (family childPhone [])
              afterFirst (lit "p1") (lit "c1") noPairKeys_afterFirst)
    as (_ & Hkeep & _).
  rewrite Hkeep. reflexivity.
Defined.

(** [triggerManualSms] adds one job, under a fresh numeric id, with
    priority 1 and no repeat, and never changes the installed trigger of
    any pair. *)
Theorem manual_trigger_leaves_triggers (parentId childId : jsstring) (q : Queue) :
  (forall parentId' childId',
     triggersOf (triggerManualSms parentId childId q) parentId' childId'
     = triggersOf q parentId' childId')
  /\ length (jobs (triggerManualSms parentId childId q)) = S (length (jobs q))
  /\ (opt_priority <$> (job_opts <$> last (jobs (triggerManualSms parentId childId q)))
      = Some (Some 1)
      /\ opt_repeat <$> (job_opts <$> last (jobs (triggerManualSms parentId childId q)))
         = Some None
      /\ job_data <$> last (jobs (triggerManualSms parentId childId q))
         = Some (mkJobData parentId childId)).
Proof.
  unfold triggerManualSms, createJob. cbn [opt_jobId jobs]. split; [|split].
  - intros parentId' childId'. unfold triggersOf. cbn [jobs].
    rewrite List.filter_app. cbn [List.filter job_opts opt_repeat].
    rewrite bool_decide_eq_false_2; [apply app_nil_r|]. now intros [? [=]].
  - rewrite length_app. cbn. lia.
  - rewrite last_snoc. repeat split.
Qed.

(** The day-of-week field that [buildCronExpression] computes from
    [sendDays]. *)
Definition dayField (sendDays : jsstring) : jsstring :=
  let days := List.map (fun d => dayMap (trim d)) (split 44%N sendDays) in
  if Nat.eqb (length days) 5
     && forallb (fun b : bool => b)
          (imap (fun i d => bool_decide (d = Some (DayNumber (Z.of_nat i + 1)))) days)
  then lit "1-5"
  else join (lit ",") (List.map dayText days).

(** [buildCronExpression] reads the hours and the minutes off a time
    written [HH:mm:ss] or [HH:mm] and puts the minutes first; a time
    without a colon gives the minutes field [undefined].  The time zone
    plays no part. *)
Theorem buildCronExpression_time_fields
        (hours minutes seconds sendDays timezone : jsstring) :
  58%N ∉ hours ->
  58%N ∉ minutes ->
  buildCronExpression (hours ++ lit ":" ++ minutes ++ lit ":" ++ seconds)
                      sendDays timezone
  = minutes ++ lit " " ++ hours ++ lit " * * " ++ dayField sendDays
  /\ buildCronExpression (hours ++ lit ":" ++ minutes) sendDays timezone
     = minutes ++ lit " " ++ hours ++ lit " * * " ++ dayField sendDays
  /\ buildCronExpression hours sendDays timezone
     = lit "undefined" ++ lit " " ++ hours ++ lit " * * " ++ dayField sendDays.
Proof.
  intros Hh Hm. change (lit ":") with [58%N]. cbn [app].
  unfold buildCronExpression. fold (dayField sendDays).
  rewrite !(CanvasFacts.split_sep 58%N hours) by exact Hh.
  rewrite (CanvasFacts.split_sep 58%N minutes) by exact Hm.
  rewrite (CanvasFacts.split_no_sep 58%N minutes) by exact Hm.
  rewrite (CanvasFacts.split_no_sep 58%N hours) by exact Hh.
  repeat split; destruct (split 58%N seconds); reflexivity.
Qed.

Lemma buildCronExpression_time_fields_witness :
  buildCronExpression (lit "15:00:00") (lit "Mon,Tue,Wed,Thu,Fri")
                      (lit "America/Los_Angeles")
  = lit "00 15 * * " ++ dayField (lit "Mon,Tue,Wed,Thu,Fri").
Proof.
  apply (buildCronExpression_time_fields (lit "15") (lit "00") (lit "00"));
    vm_compute; intros Hin;
    repeat (apply elem_of_cons in Hin as [Hin|Hin]; [discriminate|]);
    now apply elem_of_nil in Hin.
Defined.

Example dayField_examples :
  dayField (lit "Mon,Tue,Wed,Thu,Fri") = lit "1-5"
  /\ dayField (lit "Mon, Wed ,Fri") = lit "1,3,5"
  /\ dayField (lit "Fri,Thu,Wed,Tue,Mon") = lit "5,4,3,2,1"
  /\ dayField (lit "Mon,Someday") = lit "1,"
  /\ dayField (lit "Mon,valueOf") = lit "1,function valueOf() { [native code] }".
Proof. repeat split; vm_compute; reflexivity. Qed.

End SchedulerFacts.

(* ===================================================================== *)
(** * Further properties of the worker                                    *)
(* ===================================================================== *)

Module WorkerFacts.

Import Fixtures Worker MessageService WorkerProps ChildrenRoutes.

Lemma sendAndLog_exact w job message n phone who db0 db :
  sendAndLog w job message n phone who db
  = match fst (TwilioService.sendSms w phone message db0) with
    | inr sid => (inr tt, Db.createMessage (sentRow w job message n phone who sid) db)
    | inl e => (inl e, db)
    end.
Proof.
  unfold sendAndLog, mbind, M_bind, bind.
  rewrite (sendSms_any_db w phone message db0 db).
  destruct (fst (TwilioService.sendSms w phone message db0)); reflexivity.
Qed.

Lemma sameDirectory_findChild db db' id :
  sameDirectory db db' -> Db.findChild db' id = Db.findChild db id.
Proof. intros (_ & _ & Hc & _). unfold Db.findChild. now rewrite Hc. Qed.

Lemma sameDirectory_findPreference db db' id :
  sameDirectory db db' -> Db.findPreference db' id = Db.findPreference db id.
Proof. intros (_ & Hp & _). unfold Db.findPreference. now rewrite Hp. Qed.

(** A row written for a recipient by a successful send. *)
Definition sentTo (w : World) (job : SendSmsJobData) (message : jsstring) (n : Z)
           (db : Db.t) (row : Db.Message) (r : jsstring * Db.RecipientType) : Prop :=
  exists sid,
    fst (TwilioService.sendSms w (fst r) message db) = inr sid
    /\ row = sentRow w job message n (fst r) (snd r) sid.

(** What a run of the processor that returns has done. *)
Lemma attempt_success_exact w job db res db' :
  processSmsJob w job db = (inr res, db') ->
  exists todos,
    fst (CanvasService.fetchTodoItems w (childId job) db) = inr todos
    /\ valid (validateMessage
               (formatMessage db (now w) (childId job) todos (Some (now w))) 5) = true
    /\ res = {| success := true;
                res_assignmentCount := Z.of_nat (length todos);
                messageLength :=
                  str_length (formatMessage db (now w) (childId job) todos
                                            (Some (now w)));
                smsSegments :=
                  segments (validateMessage
                              (formatMessage db (now w) (childId job) todos
                                             (Some (now w))) 5) |}
    /\ Forall2 (sentTo w job (formatMessage db (now w) (childId job) todos
                                            (Some (now w)))
                       (Z.of_nat (length todos)) db)
               (newRecords db db') (recipients db job).
Proof.
  unfold processSmsJob, try_catch.
  destruct (processSmsJob_body w job db) as [[e|res'] db2] eqn:Hb.
  { destruct (logFailure_effect w job e db2) as (db3 & fails & -> & _). discriminate. }
  intros [= <- <-]. revert Hb.
  unfold processSmsJob_body, mbind, M_bind, bind, gets, throw, ret.
  destruct (CanvasService.fetchTodoItems w (childId job) db) as [[e|todos] db1] eqn:Hf;
    [discriminate|].
  pose proof Hf as Heff. apply fetchTodoItems_effect in Heff as [Hdir Hmsg].
  rewrite (sameDirectory_formatMessage _ _ _ _ _ _ Hdir).
  set (message := formatMessage db (now w) (childId job) todos (Some (now w))).
  destruct (valid (validateMessage message 5)) eqn:Hv; cbn [negb]; [|discriminate].
  rewrite (sameDirectory_findParent _ _ _ Hdir), (sameDirectory_findChild _ _ _ Hdir),
    (sameDirectory_findPreference _ _ _ Hdir).
  unfold recipients.
  destruct (Db.findParent db (parentId job)) as [parent|]; [|discriminate].
  destruct (Db.findChild db (childId job)) as [child|]; [|discriminate].
  set (optIn := default false (Db.includeChildInSms <$> Db.findPreference db (parentId job))).
  intros Hrun. exists todos. cbn [fst]. split; [reflexivity|]. split; [exact Hv|].
  revert Hrun.
  destruct (Db.parent_phoneNumber parent) as [pp|]; [destruct (truthy pp)|];
    cbv beta iota;
    try (rewrite (sendAndLog_exact w job message _ pp Db.RParent db);
         destruct (fst (TwilioService.sendSms w pp message db)) as [e|sid] eqn:Hsp;
         [discriminate|]);
    cbv beta iota;
    (destruct (Db.child_phoneNumber child) as [cp|]; [destruct (truthy cp && optIn)|]);
    cbv beta iota;
    try (rewrite (sendAndLog_exact w job message _ cp Db.RChild db);
         destruct (fst (TwilioService.sendSms w cp message db)) as [e'|sid'] eqn:Hsc;
         [discriminate|]);
    cbv beta iota;
    intros [= <- <-]; (split; [reflexivity|]);
    match goal with
    | |- Forall2 _ (newRecords db ?d) _ =>
        erewrite (newRecords_app db d);
        [|rewrite ?createMessage_messages, Hmsg, <- ?app_assoc;
          first [ reflexivity | symmetry; apply app_nil_r ]]
    end;
    cbn [app]; repeat constructor; eexists; split; cbn [fst snd]; eauto.
Qed.

Lemma sendSms_sid w phone message db sid :
  fst (TwilioService.sendSms w phone message db) = inr sid ->
  twilioCreate w phone message = inr (Some sid) /\ sid <> [].
Proof.
  unfold TwilioService.sendSms, try_catch, throw, ret.
  destruct (twilioInit w) as [e|[|]]; cbn [negb fst]; try discriminate.
  destruct (TwilioService.validatePhoneNumber phone); cbn [negb fst]; try discriminate.
  destruct (twilioCreate w phone message) as [e|[s|]]; cbn [truthy_opt fst];
    try discriminate.
  destruct s; cbn [truthy default fst]; [discriminate|]. intros [= <-].
  split; [reflexivity|discriminate].
Qed.

Lemma sendSms_sid_nonempty w phone message db sid :
  fst (TwilioService.sendSms w phone message db) = inr sid -> sid <> [].
Proof. intros H. now apply sendSms_sid in H. Qed.

Lemma valid_within_limit (message : jsstring) (maxSegments : Z) :
  valid (validateMessage message maxSegments) = true ->
  countSmsSegments message <= maxSegments.
Proof.
  unfold validateMessage.
  destruct (str_length (trim message) =? 0);
    destruct (Z.ltb_spec maxSegments (countSmsSegments message)); cbn;
    try discriminate; intros _; lia.
Qed.

(** The row of a recipient after a run that returned: the [sent] row
    with the message as its body, the item count, and the sid, not
    empty, that Twilio returned for this number and this message. *)
Definition sentWith (w : World) (job : SendSmsJobData) (message : jsstring) (n : Z)
           (row : Db.Message) (r : jsstring * Db.RecipientType) : Prop :=
  exists sid,
    twilioCreate w (fst r) message = inr (Some sid)
    /\ sid <> []
    /\ row = sentRow w job message n (fst r) (snd r) sid.

(** When a run of the processor returns, the fetch returned some
    items; the run reports success with their number, the length of the
    message formatted from them and its segment count, which is between
    one and five; and it has added exactly one row for each resolved
    recipient, in their order: the [sent] row that carries the whole
    message, the item count and the non-empty sid that Twilio returned
    for that recipient. *)
Theorem successful_attempt_rows w job db res db' :
  processSmsJob w job db = (inr res, db') ->
  exists todos,
    fst (CanvasService.fetchTodoItems w (childId job) db) = inr todos
    /\ res = {| success := true;
                res_assignmentCount := Z.of_nat (length todos);
                messageLength :=
                  str_length (formatMessage db (now w) (childId job) todos
                                            (Some (now w)));
                smsSegments :=
                  countSmsSegments (formatMessage db (now w) (childId job) todos
                                                  (Some (now w))) |}
    /\ 1 <= smsSegments res <= 5
    /\ Forall2 (sentWith w job (formatMessage db (now w) (childId job) todos
                                              (Some (now w)))
                         (Z.of_nat (length todos)))
               (newRecords db db') (recipients db job).
Proof.
  intros Hrun.
  apply attempt_success_exact in Hrun as (todos & Hfetch & Hvalid & -> & Hrows).
  exists todos. split; [exact Hfetch|]. split; [reflexivity|].
  cbn [smsSegments].
  change (segments (validateMessage ?m 5)) with (countSmsSegments m).
  split; [split; [apply FormattingProps.countSmsSegments_pos
                 | now apply valid_within_limit]|].
  eapply Forall2_impl; [exact Hrows|].
  intros row r (sid & Hsid & ->). apply sendSms_sid in Hsid as [Hcreate Hne].
  now exists sid.
Qed.

(** The first attempt for the example family in the calm world: two
    rows, for the parent and for the child, each with the message of the
    example and the sid of the calm world. *)
Lemma successful_attempt_rows_witness :
  exists todos,
    fst (CanvasService.fetchTodoItems calm (lit "c1") (family childPhone [english]))
    = inr todos
    /\ Forall2 (sentWith calm theJob
                  (formatMessage (family childPhone [english]) feb18 (lit "c1") todos
                                 (Some feb18))
                  (Z.of_nat (length todos)))
               (newRecords (family childPhone [english])
                  (snd (processSmsJob calm theJob (family childPhone [english]))))
               [(parentPhone, Db.RParent); (childPhone, Db.RChild)].
Proof.
  destruct (successful_attempt_rows calm theJob (family childPhone [english])
              {| success := true; res_assignmentCount := 1;
                 messageLength := 112; smsSegments := 1 |}
              (snd (processSmsJob calm theJob (family childPhone [english])))
              ltac:(vm_compute; reflexivity))
    as (todos & Hfetch & _ & _ & Hrows).
  exists todos. split; [exact Hfetch|exact Hrows].
Defined.

(** The preview a parent is shown is the message the worker sends: in
    the same world and on the same database, a preview that answers 200
    and a run of the processor that returns agree on the item count and
    on the text, and every row the run adds carries that text.  The
    preview itself adds no row. *)
Theorem preview_shows_worker_message w parentId childId db n message todos res :
  fst (preview w parentId childId db) = (200, PreviewData n message todos) ->
  fst (processSmsJob w (mkJobData parentId childId) db) = inr res ->
  res_assignmentCount res = n
  /\ messageLength res = str_length message
  /\ Forall (fun row => Db.messageBody row = message)
            (newRecords db (snd (processSmsJob w (mkJobData parentId childId) db)))
  /\ Db.messages (snd (preview w parentId childId db)) = Db.messages db.
Proof.
  intros Hpre Hrun.
  destruct (processSmsJob w (mkJobData parentId childId) db) as [r db'] eqn:Hp.
  cbn [fst snd] in *. subst r.
  apply attempt_success_exact in Hp as (todos' & Hfetch & _ & -> & Hrows).
  cbn [SchedulerService.childId SchedulerService.parentId] in *.
  unfold preview in *.
  destruct (findRelationship db parentId childId); [|discriminate].
  destruct (CanvasService.fetchTodoItems w childId db) as [[e|todos0] db1] eqn:Hf;
    [discriminate|].
  apply fetchTodoItems_effect in Hf as [Hdir Hmsg].
  cbn [fst snd] in *. injection Hfetch as <-. injection Hpre as <- <- <-.
  rewrite (sameDirectory_formatMessage _ _ _ _ _ _ Hdir).
  change (formatMessage db (now w) childId todos0 None)
    with (formatMessage db (now w) childId todos0 (Some (now w))).
  repeat split; [|exact Hmsg].
  induction Hrows as [|row r rows rs (sid & _ & ->) _ IH]; constructor; [reflexivity|].
  exact IH.
Qed.

Lemma preview_shows_worker_message_witness :
  Forall (fun row => Db.messageBody row = FormattingProps.essayMessage)
         (newRecords (family childPhone [english])
            (snd (processSmsJob calm theJob (family childPhone [english])))).
Proof.
  apply (preview_shows_worker_message calm (lit "p1") (lit "c1")
           (family childPhone [english]) 1 FormattingProps.essayMessage [essay]
           {| success := true; res_assignmentCount := 1;
              messageLength := 112; smsSegments := 1 |});
    vm_compute; reflexivity.
Defined.

(** The rows the [catch] block writes. *)
Definition failureRows (w : World) (job : SendSmsJobData) (db : Db.t)
  : list Db.Message :=
  match phoneNumberOf (Db.findParent db (parentId job)) with
  | Some phone => if truthy phone then [failedRow w job phone] else []
  | None => []
  end.

Lemma logFailure_exact w job e db :
  exists db',
    logFailure w job e db = (inl e, db')
    /\ sameDirectory db db'
    /\ Db.messages db' = Db.messages db ++ failureRows w job db.
Proof.
  unfold logFailure, failureRows, mbind, M_bind, bind, gets, throw, ret,
    logMessage, modify.
  destruct (phoneNumberOf (Db.findParent db (parentId job))) as [phone|].
  - destruct (truthy phone).
    + eexists. repeat split.
    + exists db. repeat split. now rewrite app_nil_r.
  - exists db. repeat split. now rewrite app_nil_r.
Qed.

(** When a run of the processor throws, it throws the very error that
    stopped the [try] block, and the last thing it did was to add the
    [failed] row of the parent: a row with an empty body, no sid and a
    count of zero, or no row when the parent has no phone number.
    Before it, only [sent] rows were added. *)
Theorem failed_attempt_rethrows w job db e db' :
  processSmsJob w job db = (inl e, db') ->
  fst (processSmsJob_body w job db) = inl e
  /\ exists sents,
       newRecords db db' = sents ++ failureRows w job db
       /\ Forall (fun m => Db.status m = Db.Sent) sents.
Proof.
  unfold processSmsJob, try_catch.
  destruct (processSmsJob_body w job db) as [[e0|res] db1] eqn:Hb; [|discriminate].
  apply body_effect in Hb as (Hdir & sents & Hmsg & Hsents).
  destruct (logFailure_exact w job e0 db1) as (db2 & -> & _ & Hmsg2).
  intros [= <- <-]. split; [reflexivity|]. exists sents. split; [|exact Hsents].
  apply newRecords_app. rewrite Hmsg2, Hmsg, <- app_assoc. f_equal.
  unfold failureRows. now rewrite (sameDirectory_findParent _ _ _ Hdir).
Qed.

Lemma failed_attempt_rethrows_witness :
  fst (processSmsJob_body throttled theJob (family childPhone [english]))
  = inl (lit "Canvas API error: Request failed with status code 429").
Proof.
  apply (failed_attempt_rethrows throttled theJob (family childPhone [english]) _
           (snd (processSmsJob throttled theJob (family childPhone [english])))).
  vm_compute. reflexivity.
Defined.

Definition sentOrFailed (m : Db.Message) : Prop :=
  Db.status m = Db.Sent \/ Db.status m = Db.Failed.

Lemma attempt_appends w job db r db' :
  processSmsJob w job db = (r, db') ->
  sameDirectory db db'
  /\ exists rows, Db.messages db' = Db.messages db ++ rows /\ Forall sentOrFailed rows.
Proof.
  intros Hrun. apply processSmsJob_effect in Hrun as (Hdir & rows & Hmsg & Hrows).
  split; [exact Hdir|]. exists rows. split; [exact Hmsg|].
  destruct r as [e|res].
  - destruct Hrows as (sents & fails & -> & Hsents & Hfails).
    apply summary_all_status in Hfails. apply Forall_app. split.
    + eapply Forall_impl; [exact Hsents|]. intros m Hm. now left.
    + eapply Forall_impl; [exact Hfails|]. intros m Hm. now right.
  - apply summary_all_status in Hrows.
    eapply Forall_impl; [exact Hrows|]. intros m Hm. now left.
Qed.

Lemma runAttempts_appends n k world job db :
  sameDirectory db (snd (runAttempts n k world job db))
  /\ exists rows,
       Db.messages (snd (runAttempts n k world job db)) = Db.messages db ++ rows
       /\ Forall sentOrFailed rows.
Proof.
  revert k db. induction n as [|n IH]; intros k db.
  - cbn. split; [apply sameDirectory_refl|]. exists []. now rewrite app_nil_r.
  - destruct n as [|n].
    + cbn [runAttempts].
      destruct (processSmsJob (world k) job db) as [r db'] eqn:Hp.
      now apply attempt_appends in Hp.
    + rewrite runAttempts_step. unfold try_catch.
      destruct (processSmsJob (world k) job db) as [[e|res] db1] eqn:Hp;
        apply attempt_appends in Hp as (Hdir1 & rows1 & Hmsg1 & Hrows1).
      * destruct (IH (S k) db1) as (Hdir2 & rows2 & Hmsg2 & Hrows2).
        split; [exact (sameDirectory_trans _ _ _ Hdir1 Hdir2)|].
        exists (rows1 ++ rows2). split; [now rewrite Hmsg2, Hmsg1, app_assoc|].
        apply Forall_app. now split.
      * cbn [snd]. split; [exact Hdir1|]. now exists rows1.
Qed.

(** A firing only ever appends to the Occurrence Store: the rows that
    were there stay as they are, in place, and every row added has status
    [sent] or [failed]; the parents, preferences, children and courses
    are left untouched. *)
Theorem firing_appends_only world job db :
  sameDirectory db (snd (runFiring world job db))
  /\ exists rows,
       Db.messages (snd (runFiring world job db)) = Db.messages db ++ rows
       /\ Forall sentOrFailed rows.
Proof. unfold runFiring. apply runAttempts_appends. Qed.

Lemma validateMessage_errors_of_nonblank (message : jsstring) (maxSegments : Z) :
  trim message <> [] ->
  maxSegments < countSmsSegments message ->
  validateMessage message maxSegments
  = {| valid := false;
       segments := countSmsSegments message;
       errors := [lit "Message exceeds maximum of " ++ of_Z maxSegments
                  ++ lit " SMS segments (currently "
                  ++ of_Z (countSmsSegments message) ++ lit ")"] |}.
Proof.
  intros Hne Hlt. unfold validateMessage, str_length.
  destruct (trim message) as [|c t]; [congruence|]. cbn [length].
  apply Z.ltb_lt in Hlt. rewrite Hlt. reflexivity.
Qed.

(** A list of items too long for five segments is never sent: the run
    throws [Invalid message: Message exceeds maximum of 5 SMS segments
    (currently n)] before any send, and adds no [sent] row. *)
Theorem oversized_message_not_sent w job db todos :
  fst (CanvasService.fetchTodoItems w (childId job) db) = inr todos ->
  5 < countSmsSegments (formatMessage db (now w) (childId job) todos (Some (now w))) ->
  fst (processSmsJob w job db)
  = inl (lit "Invalid message: Message exceeds maximum of 5 SMS segments (currently "
         ++ of_Z (countSmsSegments
                    (formatMessage db (now w) (childId job) todos (Some (now w))))
         ++ lit ")")
  /\ newRecords db (snd (processSmsJob w job db)) = failureRows w job db.
Proof.
  intros Hfetch Hbig.
  destruct (CanvasService.fetchTodoItems w (childId job) db) as [r db1] eqn:Hf.
  cbn [fst] in Hfetch. subst r.
  pose proof Hf as Heff. apply fetchTodoItems_effect in Heff as [Hdir Hmsg].
  set (message := formatMessage db (now w) (childId job) todos (Some (now w))) in *.
  assert (processSmsJob w job db
          = logFailure w job
              (lit "Invalid message: Message exceeds maximum of 5 SMS segments (currently "
               ++ of_Z (countSmsSegments message) ++ lit ")") db1) as ->.
  { unfold processSmsJob, try_catch, processSmsJob_body, mbind, M_bind, bind, gets, throw.
    rewrite Hf. cbv beta iota.
    rewrite (sameDirectory_formatMessage _ _ _ _ _ _ Hdir). fold message.
    rewrite (validateMessage_errors_of_nonblank message 5);
      [|apply FormattingFacts.formatMessage_trim | exact Hbig].
    cbn [valid negb errors join]. reflexivity. }
  destruct (logFailure_exact w job
              (lit "Invalid message: Message exceeds maximum of 5 SMS segments (currently "
               ++ of_Z (countSmsSegments message) ++ lit ")") db1)
    as (db2 & -> & _ & Hmsg2).
  cbn [fst snd]. split; [reflexivity|]. apply newRecords_app.
  rewrite Hmsg2, Hmsg. f_equal. unfold failureRows.
  now rewrite (sameDirectory_findParent _ _ _ Hdir).
Qed.

(** Canvas answers with ten copies of the essay. *)
Definition busy : World :=
  {| now := feb18;
     getTime := isoTime;
     decrypt := fun _ _ _ => Some (lit "canvas-token");
     canvasGet := fun _ _ => AxiosOk (repeat essayRaw 10);
     twilioInit := inr true;
     twilioCreate := fun _ _ => inr (Some (lit "SM01")) |}.

Lemma oversized_message_not_sent_witness :
  fst (processSmsJob busy theJob (family childPhone [english]))
  = inl (lit "Invalid message: Message exceeds maximum of 5 SMS segments (currently 6)")
  /\ List.map summary
       (newRecords (family childPhone [english])
          (snd (processSmsJob busy theJob (family childPhone [english]))))
     = [(Db.Failed, (parentPhone, Db.RParent))].
Proof.
  destruct (oversized_message_not_sent busy theJob (family childPhone [english])
              (repeat essay 10)
              ltac:(vm_compute; reflexivity) ltac:(vm_compute; reflexivity))
    as [Herr Hrows].
  rewrite Herr, Hrows. split; vm_compute; reflexivity.
Defined.

End WorkerFacts.

(* ===================================================================== *)
(** * Courses and tokens: what a sync and a stored token change           *)
(* ===================================================================== *)

Module SyncFacts.

Import Fixtures CanvasService CanvasSync SchedulerProps.

Lemma lookup_obj_set (k' v : jsstring) (own : gmap jsstring jsstring) (k : jsstring) :
  obj_set k' v own !! k
  = if Js.eqb k' k && negb (Js.eqb k (lit "__proto__")) then Some v else own !! k.
Proof.
  unfold obj_set. destruct (Js.eqb k' (lit "__proto__")) eqn:P.
  - apply eqb_eq in P. subst k'.
    destruct (Js.eqb (lit "__proto__") k) eqn:E; [|reflexivity].
    apply eqb_eq in E. subst k. now rewrite eqb_refl.
  - destruct (Js.eqb k' k) eqn:E.
    + apply eqb_eq in E. subst k'. rewrite P. cbn. apply lookup_insert_eq.
    + cbn. apply lookup_insert_ne. intros Hk. subst k'.
      rewrite eqb_refl in E. discriminate.
Qed.

(** The value a plain object holds under [k] after the rows of [l]
    were written into it one by one: that of the last row with the key,
    and nothing new under [__proto__]. *)
Lemma foldl_obj_set_lookup {A : Type} (key val : A -> jsstring) (l : list A)
      (m : gmap jsstring jsstring) (k : jsstring) :
  foldl (fun m c => obj_set (key c) (val c) m) m l !! k
  = if Js.eqb k (lit "__proto__") then m !! k
    else match last (List.filter (fun c => Js.eqb (key c) k) l) with
         | Some c => Some (val c)
         | None => m !! k
         end.
Proof.
  revert m. induction l as [|a l IH]; intros m;
    [cbn; now destruct (Js.eqb k _)|].
  cbn [foldl List.filter]. rewrite IH, lookup_obj_set.
  destruct (Js.eqb k (lit "__proto__")) eqn:P; cbn [negb].
  - now rewrite andb_false_r.
  - rewrite andb_true_r. destruct (Js.eqb (key a) k) eqn:E.
    + destruct (List.filter (fun c => Js.eqb (key c) k) l) as [|b t] eqn:F;
        [reflexivity|].
      change (last (a :: b :: t)) with (last (b :: t)).
      destruct (last (b :: t)) eqn:L; [reflexivity|].
      apply last_None in L. discriminate.
    + reflexivity.
Qed.

(** Whether a course row is written into the map of [childId] under [k]. *)
Definition under (childId k : jsstring) (c : Db.Course) : bool :=
  Js.eqb (Db.course_childId c) childId && Db.course_isActive c
  && Js.eqb (Db.canvasCourseId c) k.

Definition rowsUnder (childId k : jsstring) (courses : list Db.Course) : list Db.Course :=
  List.filter (under childId k) courses.

Lemma getCourseMap_lookup (db : Db.t) (childId k : jsstring) :
  getCourseMap db childId !! k
  = if Js.eqb k (lit "__proto__") then None
    else Db.courseName <$> last (rowsUnder childId k (Db.courses db)).
Proof.
  unfold getCourseMap, Db.findActiveCourses, rowsUnder.
  rewrite (foldl_obj_set_lookup Db.canvasCourseId Db.courseName).
  destruct (Js.eqb k (lit "__proto__")); [reflexivity|].
  assert (List.filter (fun c => Js.eqb (Db.canvasCourseId c) k)
            (List.filter (fun c => Js.eqb (Db.course_childId c) childId
                                   && Db.course_isActive c) (Db.courses db))
          = List.filter (under childId k) (Db.courses db)) as ->.
  { induction (Db.courses db) as [|a l IH]; [reflexivity|].
    cbn [List.filter]. unfold under at 1.
    destruct (Js.eqb (Db.course_childId a) childId && Db.course_isActive a);
      cbn [andb List.filter]; [|exact IH].
    destruct (Js.eqb (Db.canvasCourseId a) k); now rewrite IH. }
  now destruct (last _).
Qed.

Lemma rowsUnder_app (childId k : jsstring) (l l' : list Db.Course) :
  rowsUnder childId k (l ++ l') = rowsUnder childId k l ++ rowsUnder childId k l'.
Proof. unfold rowsUnder. now rewrite List.filter_app. Qed.

Lemma rowsUnder_one (childId k : jsstring) (c : Db.Course) :
  rowsUnder childId k [c] = if under childId k c then [c] else [].
Proof. reflexivity. Qed.

(** What [upsertCourse] makes of a row of its key. *)
Definition renamed (name : jsstring) (c : Db.Course) : Db.Course :=
  {| Db.course_childId := Db.course_childId c;
     Db.canvasCourseId := Db.canvasCourseId c;
     Db.courseName := name;
     Db.course_isActive := true |}.

Lemma sameCourse_true (childId cid : jsstring) (c : Db.Course) :
  sameCourse childId cid c = true
  <-> Db.course_childId c = childId /\ Db.canvasCourseId c = cid.
Proof.
  unfold sameCourse. split.
  - intros [H1 H2]%andb_prop. split; now apply eqb_eq.
  - intros [-> ->]. now rewrite !eqb_refl.
Qed.

Lemma under_other (childId cid child k : jsstring) (c : Db.Course) :
  Db.course_childId c = childId -> Db.canvasCourseId c = cid ->
  ~ (child = childId /\ k = cid) ->
  under child k c = false.
Proof.
  intros H1 H2 Hne. unfold under. rewrite H1, H2.
  destruct (decide (childId = child)) as [Hc|Hc].
  - destruct (decide (cid = k)) as [Hk|Hk]; [exfalso; apply Hne; now split|].
    rewrite (SchedulerProps.eqb_neq cid k Hk). now rewrite andb_false_r.
  - now rewrite (SchedulerProps.eqb_neq childId child Hc).
Qed.

(** Rows of another key are not touched by an update. *)
Lemma rowsUnder_update_other (childId cid name child k : jsstring) (l : list Db.Course) :
  ~ (child = childId /\ k = cid) ->
  rowsUnder child k
    (List.map (fun c => if sameCourse childId cid c then renamed name c else c) l)
  = rowsUnder child k l.
Proof.
  intros Hne. unfold rowsUnder. induction l as [|a l IH]; [reflexivity|].
  cbn [List.map List.filter]. rewrite IH.
  destruct (sameCourse childId cid a) eqn:S; [|reflexivity].
  apply sameCourse_true in S as [S1 S2].
  rewrite (under_other childId cid child k (renamed name a)) by assumption.
  now rewrite (under_other childId cid child k a) by assumption.
Qed.

(** The rows of the key itself all carry the name after an update, and
    there is one when the key had a row, active or not. *)
Lemma rowsUnder_update_same (childId cid name : jsstring) (l : list Db.Course) :
  Forall (fun c => Db.courseName c = name)
    (rowsUnder childId cid
       (List.map (fun c => if sameCourse childId cid c then renamed name c else c) l))
  /\ (existsb (sameCourse childId cid) l = true ->
      rowsUnder childId cid
        (List.map (fun c => if sameCourse childId cid c then renamed name c else c) l)
      <> []).
Proof.
  unfold rowsUnder. induction l as [|a l [IH1 IH2]]; [split; [constructor|discriminate]|].
  cbn [List.map List.filter existsb].
  destruct (sameCourse childId cid a) eqn:S.
  - pose proof S as S'. apply sameCourse_true in S' as [S1 S2].
    assert (under childId cid (renamed name a) = true) as ->.
    { unfold under, renamed. cbn. now rewrite S1, S2, !eqb_refl. }
    split; [constructor; [reflexivity|exact IH1]|discriminate].
  - assert (under childId cid a = false) as ->.
    { unfold under. unfold sameCourse in S.
      destruct (Js.eqb (Db.course_childId a) childId); [|reflexivity].
      cbn [andb] in *. rewrite S. now rewrite andb_false_r. }
    split; [exact IH1|exact IH2].
Qed.

Lemma last_Forall {A : Type} (P : A -> Prop) (l : list A) :
  Forall P l -> l <> [] -> exists x, last l = Some x /\ P x.
Proof.
  intros HP Hne. destruct (last l) as [x|] eqn:E.
  - exists x. split; [reflexivity|]. rewrite Forall_forall in HP. apply HP.
    apply last_Some in E as [l' ->]. apply elem_of_app. right. now left.
  - apply last_None in E. contradiction.
Qed.

(** One upsert, read back through [getCourseMap]: the map of the child
    holds the name under the id, and nothing else of any map changed. *)
Lemma getCourseMap_upsertCourse (childId cid name child k : jsstring) (db : Db.t) :
  cid <> lit "__proto__" ->
  getCourseMap (upsertCourse childId cid name db) child !! k
  = if bool_decide (child = childId /\ k = cid) then Some name
    else getCourseMap db child !! k.
Proof.
  intros Hcid. rewrite !getCourseMap_lookup.
  destruct (Js.eqb k (lit "__proto__")) eqn:P.
  { apply eqb_eq in P. subst k.
    rewrite bool_decide_eq_false_2; [reflexivity|]. intros [_ E]. now apply Hcid. }
  unfold upsertCourse. cbn [Db.courses].
  fold (renamed name).
  destruct (decide (child = childId /\ k = cid)) as [[-> ->]|Hne].
  - rewrite bool_decide_eq_true_2 by (split; reflexivity).
    destruct (existsb (sameCourse childId cid) (Db.courses db)) eqn:E.
    + destruct (rowsUnder_update_same childId cid name (Db.courses db)) as [H1 H2].
      destruct (last_Forall _ _ H1 (H2 E)) as (x & Hx & Hn).
      unfold renamed in Hx. rewrite Hx. cbn. now rewrite Hn.
    + rewrite rowsUnder_app, rowsUnder_one.
      unfold under. cbn [Db.course_childId Db.course_isActive Db.canvasCourseId].
      rewrite !eqb_refl. cbn [andb]. now rewrite last_snoc.
  - rewrite bool_decide_eq_false_2 by exact Hne.
    destruct (existsb (sameCourse childId cid) (Db.courses db)) eqn:E.
    + change (fun c : Db.Course =>
                if sameCourse childId cid c
                then {| Db.course_childId := Db.course_childId c;
                        Db.canvasCourseId := Db.canvasCourseId c;
                        Db.courseName := name;
                        Db.course_isActive := true |}
                else c)
        with (fun c : Db.Course => if sameCourse childId cid c then renamed name c else c).
      now rewrite rowsUnder_update_other.
    + rewrite rowsUnder_app, rowsUnder_one.
      rewrite (under_other childId cid child k) by (reflexivity || exact Hne).
      now rewrite app_nil_r.
Qed.

(** The name Canvas lists under a course id: that of the last course of
    the response with the id. *)
Definition listedName (data : list CanvasCourse) (k : jsstring) : option jsstring :=
  cc_name <$> last (List.filter (fun c => Js.eqb (of_Z (cc_id c)) k) data).

Lemma upsertCourses_effect (childId : jsstring) (data : list CanvasCourse) (db : Db.t) :
  exists db',
    upsertCourses childId data db = (inr tt, db')
    /\ Db.messages db' = Db.messages db
    /\ Db.canvasTokens db' = Db.canvasTokens db
    /\ forall child k,
         getCourseMap db' child !! k
         = if bool_decide (child = childId)
           then match listedName data k with
                | Some n => Some n
                | None => getCourseMap db child !! k
                end
           else getCourseMap db child !! k.
Proof.
  revert db. induction data as [|c data IH]; intros db.
  - exists db. repeat split; try reflexivity.
    intros child k. cbn. now destruct (bool_decide _).
  - destruct (IH (upsertCourse childId (of_Z (cc_id c)) (cc_name c) db))
      as (db' & Hrun & Hmsg & Htok & Hmap).
    exists db'. split; [|split; [exact Hmsg|split; [exact Htok|]]].
    + cbn [upsertCourses]. unfold mbind, M_bind, bind, modify. exact Hrun.
    + intros child k. rewrite Hmap, getCourseMap_upsertCourse
        by (intros E; pose proof (FormattingProps.inherited_of_Z (cc_id c)) as Hi;
            rewrite E in Hi; discriminate).
      unfold listedName. cbn [List.filter].
      destruct (decide (child = childId)) as [->|Hc].
      * rewrite (bool_decide_eq_true_2 (childId = childId)) by reflexivity.
        destruct (Js.eqb (of_Z (cc_id c)) k) eqn:E.
        -- apply eqb_eq in E.
           destruct (List.filter (fun c0 => Js.eqb (of_Z (cc_id c0)) k) data)
             as [|b t] eqn:F.
           ++ cbn. rewrite bool_decide_eq_true_2 by (split; congruence). reflexivity.
           ++ change (last (c :: b :: t)) with (last (b :: t)).
              destruct (last (b :: t)) eqn:L; [reflexivity|].
              apply last_None in L. discriminate.
        -- destruct (last (List.filter (fun c0 => Js.eqb (of_Z (cc_id c0)) k) data));
             [reflexivity|]. cbn.
           rewrite bool_decide_eq_false_2; [reflexivity|].
           intros [_ ->]. unfold Js.eqb in E. now rewrite bool_decide_eq_true_2 in E.
      * rewrite (bool_decide_eq_false_2 (child = childId)) by exact Hc.
        rewrite bool_decide_eq_false_2; [reflexivity|]. now intros [? _].
Qed.

(** A sync that returns has written the names Canvas listed into the
    course map of the child, the last one listed under an id winning;
    a course Canvas no longer lists keeps its entry, the maps of other
    children are unchanged, and so are the tokens and the messages. *)
Theorem syncCourses_updates_course_map (w : World)
        (coursesGet : jsstring -> jsstring -> AxiosOutcome (list CanvasCourse))
        (childId : jsstring) (db : Db.t) :
  fst (syncCourses w coursesGet childId db) = inr tt ->
  exists child tok token data,
    Db.findChild db childId = Some child
    /\ Db.findCanvasToken db childId = Some tok
    /\ decrypt w (Db.encryptedToken tok) (Db.encryptionIv tok) (Db.authTag tok)
       = Some token
    /\ coursesGet (lit "https://" ++ Db.canvasDomain child ++ lit "/api/v1/courses") token
       = AxiosOk data
    /\ (forall k,
          getCourseMap (snd (syncCourses w coursesGet childId db)) childId !! k
          = match listedName data k with
            | Some n => Some n
            | None => getCourseMap db childId !! k
            end)
    /\ (forall other, other <> childId ->
          getCourseMap (snd (syncCourses w coursesGet childId db)) other
          = getCourseMap db other)
    /\ Db.canvasTokens (snd (syncCourses w coursesGet childId db)) = Db.canvasTokens db
    /\ Db.messages (snd (syncCourses w coursesGet childId db)) = Db.messages db.
Proof.
  unfold syncCourses, mbind, M_bind, bind, gets, throw.
  destruct (Db.findChild db childId) as [child|] eqn:Hc; [|discriminate].
  destruct (Db.findCanvasToken db childId) as [tok|] eqn:Ht; [|discriminate].
  destruct (decrypt w _ _ _) as [token|] eqn:Hd; [|discriminate].
  destruct (coursesGet _ token) as [data|st msg] eqn:Hg; [|discriminate].
  intros _. exists child, tok, token, data.
  destruct (upsertCourses_effect childId data db) as (db' & -> & Hmsg & Htok & Hmap).
  cbn [snd]. repeat split; try assumption.
  - intros k. rewrite Hmap. now rewrite bool_decide_eq_true_2.
  - intros other Hne. apply map_eq. intros k. rewrite Hmap.
    now rewrite bool_decide_eq_false_2.
Qed.

(** Canvas lists English under a new name, and Art, which the database
    does not know yet. *)
Definition listing (url token : jsstring) : AxiosOutcome (list CanvasCourse) :=
  AxiosOk [mkCanvasCourse 101 (lit "English 7"); mkCanvasCourse 202 (lit "Art")].

Lemma syncCourses_updates_course_map_witness :
  getCourseMap (snd (syncCourses calm listing (lit "c1") (family childPhone [english])))
               (lit "c1") !! lit "101"
  = Some (lit "English 7")
  /\ Db.messages (snd (syncCourses calm listing (lit "c1") (family childPhone [english])))
     = Db.messages (family childPhone [english]).
Proof.
  destruct (syncCourses_updates_course_map calm listing (lit "c1")
              (family childPhone [english]) ltac:(vm_compute; reflexivity))
    as (child & tok & token & data & Hc & Ht & Hd & Hg & Hmap & _ & _ & Hmsg).
  split; [|exact Hmsg].
  rewrite Hmap. injection Hg as <-. vm_compute. reflexivity.
Defined.

(** The row [upsertToken] writes. *)
Definition stored (childId e iv tag : jsstring) : Db.CanvasToken :=
  {| Db.token_childId := childId; Db.encryptedToken := e;
     Db.encryptionIv := iv; Db.authTag := tag; Db.isValid := true |}.

Definition restored (childId e iv tag : jsstring) (k : Db.CanvasToken) : Db.CanvasToken :=
  if Js.eqb (Db.token_childId k) childId
  then {| Db.token_childId := Db.token_childId k; Db.encryptedToken := e;
          Db.encryptionIv := iv; Db.authTag := tag; Db.isValid := true |}
  else k.

Lemma restored_hit (childId e iv tag : jsstring) (k : Db.CanvasToken) :
  Js.eqb (Db.token_childId k) childId = true ->
  restored childId e iv tag k = stored childId e iv tag.
Proof.
  intros E. unfold restored, stored. rewrite E. apply eqb_eq in E. now rewrite E.
Qed.

Lemma restored_miss (childId e iv tag : jsstring) (k : Db.CanvasToken) :
  Js.eqb (Db.token_childId k) childId = false ->
  restored childId e iv tag k = k.
Proof. intros E. unfold restored. now rewrite E. Qed.

Lemma find_restored_other (childId e iv tag other : jsstring) (l : list Db.CanvasToken) :
  other <> childId ->
  find (fun k => Js.eqb (Db.token_childId k) other) (List.map (restored childId e iv tag) l)
  = find (fun k => Js.eqb (Db.token_childId k) other) l.
Proof.
  intros Hne. induction l as [|a l IH]; [reflexivity|].
  cbn [List.map find].
  destruct (Js.eqb (Db.token_childId a) childId) eqn:E.
  - rewrite (restored_hit _ _ _ _ _ E). apply eqb_eq in E.
    cbn [stored Db.token_childId]. rewrite E.
    rewrite (SchedulerProps.eqb_neq childId other) by congruence. exact IH.
  - rewrite (restored_miss _ _ _ _ _ E). now rewrite IH.
Qed.

Lemma find_restored_same (childId e iv tag : jsstring) (l : list Db.CanvasToken) :
  existsb (fun k => Js.eqb (Db.token_childId k) childId) l = true ->
  find (fun k => Js.eqb (Db.token_childId k) childId)
       (List.map (restored childId e iv tag) l)
  = Some (stored childId e iv tag).
Proof.
  induction l as [|a l IH]; [discriminate|].
  cbn [existsb List.map find].
  destruct (Js.eqb (Db.token_childId a) childId) eqn:E.
  - intros _. rewrite (restored_hit _ _ _ _ _ E).
    cbn [stored Db.token_childId]. now rewrite eqb_refl.
  - cbn [orb]. rewrite (restored_miss _ _ _ _ _ E), E. exact IH.
Qed.

Lemma find_snoc_stored (childId e iv tag other : jsstring) (l : list Db.CanvasToken) :
  find (fun k => Js.eqb (Db.token_childId k) other) (l ++ [stored childId e iv tag])
  = match find (fun k => Js.eqb (Db.token_childId k) other) l with
    | Some k => Some k
    | None => if Js.eqb childId other then Some (stored childId e iv tag) else None
    end.
Proof.
  induction l as [|a l IH]; [reflexivity|].
  cbn [app find]. now destruct (Js.eqb (Db.token_childId a) other).
Qed.

Lemma find_none_existsb (childId : jsstring) (l : list Db.CanvasToken) :
  existsb (fun k => Js.eqb (Db.token_childId k) childId) l = false ->
  find (fun k => Js.eqb (Db.token_childId k) childId) l = None.
Proof.
  induction l as [|a l IH]; [reflexivity|].
  cbn [existsb find]. destruct (Js.eqb (Db.token_childId a) childId); [discriminate|].
  exact IH.
Qed.

(** What [upsertToken] leaves under the key of a child. *)
Lemma findCanvasToken_upsertToken (childId e iv tag other : jsstring) (db : Db.t) :
  Db.findCanvasToken (upsertToken childId e iv tag db) other
  = if bool_decide (other = childId)
    then Some (stored childId e iv tag)
    else Db.findCanvasToken db other.
Proof.
  unfold Db.findCanvasToken, upsertToken. cbn [Db.canvasTokens].
  fold (restored childId e iv tag). fold (stored childId e iv tag).
  destruct (decide (other = childId)) as [->|Hne].
  - rewrite bool_decide_eq_true_2 by reflexivity.
    destruct (existsb _ (Db.canvasTokens db)) eqn:Ex.
    + now apply find_restored_same.
    + rewrite find_snoc_stored, (find_none_existsb _ _ Ex). now rewrite eqb_refl.
  - rewrite bool_decide_eq_false_2 by exact Hne.
    destruct (existsb _ (Db.canvasTokens db)) eqn:Ex.
    + now apply find_restored_other.
    + rewrite find_snoc_stored.
      rewrite (SchedulerProps.eqb_neq childId other) by congruence.
      now destruct (find _ _).
Qed.

(** A stored token is the one found for the child afterwards, and it is
    valid, also when the token stored before had been marked invalid;
    the tokens of other children stay as they are.  The next fetch for
    the child decrypts what was stored and asks Canvas with it. *)
Theorem storeToken_then_fetch (w : World) (childId e iv tag : jsstring) (db : Db.t) :
  Db.findCanvasToken (snd (storeToken (Some (e, iv, tag)) childId db)) childId
  = Some (stored childId e iv tag)
  /\ Db.isValid
       <$> Db.findCanvasToken
             (snd (storeToken (Some (e, iv, tag)) childId (Db.invalidateToken childId db)))
             childId
     = Some true
  /\ (forall other, other <> childId ->
        Db.findCanvasToken (snd (storeToken (Some (e, iv, tag)) childId db)) other
        = Db.findCanvasToken db other)
  /\ (forall child token data,
        Db.findChild db childId = Some child ->
        decrypt w e iv tag = Some token ->
        canvasGet w (lit "https://" ++ Db.canvasDomain child
                     ++ lit "/api/v1/users/self/todo") token
        = AxiosOk data ->
        fst (fetchTodoItems w childId (snd (storeToken (Some (e, iv, tag)) childId db)))
        = inr (sortByDueDate (getTime w) (parseTodoItems data))).
Proof.
  unfold storeToken, modify. cbn [snd].
  split; [|split; [|split]].
  - rewrite findCanvasToken_upsertToken. now rewrite bool_decide_eq_true_2.
  - rewrite findCanvasToken_upsertToken. now rewrite bool_decide_eq_true_2.
  - intros other Hne. rewrite findCanvasToken_upsertToken.
    now rewrite bool_decide_eq_false_2.
  - intros child token data Hc Hd Hg.
    unfold fetchTodoItems, mbind, M_bind, bind, gets, throw.
    change (Db.findChild (upsertToken childId e iv tag db) childId)
      with (Db.findChild db childId).
    rewrite Hc. rewrite findCanvasToken_upsertToken.
    rewrite bool_decide_eq_true_2 by reflexivity.
    cbn [stored Db.encryptedToken Db.encryptionIv Db.authTag]. now rewrite Hd, Hg.
Qed.

End SyncFacts.
